(** * Lumina: the agentic loop, its rate governor and the record store

    A shallow embedding of [services/geminiService.ts] (class
    [GeminiService]) and [services/database.ts] (class [DatabaseService]),
    followed by the properties of the specification that concern them.

    Conventions of the embedding.
    - [Date.now()] and every stored instant are integers ([Z], milliseconds).
      ISO-8601 texts written by [toISOString] are kept as the instant they
      denote; their text order is the numeric order for four-digit years.
    - Amounts of money are JavaScript numbers, that is binary64
      floating-point values ([float]): they are added and subtracted with
      the rounding of the code. Counters, lengths, durations and reminder
      leads are integers.
    - A promise that rejects is a value [Throw msg], where [msg] is the
      [message] of the error; [await] of it propagates like an exception.
    - The remote model and the SQLite driver are outside the repository:
      the replies of the first are read from a script, the faults of the
      second are an explicit argument.
    - The runtime and the SDK are outside the repository as well: the
      reading of a date ([new Date(text)]), the text of a number
      ([String(x)]) and the check [startChat] makes on a history are
      parameters of the definitions that use them. *)

From Stdlib Require Import ZArith Lia PrimFloat.
From stdpp Require Import base list strings sorting pretty gmap.

#[local] Set Warnings "-inexact-float".

Local Open Scope string_scope.
Local Open Scope list_scope.
Local Open Scope Z_scope.

(** ** JavaScript string primitives used by the services *)

Module Js.

(** [hay.startsWith(needle)] *)
Fixpoint startsWith (needle hay : string) : bool :=
  match needle, hay with
  | EmptyString, _ => true
  | String a n, String b h => if Ascii.eqb a b then startsWith n h else false
  | String _ _, EmptyString => false
  end.

(** [hay.includes(needle)] *)
Fixpoint includes (hay needle : string) : bool :=
  if startsWith needle hay then true
  else match hay with
       | EmptyString => false
       | String _ h => includes h needle
       end.

(** [s.substring(0, n)] *)
Fixpoint substring0 (n : nat) (s : string) : string :=
  match n, s with
  | S k, String a t => String a (substring0 k t)
  | _, _ => EmptyString
  end.

(** [arr.filter((x, index) => f(index, x))], the indices starting at [i]. *)
Fixpoint filter_from {A} (f : nat -> A -> bool) (i : nat) (arr : list A) : list A :=
  match arr with
  | [] => []
  | x :: rest => if f i x then x :: filter_from f (S i) rest
                 else filter_from f (S i) rest
  end.

Definition filteri {A} (f : nat -> A -> bool) (arr : list A) : list A :=
  filter_from f 0 arr.

(** The two outcomes of an awaited promise or a [try] body. *)
Inductive outcome (A : Type) : Type :=
| Return (a : A)
| Throw (message : string).
Arguments Return {A} a.
Arguments Throw {A} message.

(** The call failed: its promise rejected. *)
Definition throws {A} (r : outcome A) : Prop :=
  match r with
  | Throw _ => True
  | Return _ => False
  end.

End Js.

(** ** Conversation history, as handed to [sendMessage] *)

Module History.

(** An entry of [conversationHistory : any[]]: [{ role, parts: [{ text }] }]. *)
Record Content := mkContent { role : string; text : string }.

(** The callback of [validHistory.filter] (geminiService.ts, sendMessage).
    [validHistory] inside the callback is the array being filtered: the
    assignment happens after [filter] returns. *)
Definition alternates_with_previous (validHistory : list Content)
    (index : nat) (msg : Content) : bool :=
  match index with
  | O => String.eqb (role msg) "user"
  | S p =>
      match validHistory !! p with
      | Some prev =>
          let prevRole := role prev in
          (String.eqb prevRole "user" && String.eqb (role msg) "model")
          || (String.eqb prevRole "model" && String.eqb (role msg) "user")
      | None => false
      end
  end.

(** "Validate and clean conversation history". *)
Definition normalizeHistory (conversationHistory : list Content) : list Content :=
  let validHistory := conversationHistory in
  match validHistory with
  | [] => validHistory
  | first :: rest =>
      let validHistory :=
        if String.eqb (role first) "model" then rest else validHistory in
      Js.filteri (alternates_with_previous validHistory) validHistory
  end.

(** The role that must follow [r] in a well-formed exchange. *)
Definition next_role (r : string) : string :=
  if String.eqb r "user" then "model" else "user".

(** [alternating r h]: the first entry of [h], if any, has role [r], and
    the roles alternate between user and model from there. *)
Fixpoint alternating (r : string) (h : list Content) : Prop :=
  match h with
  | [] => True
  | c :: rest => role c = r /\ alternating (next_role r) rest
  end.

Definition well_formed (h : list Content) : Prop := alternating "user" h.

(** The only two roles the chat screen produces. *)
Definition two_role (c : Content) : Prop := role c = "user" \/ role c = "model".

(** The filter seen from one entry to the next: what [filteri] does from
    index 1 on, with the predecessor carried along. *)
Fixpoint filter_after (prev : Content) (h : list Content) : list Content :=
  match h with
  | [] => []
  | c :: rest =>
      if (String.eqb (role prev) "user" && String.eqb (role c) "model")
         || (String.eqb (role prev) "model" && String.eqb (role c) "user")
      then c :: filter_after c rest
      else filter_after c rest
  end.

End History.

(** ** The record store: [services/database.ts] *)

Module Database.
Import Js.

(** Rows of the four tables created by [init]. *)
Record Transaction := mkTransaction {
  tx_id : string; tx_amount : float; tx_type : string;
  tx_category : string; tx_description : string; tx_date : Z }.

Record Schedule := mkSchedule {
  sc_id : string; sc_title : string; sc_description : string;
  sc_date : Z; sc_time : string; sc_reminder : Z }.

Record JournalEntry := mkJournalEntry {
  je_id : string; je_content : string; je_mood : string; je_date : Z }.

(** [cm_persona] is the text stored for the persona: [message.persona || ''],
    the empty text when the message has none. *)
Record ChatMessage := mkChatMessage {
  cm_id : string; cm_text : string; cm_isUser : bool;
  cm_timestamp : Z; cm_persona : string }.

(** The database file; every table lists its rows in insertion order. *)
Record Tables := mkTables {
  transactions : list Transaction;
  schedules : list Schedule;
  journal_entries : list JournalEntry;
  chat_messages : list ChatMessage }.

Definition empty_tables : Tables := mkTables [] [] [] [].

(** [private db: SQLiteDatabase | null] and [private initialized]. *)
Record Service := mkService { db : option Tables; initialized : bool }.

Definition fresh_service : Service := mkService None false.

(** The driver can reject any statement. [faults k] is the failure, if any,
    of the [k]-th statement an operation issues. *)
Definition Faults := nat -> option string.
Definition no_faults : Faults := fun _ => None.

Definition not_initialized : string := "Database not initialized".

(** Texts of SQLite itself; nothing below depends on their wording. *)
Definition unique_failed (table : string) : string :=
  ("UNIQUE constraint failed: " ++ table ++ ".id")%string.
Definition not_null_failed (column : string) : string :=
  ("NOT NULL constraint failed: " ++ column)%string.
Definition invalid_time : string := "Invalid time value".

(** A value bound to a [NOT NULL] column; [undefined] is rejected. *)
Definition required {A} (column : string) (v : option A) : outcome A :=
  match v with
  | Some a => Return a
  | None => Throw (not_null_failed column)
  end.

(** A number bound to a [REAL] column: SQLite stores NaN as NULL. *)
Definition bound_real (v : option float) : option float :=
  match v with
  | Some x => if is_nan x then None else Some x
  | None => None
  end.

(** [INSERT INTO table ...] under the [id TEXT PRIMARY KEY] constraint. *)
Definition insert_row {R} (table : string) (id_of : R -> string)
    (fault : option string) (row : R) (rows : list R) : outcome (list R) :=
  match fault with
  | Some e => Throw e
  | None =>
      if bool_decide (id_of row ∈ id_of <$> rows)
      then Throw (unique_failed table)
      else Return (rows ++ [row])
  end.

(** [DELETE FROM table WHERE id = ?] *)
Definition delete_row {R} (id_of : R -> string) (fault : option string)
    (id : string) (rows : list R) : outcome (list R) :=
  match fault with
  | Some e => Throw e
  | None => Return (filter (fun r => id_of r <> id) rows)
  end.

(** [SELECT * FROM table ORDER BY col DESC] and [... ASC]. *)
Definition desc {R} (col : R -> Z) (a b : R) : Prop := col b <= col a.
Definition asc {R} (col : R -> Z) (a b : R) : Prop := col a <= col b.

#[global] Instance desc_dec {R} (col : R -> Z) : RelDecision (desc col) :=
  fun a b => decide (col b <= col a).
#[global] Instance asc_dec {R} (col : R -> Z) : RelDecision (asc col) :=
  fun a b => decide (col a <= col b).

Definition order_desc {R} (col : R -> Z) (rows : list R) : list R :=
  merge_sort (desc col) rows.
Definition order_asc {R} (col : R -> Z) (rows : list R) : list R :=
  merge_sort (asc col) rows.

Definition select_all {R} (fault : option string) (ordered : list R) : outcome (list R) :=
  match fault with
  | Some e => Throw e
  | None => Return ordered
  end.

(** [init()]: open the file [disk] and create the tables if missing. *)
Definition init (faults : Faults) (disk : Tables) (svc : Service)
  : outcome unit * Service :=
  if initialized svc then (Return tt, svc)
  else match faults 0%nat with
       | Some e => (Throw e, svc)
       | None =>
           let svc := mkService (Some disk) (initialized svc) in
           match faults 1%nat with
           | Some e => (Throw e, svc)
           | None => (Return tt, mkService (db svc) true)
           end
       end.

(** *** Transactions *)

Record NewTransaction := mkNewTransaction {
  nt_amount : option float; nt_type : option string;
  nt_category : option string; nt_description : option string; nt_date : Z }.

Definition transaction_row (id : string) (t : NewTransaction) : outcome Transaction :=
  match required "transactions.amount" (bound_real (nt_amount t)) with
  | Throw e => Throw e
  | Return amount =>
  match required "transactions.type" (nt_type t) with
  | Throw e => Throw e
  | Return type =>
  match required "transactions.category" (nt_category t) with
  | Throw e => Throw e
  | Return category =>
      Return (mkTransaction id amount type category
                (default "" (nt_description t)) (nt_date t))
  end end end.

Definition addTransaction (faults : Faults) (now : Z) (transaction : NewTransaction)
    (svc : Service) : outcome string * Service :=
  match db svc with
  | None => (Throw not_initialized, svc)
  | Some tb =>
      let id := pretty now in
      match faults 0%nat, transaction_row id transaction with
      | Some e, _ => (Throw e, svc)
      | None, Throw e => (Throw e, svc)
      | None, Return row =>
          match insert_row "transactions" tx_id None row (transactions tb) with
          | Throw e => (Throw e, svc)
          | Return rows =>
              (Return id,
               mkService (Some (mkTables rows (schedules tb) (journal_entries tb)
                                         (chat_messages tb))) (initialized svc))
          end
      end
  end.

Definition getTransactions (faults : Faults) (svc : Service)
  : outcome (list Transaction) :=
  match db svc with
  | None => Throw not_initialized
  | Some tb =>
      match select_all (faults 0%nat) (order_desc tx_date (transactions tb)) with
      | Return result => Return result
      | Throw _ => Return []
      end
  end.

Definition deleteTransaction (faults : Faults) (id : string) (svc : Service)
  : outcome unit * Service :=
  match db svc with
  | None => (Throw not_initialized, svc)
  | Some tb =>
      match delete_row tx_id (faults 0%nat) id (transactions tb) with
      | Throw e => (Throw e, svc)
      | Return rows =>
          (Return tt,
           mkService (Some (mkTables rows (schedules tb) (journal_entries tb)
                                     (chat_messages tb))) (initialized svc))
      end
  end.

(** *** Schedules *)

(** [date] is a [Date] object; [None] is the invalid date, on which
    [toISOString] throws. *)
Record NewSchedule := mkNewSchedule {
  ns_title : option string; ns_description : option string;
  ns_date : option Z; ns_time : option string; ns_reminder : option Z }.

(** [schedule.reminder || 0] *)
Definition reminder_or_zero (r : option Z) : Z :=
  match r with
  | Some n => n
  | None => 0
  end.

Definition schedule_row (id : string) (date : Z) (s : NewSchedule) : outcome Schedule :=
  match required "schedules.title" (ns_title s) with
  | Throw e => Throw e
  | Return title =>
  match required "schedules.time" (ns_time s) with
  | Throw e => Throw e
  | Return time =>
      Return (mkSchedule id title (default "" (ns_description s)) date time
                (reminder_or_zero (ns_reminder s)))
  end end.

Definition addSchedule (faults : Faults) (now : Z) (schedule : NewSchedule)
    (svc : Service) : outcome string * Service :=
  match db svc with
  | None => (Throw not_initialized, svc)
  | Some tb =>
      let id := pretty now in
      match ns_date schedule with
      | None => (Throw invalid_time, svc)
      | Some date =>
      match faults 0%nat, schedule_row id date schedule with
      | Some e, _ => (Throw e, svc)
      | None, Throw e => (Throw e, svc)
      | None, Return row =>
          match insert_row "schedules" sc_id None row (schedules tb) with
          | Throw e => (Throw e, svc)
          | Return rows =>
              (Return id,
               mkService (Some (mkTables (transactions tb) rows (journal_entries tb)
                                         (chat_messages tb))) (initialized svc))
          end
      end end
  end.

Definition getSchedules (faults : Faults) (svc : Service)
  : outcome (list Schedule) :=
  match db svc with
  | None => Throw not_initialized
  | Some tb =>
      match select_all (faults 0%nat) (order_asc sc_date (schedules tb)) with
      | Return result => Return result
      | Throw _ => Return []
      end
  end.

Definition deleteSchedule (faults : Faults) (id : string) (svc : Service)
  : outcome unit * Service :=
  match db svc with
  | None => (Throw not_initialized, svc)
  | Some tb =>
      match delete_row sc_id (faults 0%nat) id (schedules tb) with
      | Throw e => (Throw e, svc)
      | Return rows =>
          (Return tt,
           mkService (Some (mkTables (transactions tb) rows (journal_entries tb)
                                     (chat_messages tb))) (initialized svc))
      end
  end.

(** *** Journal entries *)

Record NewJournalEntry := mkNewJournalEntry {
  nj_content : option string; nj_mood : option string; nj_date : Z }.

Definition journal_row (id : string) (e : NewJournalEntry) : outcome JournalEntry :=
  match required "journal_entries.content" (nj_content e) with
  | Throw err => Throw err
  | Return content =>
  match required "journal_entries.mood" (nj_mood e) with
  | Throw err => Throw err
  | Return mood => Return (mkJournalEntry id content mood (nj_date e))
  end end.

Definition addJournalEntry (faults : Faults) (now : Z) (entry : NewJournalEntry)
    (svc : Service) : outcome string * Service :=
  match db svc with
  | None => (Throw not_initialized, svc)
  | Some tb =>
      let id := pretty now in
      match faults 0%nat, journal_row id entry with
      | Some e, _ => (Throw e, svc)
      | None, Throw e => (Throw e, svc)
      | None, Return row =>
          match insert_row "journal_entries" je_id None row (journal_entries tb) with
          | Throw e => (Throw e, svc)
          | Return rows =>
              (Return id,
               mkService (Some (mkTables (transactions tb) (schedules tb) rows
                                         (chat_messages tb))) (initialized svc))
          end
      end
  end.

Definition getJournalEntries (faults : Faults) (svc : Service)
  : outcome (list JournalEntry) :=
  match db svc with
  | None => Throw not_initialized
  | Some tb =>
      match select_all (faults 0%nat) (order_desc je_date (journal_entries tb)) with
      | Return result => Return result
      | Throw _ => Return []
      end
  end.

Definition deleteJournalEntry (faults : Faults) (id : string) (svc : Service)
  : outcome unit * Service :=
  match db svc with
  | None => (Throw not_initialized, svc)
  | Some tb =>
      match delete_row je_id (faults 0%nat) id (journal_entries tb) with
      | Throw e => (Throw e, svc)
      | Return rows =>
          (Return tt,
           mkService (Some (mkTables (transactions tb) (schedules tb) rows
                                     (chat_messages tb))) (initialized svc))
      end
  end.

(** *** Chat messages *)

Definition retention : nat := 100.

(** [SELECT id FROM chat_messages ORDER BY timestamp DESC LIMIT 100] *)
Definition newest_ids (rows : list ChatMessage) : list string :=
  cm_id <$> take retention (order_desc cm_timestamp rows).

(** [DELETE FROM chat_messages WHERE id NOT IN (...)]: "Keep only last 100
    messages". *)
Definition trim (rows : list ChatMessage) : list ChatMessage :=
  filter (fun r => cm_id r ∈ newest_ids rows) rows.

(** The insert and the trim are two statements, awaited one after the
    other inside one [try]; a failure of either is rethrown. *)
Definition addChatMessage (faults : Faults) (message : ChatMessage) (svc : Service)
  : outcome unit * Service :=
  match db svc with
  | None => (Throw not_initialized, svc)
  | Some tb =>
      let row := mkChatMessage (cm_id message) (cm_text message) (cm_isUser message)
                   (cm_timestamp message) (cm_persona message) in
      match insert_row "chat_messages" cm_id (faults 0%nat) row (chat_messages tb) with
      | Throw e => (Throw e, svc)
      | Return rows =>
          let inserted := mkService (Some (mkTables (transactions tb) (schedules tb)
                                             (journal_entries tb) rows))
                                    (initialized svc) in
          match faults 1%nat with
          | Some e => (Throw e, inserted)
          | None =>
              (Return tt,
               mkService (Some (mkTables (transactions tb) (schedules tb)
                                         (journal_entries tb) (trim rows)))
                         (initialized svc))
          end
      end
  end.

Definition getChatMessages (faults : Faults) (svc : Service)
  : outcome (list ChatMessage) :=
  match db svc with
  | None => Throw not_initialized
  | Some tb =>
      match select_all (faults 0%nat)
              (take retention (order_desc cm_timestamp (chat_messages tb))) with
      | Return result => Return result
      | Throw _ => Return []
      end
  end.

(** [execAsync] runs the four [DELETE] statements one after the other,
    outside any transaction: a statement that fails ends the batch, and
    the tables emptied before it stay empty. *)
Definition clearAllData (faults : Faults) (svc : Service) : outcome unit * Service :=
  match db svc with
  | None => (Throw not_initialized, svc)
  | Some tb =>
      let holding tb := mkService (Some tb) (initialized svc) in
      match faults 0%nat with
      | Some e => (Throw e, svc)
      | None =>
      let tb := mkTables [] (schedules tb) (journal_entries tb) (chat_messages tb) in
      match faults 1%nat with
      | Some e => (Throw e, holding tb)
      | None =>
      let tb := mkTables (transactions tb) [] (journal_entries tb) (chat_messages tb) in
      match faults 2%nat with
      | Some e => (Throw e, holding tb)
      | None =>
      let tb := mkTables (transactions tb) (schedules tb) [] (chat_messages tb) in
      match faults 3%nat with
      | Some e => (Throw e, holding tb)
      | None =>
          (Return tt,
           holding (mkTables (transactions tb) (schedules tb) (journal_entries tb) []))
      end end end end
  end.

(** The messages held by the store, in insertion order. *)
Definition stored_messages (svc : Service) : list ChatMessage :=
  match db svc with
  | Some tb => chat_messages tb
  | None => []
  end.

End Database.

(** ** The orchestrator and its governor: [services/geminiService.ts] *)

Module Gemini.
Import Js History Database.

(** *** Tool calls *)

(** [call.args], read through the parameters the tool declarations name;
    [None] is a property the model left out ([undefined]). *)
Record Args := mkArgs {
  arg_type : option string; arg_amount : option float; arg_category : option string;
  arg_description : option string; arg_title : option string;
  arg_date : option string; arg_time : option string; arg_duration : option Z;
  arg_content : option string; arg_mood : option string;
  arg_period : option string; arg_query : option string }.

Definition no_args : Args :=
  mkArgs None None None None None None None None None None None None.

Record FunctionCall := mkCall { call_name : string; call_args : Args }.

(** [type: 'transaction' | 'schedule' | 'journal' | 'quote' | 'search' | 'none'] *)
Inductive ActionType :=
| kind_transaction | kind_schedule | kind_journal | kind_quote | kind_search | kind_none.

Record AgenticAction := mkAction {
  action_type : ActionType; action_data : Args; action_executed : bool }.

(** [{ result: ... }]. The three summaries are [JSON.stringify] of an
    object in the source; the object is kept instead of its text. *)
Inductive ToolResult :=
| Text (s : string)
| Finances (totalIncome totalExpense balance : float) (transactionCount : nat)
| ScheduleSummary (upcomingCount totalSchedules : nat) (sample : list Schedule)
| JournalSummary (totalEntries : nat) (moodCounts : list (string * nat))
    (recentEntries : list JournalEntry).

Record FunctionResponse := mkFunctionResponse {
  response_name : string; response_result : ToolResult }.

(** *** The remote model *)

Inductive Payload :=
| UserMessage (history : list Content) (userMessage : string)
| FunctionResponses (functionResponses : list FunctionResponse)
| Prompt (prompt : string).

Record Request := mkRequest { issued_at : Z; payload : Payload }.

Record Response := mkResponse {
  response_text : string; functionCalls : list FunctionCall }.

(** What the transport answers to one request, after [latency] ms. *)
Record Reply := mkReply { latency : N; body : outcome Response }.

(** A transport that has stopped answering. *)
Definition network_failed : string := "Network request failed".

(** *** State of the service *)

Record Cached := mkCached { cached_text : string; cached_timestamp : Z }.

Record GeminiService := mkGemini {
  lastRequestTime : Z;
  quotaResetTime : Z;
  quoteCache : option Cached;
  searchCache : gmap string Cached }.

Definition new_GeminiService : GeminiService := mkGemini 0 0 None ∅.

Definition minRequestInterval : Z := 3000.
Definition quoteCacheDuration : Z := 3600000.
Definition searchCacheDuration : Z := 1800000.

Definition set_lastRequestTime (t : Z) (g : GeminiService) : GeminiService :=
  mkGemini t (quotaResetTime g) (quoteCache g) (searchCache g).
Definition set_quotaResetTime (t : Z) (g : GeminiService) : GeminiService :=
  mkGemini (lastRequestTime g) t (quoteCache g) (searchCache g).
Definition set_quoteCache (c : option Cached) (g : GeminiService) : GeminiService :=
  mkGemini (lastRequestTime g) (quotaResetTime g) c (searchCache g).
Definition set_searchCache (m : gmap string Cached) (g : GeminiService) : GeminiService :=
  mkGemini (lastRequestTime g) (quotaResetTime g) (quoteCache g) m.

(** *** Suspension

    An [async] method runs until it returns or reaches
    [await new Promise(resolve => setTimeout(resolve, ms))]. [Sleep g ms k]
    leaves the service in state [g]; after [ms] milliseconds [k] resumes on
    the service as it is then and the value of [Date.now()] then. *)
Inductive Async (A : Type) : Type :=
| Done (g : GeminiService) (a : A)
| Sleep (g : GeminiService) (ms : Z) (k : GeminiService -> Z -> Async A).
Arguments Done {A} g a.
Arguments Sleep {A} g ms k.

(** [this.lastRequestTime = Date.now()] *)
Definition stamp (g : GeminiService) (t : Z) : Async unit :=
  Done (set_lastRequestTime t g) tt.

(** The second half of [waitForRateLimit]; [now] is the constant read at
    entry, [t] the current time. *)
Definition spacing (now : Z) (g : GeminiService) (t : Z) : Async unit :=
  let timeSinceLastRequest := now - lastRequestTime g in
  if timeSinceLastRequest <? minRequestInterval then
    let waitTime := minRequestInterval - timeSinceLastRequest in
    Sleep g waitTime stamp
  else stamp g t.

Definition waitForRateLimit (g : GeminiService) (t : Z) : Async unit :=
  let now := t in
  if quotaResetTime g >? now then
    let waitTime := quotaResetTime g - now in
    Sleep g waitTime (fun g' t' => spacing now (set_quotaResetTime 0 g') t')
  else spacing now g t.

(** One caller alone: nothing else touches the service while it sleeps. *)
Fixpoint await_alone {A} (p : Async A) (t : Z) : GeminiService * A * Z :=
  match p with
  | Done g a => (g, a, t)
  | Sleep g ms k => await_alone (k g (t + ms)) (t + ms)
  end.

(** *** The world of one call *)

Record World := mkWorld {
  clock : Z;
  this : GeminiService;
  store : Database.Service;
  driver : Faults;
  generate_replies : list Reply;
  requests : list Request }.

Definition set_this (g : GeminiService) (w : World) : World :=
  mkWorld (clock w) g (store w) (driver w) (generate_replies w) (requests w).
Definition set_store (s : Database.Service) (w : World) : World :=
  mkWorld (clock w) (this w) s (driver w) (generate_replies w) (requests w).

(** [await this.waitForRateLimit()] *)
Definition acquire (w : World) : World :=
  let '(g, _, t) := await_alone (waitForRateLimit (this w) (clock w)) (clock w) in
  mkWorld t g (store w) (driver w) (generate_replies w) (requests w).

(** Sending [p] now and receiving [r]. *)
Definition exchange (p : Payload) (r : option Reply) (w : World)
  : outcome Response * World :=
  let sent := requests w ++ [mkRequest (clock w) p] in
  match r with
  | None =>
      (Throw network_failed,
       mkWorld (clock w) (this w) (store w) (driver w) (generate_replies w) sent)
  | Some reply =>
      (body reply,
       mkWorld (clock w + Z.of_N (latency reply)) (this w) (store w) (driver w)
               (generate_replies w) sent)
  end.

(** [model.generateContent(prompt)] followed by [result.response.text()] *)
Definition generateContent (prompt : string) (w : World) : outcome string * World :=
  let '(r, w') := exchange (Prompt prompt) (head (generate_replies w)) w in
  let w' := mkWorld (clock w') (this w') (store w') (driver w')
                    (tail (generate_replies w)) (requests w') in
  match r with
  | Return response => (Return (response_text response), w')
  | Throw e => (Throw e, w')
  end.

(** *** Daily quote *)

Definition quote_prompt : string :=
  "Generate an inspiring, motivational quote for an Indian user. Make it relevant to personal growth, productivity, or well-being. Keep it concise (1-2 sentences).".

Definition quote_fallback : string := "Every day is a new opportunity to grow. üåü".

Definition quote_cached (g : GeminiService) (t : Z) : option string :=
  match quoteCache g with
  | Some c =>
      if t - cached_timestamp c <? quoteCacheDuration then Some (cached_text c)
      else None
  | None => None
  end.

Definition generateDailyQuote (w : World) : string * World :=
  match quote_cached (this w) (clock w) with
  | Some text => (text, w)
  | None =>
      let w := acquire w in
      match generateContent quote_prompt w with
      | (Return quote, w) =>
          (quote, set_this (set_quoteCache (Some (mkCached quote (clock w))) (this w)) w)
      | (Throw _, w) => (quote_fallback, w)
      end
  end.

(** *** Web search *)

Definition lower (a : Ascii.ascii) : Ascii.ascii :=
  let n := Ascii.nat_of_ascii a in
  if ((65 <=? n) && (n <=? 90))%nat then Ascii.ascii_of_nat (n + 32) else a.

(** [query.toLowerCase()], on the ASCII letters. *)
Fixpoint toLowerCase (s : string) : string :=
  match s with
  | EmptyString => EmptyString
  | String a rest => String (lower a) (toLowerCase rest)
  end.

Definition is_quota_error (errorMsg : string) : bool :=
  includes errorMsg "429" || includes errorMsg "quota"
  || includes errorMsg "RESOURCE_EXHAUSTED".

Definition is_auth_error (errorMsg : string) : bool :=
  includes errorMsg "PERMISSION_DENIED" || includes errorMsg "UNAUTHENTICATED".

Definition search_prompt (query : string) : string :=
  ("Provide information about: " ++ query ++ "
      
Give a brief, factual response with:
1. Key facts
2. Recent developments if applicable
3. Relevant data

Keep it concise (2-3 sentences max).")%string.

Definition search_quota_text : string := "I've hit my search quota. Please wait a couple of minutes before trying again.".
Definition search_failed_text : string :=
  "Unable to search at this moment. Please try again later.".

Definition performWebSearch (query : option string) (w : World) : string * World :=
  match query with
  | None => (search_failed_text, w)
  | Some query =>
      let cacheKey := toLowerCase query in
      let hit :=
        match searchCache (this w) !! cacheKey with
        | Some c =>
            if clock w - cached_timestamp c <? searchCacheDuration
            then Some (cached_text c) else None
        | None => None
        end in
      match hit with
      | Some text => (text, w)
      | None =>
          let w := acquire w in
          match generateContent (search_prompt query) w with
          | (Return text, w) =>
              let cache := <[cacheKey := mkCached text (clock w)]> (searchCache (this w)) in
              (if String.eqb text "" then "No information found." else text,
               set_this (set_searchCache cache (this w)) w)
          | (Throw errorMsg, w) =>
              if is_quota_error errorMsg
              then (search_quota_text,
                    set_this (set_quotaResetTime (clock w + 120000) (this w)) w)
              else (search_failed_text, w)
          end
      end
  end.

(** *** The tool-call round of [sendMessage] *)

Section Orchestrator.

(** [new Date(text)] of the JavaScript runtime: the instant [text] denotes,
    or [None] for the invalid date. *)
Variable Date_parse : string -> option Z.

(** [String(x)] of the JavaScript runtime for a number [x]: the text a
    template literal puts in its place. *)
Variable Number_toString : float -> string.

(** [model.startChat({ history })] of the SDK: it checks the history it is
    given and throws when it rejects it. *)
Variable startChat : list Content -> outcome unit.

(** A value inside a template literal. *)
Definition show_string (v : option string) : string := default "undefined" v.
Definition show_number (v : option float) : string :=
  match v with
  | Some n => Number_toString n
  | None => "undefined"
  end.

(** [.filter(t => t.type === kind).reduce((sum, t) => sum + t.amount, 0)] *)
Definition total (kind : string) (transactions : list Transaction) : float :=
  fold_left (fun sum t => (sum + tx_amount t)%float)
            (filter (fun t => tx_type t = kind) transactions) 0%float.

(** [acc[entry.mood] = (acc[entry.mood] || 0) + 1] *)
Fixpoint count_mood (mood : string) (acc : list (string * nat)) : list (string * nat) :=
  match acc with
  | [] => [(mood, 1%nat)]
  | (m, n) :: rest =>
      if String.eqb m mood then (m, S n) :: rest else (m, n) :: count_mood mood rest
  end.

Definition moodCounts_of (journals : list JournalEntry) : list (string * nat) :=
  fold_left (fun acc entry => count_mood (je_mood entry) acc) journals [].

(** The [switch (call.name)] inside the [try]. [Throw] is an exception
    leaving the case for the [catch] around the switch. *)
Definition handle (call : FunctionCall) (executedActions : list AgenticAction)
    (w : World) : outcome ToolResult * list AgenticAction * World :=
  let args := call_args call in
  if String.eqb (call_name call) "logTransaction" then
    match addTransaction (driver w) (clock w)
            (mkNewTransaction (arg_amount args) (arg_type args) (arg_category args)
                              (arg_description args) (clock w)) (store w) with
    | (Throw e, s) => (Throw e, executedActions, set_store s w)
    | (Return _, s) =>
        (Return (Text ("Transaction logged: ‚Çπ" ++ show_number (arg_amount args)
                       ++ " for " ++ show_string (arg_category args))%string),
         executedActions ++ [mkAction kind_transaction args true],
         set_store s w)
    end
  else if String.eqb (call_name call) "scheduleMeeting" then
    let scheduleDate := arg_date args ≫= Date_parse in
    match addSchedule (driver w) (clock w)
            (mkNewSchedule (arg_title args) (Some (default "" (arg_description args)))
                           scheduleDate (arg_time args) (Some 15)) (store w) with
    | (Throw e, s) => (Throw e, executedActions, set_store s w)
    | (Return _, s) =>
        (Return (Text ("Meeting scheduled: " ++ show_string (arg_title args) ++ " on "
                       ++ show_string (arg_date args) ++ " at "
                       ++ show_string (arg_time args))%string),
         executedActions ++ [mkAction kind_schedule args true],
         set_store s w)
    end
  else if String.eqb (call_name call) "addJournalEntry" then
    match addJournalEntry (driver w) (clock w)
            (mkNewJournalEntry (arg_content args) (arg_mood args) (clock w)) (store w) with
    | (Throw e, s) => (Throw e, executedActions, set_store s w)
    | (Return _, s) =>
        (Return (Text ("Journal entry saved with " ++ show_string (arg_mood args)
                       ++ " mood")%string),
         executedActions ++ [mkAction kind_journal args true],
         set_store s w)
    end
  else if String.eqb (call_name call) "getDailyQuote" then
    let '(quote, w) := generateDailyQuote w in
    (Return (Text quote), executedActions, w)
  else if String.eqb (call_name call) "getUserFinances" then
    match getTransactions (driver w) (store w) with
    | Throw e => (Throw e, executedActions, w)
    | Return transactions =>
        let totalIncome := total "income" transactions in
        let totalExpense := total "expense" transactions in
        (Return (Finances totalIncome totalExpense (totalIncome - totalExpense)%float
                          (length transactions)),
         executedActions, w)
    end
  else if String.eqb (call_name call) "getUserSchedule" then
    match getSchedules (driver w) (store w) with
    | Throw e => (Throw e, executedActions, w)
    | Return schedules =>
        (Return (ScheduleSummary
                   (length (filter (fun s => clock w < sc_date s) schedules))
                   (length schedules) (take 5 schedules)),
         executedActions, w)
    end
  else if String.eqb (call_name call) "getUserJournals" then
    match getJournalEntries (driver w) (store w) with
    | Throw e => (Throw e, executedActions, w)
    | Return journals =>
        (Return (JournalSummary (length journals) (moodCounts_of journals)
                                (take 3 journals)),
         executedActions, w)
    end
  else if String.eqb (call_name call) "searchWeb" then
    let '(searchResults, w) := performWebSearch (arg_query args) w in
    (Return (Text searchResults), executedActions, w)
  else (Return (Text "Unknown function"), executedActions, w).

(** The body of [functionCalls.map(async (call) => ...)] for one call. *)
Definition execute (call : FunctionCall) (executedActions : list AgenticAction)
    (w : World) : FunctionResponse * list AgenticAction * World :=
  match handle call executedActions w with
  | (Return result, executedActions, w) =>
      (mkFunctionResponse (call_name call) result, executedActions, w)
  | (Throw message, executedActions, w) =>
      (mkFunctionResponse (call_name call) (Text ("Error: " ++ message)%string),
       executedActions, w)
  end.

(** [await Promise.all(functionCalls.map(...))]. The handlers are started
    in the order of the calls and their results are collected in that
    order; they are run here one after the other. *)
Fixpoint round (calls : list FunctionCall) (executedActions : list AgenticAction)
    (w : World) : list FunctionResponse * list AgenticAction * World :=
  match calls with
  | [] => ([], executedActions, w)
  | call :: rest =>
      let '(r, executedActions, w) := execute call executedActions w in
      let '(rs, executedActions, w) := round rest executedActions w in
      (r :: rs, executedActions, w)
  end.

(** [chat.sendMessage(message)] and the [while] loop after it. [session]
    lists the replies this chat will receive, in order; when it runs out
    the transport has stopped answering. The actions gathered so far are
    returned beside the outcome. *)
Fixpoint converse (session : list Reply) (message : Payload)
    (executedActions : list AgenticAction) (w : World)
  : outcome string * list AgenticAction * World :=
  match session with
  | [] =>
      let '(_, w) := exchange message None w in
      (Throw network_failed, executedActions, w)
  | reply :: session =>
      match exchange message (Some reply) w with
      | (Throw e, w) => (Throw e, executedActions, w)
      | (Return response, w) =>
          match functionCalls response with
          | [] => (Return (response_text response), executedActions, w)
          | calls =>
              let '(functionResponses, executedActions, w) :=
                round calls executedActions w in
              converse session (FunctionResponses functionResponses) executedActions w
          end
      end
  end.

Record Answer := mkAnswer { answer_text : string; actions : list AgenticAction }.

Definition quota_text : string := "‚è≥ I've hit my API quota. Please wait about a minute before trying again. This helps me manage my usage limits.".
Definition key_text : string := "üîë There's an issue with my API key. Please check that your EXPO_PUBLIC_GEMINI_API_KEY is set correctly in the .env file.".
Definition apology (errorMsg : string) : string :=
  ("I apologize, but I encountered an error: " ++ substring0 100 errorMsg
   ++ ". Please try again.")%string.

(** The [catch (err)] of [sendMessage]. *)
Definition on_error (errorMsg : string) (w : World) : Answer * World :=
  if is_quota_error errorMsg then
    (mkAnswer quota_text [],
     set_this (set_quotaResetTime (clock w + 60000) (this w)) w)
  else if is_auth_error errorMsg then (mkAnswer key_text [], w)
  else (mkAnswer (apology errorMsg) [], w).

(** The body of the [try] of [sendMessage]: the rate limit, the history,
    [startChat], then the chat. An exception leaves it with the actions
    gathered so far. *)
Definition attempt (session : list Reply) (userMessage : string)
    (conversationHistory : list Content) (w : World)
  : outcome string * list AgenticAction * World :=
  let w := acquire w in
  let validHistory := normalizeHistory conversationHistory in
  match startChat validHistory with
  | Throw e => (Throw e, [], w)
  | Return _ => converse session (UserMessage validHistory userMessage) [] w
  end.

(** [persona] only selects the system instruction sent along. *)
Definition sendMessage (session : list Reply) (userMessage persona : string)
    (conversationHistory : list Content) (w : World) : Answer * World :=
  match attempt session userMessage conversationHistory w with
  | (Return text, executedActions, w) => (mkAnswer text executedActions, w)
  | (Throw errorMsg, _, w) => on_error errorMsg w
  end.

End Orchestrator.


(** The same arguments with another [period], or another [duration]. *)
Definition set_period (p : option string) (a : Args) : Args :=
  mkArgs (arg_type a) (arg_amount a) (arg_category a) (arg_description a)
         (arg_title a) (arg_date a) (arg_time a) (arg_duration a)
         (arg_content a) (arg_mood a) p (arg_query a).
Definition set_duration (d : option Z) (a : Args) : Args :=
  mkArgs (arg_type a) (arg_amount a) (arg_category a) (arg_description a)
         (arg_title a) (arg_date a) (arg_time a) d
         (arg_content a) (arg_mood a) (arg_period a) (arg_query a).

(** Every row of [s] is still in [s'], in place: tables only grew at
    their end. *)
Definition rows_kept (s s' : Database.Service) : Prop :=
  match db s, db s' with
  | Some tb, Some tb' =>
      transactions tb `prefix_of` transactions tb'
      /\ schedules tb `prefix_of` schedules tb'
      /\ journal_entries tb `prefix_of` journal_entries tb'
      /\ chat_messages tb = chat_messages tb'
  | None, None => True
  | _, _ => False
  end.

(** The instant at which [waitForRateLimit], entered at [t] on [g] by a
    single caller, returns. *)
Definition permit_time (g : GeminiService) (t : Z) : Z :=
  (await_alone (waitForRateLimit g t) t).2.

End Gemini.

(** ** Several callers of [waitForRateLimit] on one event loop

    JavaScript runs one task at a time; a caller gives way only at its
    [await]. Calls arrive at given instants; a timer set for [ms]
    milliseconds fires [ms] after it was set, timers due at the same
    instant fire in the order they were set, and a timer due no later than
    an arrival fires before it. [sendMessage] issues its request as soon as
    [waitForRateLimit] returns. No method of the service calls
    [queueRequest] or [processQueue]; they take no part in what follows. *)

Module EventLoop.
Import Gemini.

Record Timer := mkTimer {
  due : Z; caller : nat; resume : GeminiService -> Z -> Async unit }.

Record Loop := mkLoop {
  service : GeminiService;
  timers : list Timer;
  (** caller and instant of every completed [waitForRateLimit], in order *)
  permits : list (nat * Z) }.

(** A caller has run up to [p] at time [t]. *)
Definition settle (who : nat) (t : Z) (p : Async unit) (l : Loop) : Loop :=
  match p with
  | Done g _ => mkLoop g (timers l) (permits l ++ [(who, t)])
  | Sleep g ms k => mkLoop g (timers l ++ [mkTimer (t + ms) who k]) (permits l)
  end.

(** The timer to fire next, and the timers left. *)
Fixpoint pop_earliest (ts : list Timer) : option (Timer * list Timer) :=
  match ts with
  | [] => None
  | t :: rest =>
      match pop_earliest rest with
      | None => Some (t, [])
      | Some (m, rest') =>
          if due t <=? due m then Some (t, rest) else Some (m, t :: rest')
      end
  end.

Definition fire (tm : Timer) (rest : list Timer) (l : Loop) : Loop :=
  settle (caller tm) (due tm) (resume tm (service l) (due tm))
         (mkLoop (service l) rest (permits l)).

Definition arrive (who : nat) (t : Z) (l : Loop) : Loop :=
  settle who t (waitForRateLimit (service l) t) l.

(** [arrivals] are the instants of the calls, in call order. *)
Fixpoint run (fuel : nat) (next : nat) (arrivals : list Z) (l : Loop) : Loop :=
  match fuel with
  | O => l
  | S fuel =>
      match pop_earliest (timers l), arrivals with
      | None, [] => l
      | Some (tm, rest), [] => run fuel next [] (fire tm rest l)
      | None, t :: later => run fuel (S next) later (arrive next t l)
      | Some (tm, rest), t :: later =>
          if due tm <=? t then run fuel next arrivals (fire tm rest l)
          else run fuel (S next) later (arrive next t l)
      end
  end.

(** Every caller arrives once and sleeps at most twice. *)
Definition issue_order (g : GeminiService) (arrivals : list Z) : list (nat * Z) :=
  permits (run (3 * length arrivals) 0 arrivals (mkLoop g [] [])).

(** Consecutive requests are at least [minRequestInterval] apart. *)
Fixpoint spaced (times : list Z) : bool :=
  match times with
  | t1 :: ((t2 :: _) as rest) => (minRequestInterval <=? t2 - t1) && spaced rest
  | _ => true
  end.

(** Requests go out in the order of the calls. *)
Definition fifo (order : list (nat * Z)) : bool :=
  bool_decide (map fst order = seq 0 (length order)).

End EventLoop.

(** ** The insight generators of [services/geminiService.ts]

    [analyzeFinancialHealth], [analyzeMoodTrends] and [getScheduleInsights].
    Their arguments are the lists the insights screen reads from the store.
    Objects built by [reduce] list their keys in the order of first
    assignment; categories and moods are taken to be ordinary words (not
    array indices, not member names of [Object.prototype]). Strings are
    sequences of bytes; [substring] counts bytes. *)

Module Insights.
Import Js Database Gemini.

(** *** [JSON.stringify] of an object of numbers, and [Array.join] *)

Definition dquote : string := String (Ascii.ascii_of_nat 34) "".
Definition newline : string := String (Ascii.ascii_of_nat 10) "".

Definition hex_digit (n : nat) : string := String.substring n 1 "0123456789abcdef".

(** One character inside a JSON string. *)
Definition escape (a : Ascii.ascii) : string :=
  let n := Ascii.nat_of_ascii a in
  if (n =? 34)%nat then ("\" ++ dquote)%string
  else if (n =? 92)%nat then "\\"
  else if (n =? 8)%nat then "\b"
  else if (n =? 9)%nat then "\t"
  else if (n =? 10)%nat then "\n"
  else if (n =? 12)%nat then "\f"
  else if (n =? 13)%nat then "\r"
  else if (n <? 32)%nat then ("\u00" ++ hex_digit (n / 16) ++ hex_digit (n mod 16))%string
  else String a "".

Fixpoint escape_all (s : string) : string :=
  match s with
  | EmptyString => EmptyString
  | String a rest => (escape a ++ escape_all rest)%string
  end.

Definition json_string (s : string) : string :=
  (dquote ++ escape_all s ++ dquote)%string.

(** [parts.join(sep)] *)
Fixpoint join (sep : string) (parts : list string) : string :=
  match parts with
  | [] => ""
  | [x] => x
  | x :: rest => (x ++ sep ++ join sep rest)%string
  end.

(** [JSON.stringify] of an object whose values are written by [show]. *)
Definition json_object {N} (show : N -> string) (o : list (string * N)) : string :=
  ("{" ++ join "," (map (fun kv => (json_string kv.1 ++ ":" ++ show kv.2)%string) o)
   ++ "}")%string.

(** *** [analyzeFinancialHealth] *)

(** [v || 0] for a number [v]: NaN and the two zeros are falsy. *)
Definition or_zero (v : float) : float :=
  if is_nan v || is_zero v then 0%float else v.

(** [acc[t.category] = (acc[t.category] || 0) + t.amount] *)
Fixpoint add_amount (category : string) (amount : float) (acc : list (string * float))
  : list (string * float) :=
  match acc with
  | [] => [(category, (0 + amount)%float)]
  | (c, v) :: rest =>
      if String.eqb c category then (c, (or_zero v + amount)%float) :: rest
      else (c, v) :: add_amount category amount rest
  end.

Definition categoryBreakdown_of (transactions : list Transaction)
  : list (string * float) :=
  fold_left (fun acc t => add_amount (tx_category t) (tx_amount t) acc)
            (filter (fun t => tx_type t = "expense") transactions) [].

Section Amounts.

(** [String(x)] of the runtime, as in the orchestrator. *)
Variable Number_toString : float -> string.

(** A number inside [JSON.stringify]: NaN and the infinities are written
    [null]. *)
Definition json_number (x : float) : string :=
  if is_finite x then Number_toString x else "null".

Definition financial_prompt (transactions : list Transaction) : string :=
  let totalIncome := total "income" transactions in
  let totalExpense := total "expense" transactions in
  let categoryBreakdown := categoryBreakdown_of transactions in
  ("Analyze this financial data and provide insights:
      
Total Income: ‚Çπ" ++ Number_toString totalIncome
   ++ "
Total Expense: ‚Çπ" ++ Number_toString totalExpense
   ++ "
Balance: ‚Çπ" ++ Number_toString (totalIncome - totalExpense)%float
   ++ "
Category Breakdown: " ++ json_object json_number categoryBreakdown
   ++ "

Provide 2-3 actionable financial insights for an Indian user. Be concise and practical.")%string.

Definition financial_fallback : string := "Keep tracking your expenses to get better insights!".

Definition analyzeFinancialHealth (transactions : list Transaction) (w : World)
  : string * World :=
  let w := acquire w in
  match generateContent (financial_prompt transactions) w with
  | (Return text, w) => (text, w)
  | (Throw _, w) => (financial_fallback, w)
  end.

End Amounts.

(** *** [analyzeMoodTrends] *)

Definition mood_prompt (journalEntries : list JournalEntry) : string :=
  let moodCounts := moodCounts_of journalEntries in
  let recentEntries := take 5 journalEntries in
  ("Analyze this mood tracking data and provide wellness insights:
      
Mood Distribution: " ++ json_object (fun n => pretty (Z.of_nat n)) moodCounts
   ++ "
Recent Entries: "
   ++ join newline (map (fun e => (je_mood e ++ ": " ++ substring0 50 (je_content e))%string)
                        recentEntries)
   ++ "

Provide 2-3 supportive wellness insights for an Indian user. Be empathetic and encouraging.")%string.

Definition mood_fallback : string := "Keep journaling to track your emotional well-being!".

Definition analyzeMoodTrends (journalEntries : list JournalEntry) (w : World)
  : string * World :=
  let w := acquire w in
  match generateContent (mood_prompt journalEntries) w with
  | (Return text, w) => (text, w)
  | (Throw _, w) => (mood_fallback, w)
  end.

(** *** [getScheduleInsights] *)

Definition week : Z := 7 * 24 * 60 * 60 * 1000.

(** [now] is the value of [new Date()] when the lists are filtered. *)
Definition schedule_prompt (now : Z) (schedules : list Schedule) : string :=
  let upcomingCount := length (filter (fun s => now < sc_date s) schedules) in
  let thisWeek :=
    filter (fun s => now < sc_date s /\ sc_date s < now + week) schedules in
  ("Provide schedule management insights:
      
Upcoming Events: " ++ pretty upcomingCount
   ++ "
This Week: " ++ pretty (length thisWeek)
   ++ " events
Events: " ++ join ", " (map sc_title (take 5 schedules))
   ++ "

Provide 2-3 brief scheduling tips for better time management. Be practical and actionable.")%string.

Definition schedule_fallback : string := "Stay organized with your schedule!".

Definition getScheduleInsights (schedules : list Schedule) (w : World)
  : string * World :=
  let w := acquire w in
  match generateContent (schedule_prompt (clock w) schedules) w with
  | (Return text, w) => (text, w)
  | (Throw _, w) => (schedule_fallback, w)
  end.

End Insights.

(** ** The chat screen's use of the service: [screens/ChatScreen.tsx] *)

Module ChatScreen.
Import Js History Database Gemini Insights.

(** "Build conversation history for context": [messages] is the screen's
    list, newest first. *)
Definition conversationHistory (messages : list ChatMessage) : list Content :=
  map (fun msg => mkContent (if cm_isUser msg then "user" else "model") (cm_text msg))
      (reverse (take 10 messages)).

Section Lines.

(** [String(x)] of the runtime, as in the orchestrator. *)
Variable Number_toString : float -> string.

(** The line pushed for one action, if any. *)
Definition confirmation (action : AgenticAction) : option string :=
  if action_executed action then
    match action_type action with
    | kind_transaction =>
        Some ("✅ Added " ++ show_string (arg_type (action_data action))
              ++ ": ₹" ++ show_number Number_toString (arg_amount (action_data action))
              ++ " for " ++ show_string (arg_category (action_data action))
              ++ "")%string
    | kind_schedule =>
        Some ("📅 Created schedule: " ++ show_string (arg_title (action_data action)) ++ "")%string
    | kind_journal =>
        Some ("📔 Added journal entry with " ++ show_string (arg_mood (action_data action)) ++ " mood")%string
    | _ => None
    end
  else None.

Definition confirmations (actions : list AgenticAction) : list string :=
  omap confirmation actions.

(** "Build response with action confirmations" *)
Definition responseText (aiResponse : string) (actions : list AgenticAction) : string :=
  match confirmations actions with
  | [] => aiResponse
  | lines => (aiResponse ++ newline ++ newline ++ join newline lines)%string
  end.

End Lines.

End ChatScreen.

(** ** Sample data for the worked examples *)

Module Samples.
Import Js Database Gemini.

(** A store holding a hundred chat messages with timestamps 0 to 99. *)
Definition hundred_messages : list ChatMessage :=
  map (fun i => mkChatMessage (pretty (Z.of_nat i)) "hello" (Nat.even i)
                              (Z.of_nat i) "GENERAL") (seq 0 100).

Definition full_store : Service :=
  mkService (Some (mkTables [] [] [] hundred_messages)) true.

Definition newest_message : ChatMessage :=
  mkChatMessage "100" "one more" true 100 "GENERAL".

Definition io_error : Faults := fun _ => Some "disk I/O error".

(** A driver that rejects the second statement of an operation. *)
Definition second_fails : Faults :=
  fun k => if (k =? 1)%nat then Some "disk I/O error" else None.

Definition lunch : Transaction :=
  mkTransaction "1" 250 "expense" "Food" "lunch" 0.

Definition one_transaction : Service :=
  mkService (Some (mkTables [lunch] [] [] [])) true.

(** A service that has never called out, at some instant of 2023. *)
Definition morning : Z := 1700000000000.

Definition quiet_world (s : Service) (replies : list Reply) : World :=
  mkWorld morning new_GeminiService s no_faults replies [].

Definition a_quote : Reply :=
  mkReply 400 (Return (mkResponse "Rise with the sun." [])).

Definition advance (ms : Z) (w : World) : World :=
  mkWorld (clock w + ms) (this w) (store w) (driver w) (generate_replies w)
          (requests w).

(** A runtime that reads one date. 2025-03-14T00:00:00Z. *)
Definition one_date (text : string) : option Z :=
  if String.eqb text "2025-03-14" then Some 1741910400000 else None.

(** A runtime that writes the amounts of the examples. *)
Definition few_numbers (x : float) : string :=
  if (x =? 250)%float then "250"
  else if (x =? 90)%float then "90"
  else if (x =? 50000)%float then "50000"
  else "NaN".

(** An SDK that accepts the empty history and a history whose first turn
    is a user turn, and rejects any other. *)
Definition user_first (history : list History.Content) : outcome unit :=
  match history with
  | [] => Return tt
  | first :: _ =>
      if String.eqb (History.role first) "user" then Return tt
      else Throw ("[GoogleGenerativeAI Error]: First content should be with role 'user', got "
                  ++ History.role first)%string
  end.

Definition open_store : Service := mkService (Some empty_tables) true.

Definition lunch_args : Args :=
  mkArgs (Some "expense") (Some 250%float) (Some "Food") (Some "lunch")
         None None None None None None None None.

Definition standup_args : Args :=
  mkArgs None None None None (Some "Standup") (Some "2025-03-14") (Some "09:30")
         (Some 45) None None None None.

(** The model asks for a transaction to be logged. *)
Definition asks_to_log : Reply :=
  mkReply 300 (Return (mkResponse "" [mkCall "logTransaction" lunch_args])).

Definition quota_exceeded : Reply :=
  mkReply 120 (Throw "[429 Too Many Requests] You exceeded your current quota").

Definition connection_lost : Reply := mkReply 50 (Throw "socket hang up").

Definition confirms : Reply := mkReply 200 (Return (mkResponse "Logged it." [])).





(** A store whose only transaction dates from 1970. *)
Definition old_lunch_world : World := quiet_world one_transaction [].

End Samples.

(** ** Vocabulary for the properties of the store *)

Module StoreSpec.
Import Js Database.

(** The [PRIMARY KEY] of each table holds. *)
Definition keys_unique (tb : Tables) : Prop :=
  NoDup (tx_id <$> transactions tb)
  /\ NoDup (sc_id <$> schedules tb)
  /\ NoDup (je_id <$> journal_entries tb)
  /\ NoDup (cm_id <$> chat_messages tb).

Definition service_keys_unique (svc : Service) : Prop :=
  match db svc with
  | Some tb => keys_unique tb
  | None => True
  end.

(** More sample data. *)
Definition salary : Transaction :=
  mkTransaction "2" 50000 "income" "Salary" "march" 1000.

Definition two_transactions : Service :=
  mkService (Some (mkTables [Samples.lunch; salary] [] [] [])) true.

Definition new_lunch : NewTransaction :=
  mkNewTransaction (Some 250%float) (Some "expense") (Some "Food") None 1700000000000.

Definition sixty_messages : list ChatMessage := take 60 Samples.hundred_messages.

Definition partial_store : Service :=
  mkService (Some (mkTables [] [] [] sixty_messages)) true.

(** A message older than every message of [Samples.hundred_messages]. *)
Definition ancient_message : ChatMessage :=
  mkChatMessage "ancient" "from before" true (-5) "GENERAL".

End StoreSpec.

(** ** Vocabulary for the properties of the service *)

Module ServiceSpec.
Import Js Database Gemini.

(** An action as the three writing handlers push it. *)
Definition recorded_write (a : AgenticAction) : Prop :=
  action_executed a = true
  /\ (action_type a = kind_transaction \/ action_type a = kind_schedule
      \/ action_type a = kind_journal).

(** [counts[key] || 0] *)
Fixpoint count_of {N} (zero : N) (key : string) (counts : list (string * N)) : N :=
  match counts with
  | [] => zero
  | (k, n) :: rest => if String.eqb k key then n else count_of zero key rest
  end.

(** Numbers added from the left, starting from 0, as [reduce] adds them. *)
Definition sum_in_order (amounts : list float) : float :=
  fold_left PrimFloat.add amounts 0%float.

(** The same with [(acc || 0) + amount] at every step. *)
Definition sum_or_zero (amounts : list float) : float :=
  fold_left (fun v a => (Insights.or_zero v + a)%float) amounts 0%float.

(** The amounts of the rows of one type, and of the expenses of one
    category, in the order of [rows]. *)
Definition amounts_of (kind : string) (rows : list Transaction) : list float :=
  tx_amount <$> filter (fun t => tx_type t = kind) rows.
Definition expenses_of (category : string) (rows : list Transaction) : list float :=
  tx_amount <$> filter (fun t => tx_category t = category)
                       (filter (fun t => tx_type t = "expense") rows).

(** [o[key]] for an object built by [reduce]; [None] is [undefined]. *)
Fixpoint field {N} (key : string) (o : list (string * N)) : option N :=
  match o with
  | [] => None
  | (k, v) :: rest => if String.eqb k key then Some v else field key rest
  end.

(** What [reduce] leaves under a key that held [start] and then received
    [amounts], one after the other. *)
Definition slot (start : option float) (amounts : list float) : option float :=
  match amounts with
  | [] => start
  | _ =>
      Some (fold_left (fun v a => (Insights.or_zero v + a)%float) amounts
                      (default 0%float start))
  end.


(** The search cache has nothing fresh under the key of [query]. *)
Definition search_misses (query : string) (w : World) : Prop :=
  forall c, searchCache (this w) !! toLowerCase query = Some c ->
            searchCacheDuration <= clock w - cached_timestamp c.

(** The names of the tools that write to the store. *)
Definition writers : list string := ["logTransaction"; "scheduleMeeting"; "addJournalEntry"].

(** The names of the tools that open the store. *)
Definition store_tools : list string :=
  ["logTransaction"; "scheduleMeeting"; "addJournalEntry";
   "getUserFinances"; "getUserSchedule"; "getUserJournals"].

(** Replies and worlds for the worked examples. *)
Definition plain_answer : Reply :=
  mkReply 250 (Return (mkResponse "Namaste! How can I help?" [])).

Definition access_denied : Reply :=
  mkReply 80 (Throw "[403 Forbidden] PERMISSION_DENIED: API key not valid").

Definition empty_answer : Reply := mkReply 100 (Return (mkResponse "" [])).

Definition gold_answer : Reply :=
  mkReply 100 (Return (mkResponse "Gold is steady today." [])).

Definition journal_args : Args :=
  mkArgs None None None None None None None None
         (Some "Long walk by the lake") (Some "calm") None None.

Definition broken_store_world : World :=
  mkWorld Samples.morning new_GeminiService Samples.one_transaction Samples.io_error [] [].

End ServiceSpec.

(** * Properties *)

Module HistoryFacts.
Import History.

Lemma filter_from_after (arr pre : list Content) (prev : Content) (h : list Content) :
  arr = pre ++ prev :: h ->
  Js.filter_from (alternates_with_previous arr) (S (length pre)) h
  = filter_after prev h.
Proof.
  revert pre prev. induction h as [|c rest IH]; intros pre prev Harr; [reflexivity|].
  cbn [Js.filter_from filter_after alternates_with_previous].
  assert (Hlk : arr !! length pre = Some prev).
  { subst arr. rewrite lookup_app_r by lia. by rewrite Nat.sub_diag. }
  rewrite Hlk. cbn zeta.
  assert (Hnext : Js.filter_from (alternates_with_previous arr)
                    (S (S (length pre))) rest = filter_after c rest).
  { specialize (IH (pre ++ [prev]) c).
    rewrite length_app, Nat.add_1_r in IH. apply IH.
    subst arr. by rewrite <- app_assoc. }
  rewrite Hnext. reflexivity.
Qed.

Lemma filteri_cons (c : Content) (h : list Content) :
  Js.filteri (alternates_with_previous (c :: h)) (c :: h)
  = if String.eqb (role c) "user" then c :: filter_after c h else filter_after c h.
Proof.
  unfold Js.filteri. cbn [Js.filter_from alternates_with_previous].
  pose proof (filter_from_after (c :: h) [] c h eq_refl) as Hafter.
  cbn [length] in Hafter. rewrite Hafter. reflexivity.
Qed.

Lemma filter_after_alternating (prev : Content) (h : list Content) :
  two_role prev -> Forall two_role h ->
  alternating (next_role (role prev)) (filter_after prev h).
Proof.
  revert prev. induction h as [|c rest IH]; intros prev Hp Hh; [exact I|].
  apply Forall_cons in Hh as [Hc Hrest].
  cbn [filter_after].
  destruct Hp as [Hp|Hp], Hc as [Hc|Hc]; rewrite Hp, Hc; cbn.
  - specialize (IH c (or_introl Hc) Hrest). by rewrite Hc in IH.
  - split; [done|]. specialize (IH c (or_intror Hc) Hrest). by rewrite Hc in IH.
  - split; [done|]. specialize (IH c (or_introl Hc) Hrest). by rewrite Hc in IH.
  - specialize (IH c (or_intror Hc) Hrest). by rewrite Hc in IH.
Qed.

Lemma filter_after_sublist (prev : Content) (h : list Content) :
  sublist (filter_after prev h) h.
Proof.
  revert prev. induction h as [|c rest IH]; intros prev; [constructor|].
  cbn [filter_after]. case_match; [apply sublist_skip|apply sublist_cons]; apply IH.
Qed.

Lemma filteri_sublist (h : list Content) :
  sublist (Js.filteri (alternates_with_previous h) h) h.
Proof.
  destruct h as [|c rest]; [constructor|].
  rewrite filteri_cons. case_match.
  - apply sublist_skip, filter_after_sublist.
  - apply sublist_cons, filter_after_sublist.
Qed.

Lemma filteri_alternating (h : list Content) :
  Forall two_role h ->
  well_formed (Js.filteri (alternates_with_previous h) h).
Proof.
  destruct h as [|c rest]; [intros _; exact I|].
  intros Hh. apply Forall_cons in Hh as [Hc Hrest].
  rewrite filteri_cons.
  pose proof (filter_after_alternating c rest Hc Hrest) as Halt.
  destruct Hc as [Hc|Hc]; rewrite Hc in *; cbn in *.
  - split; done.
  - done.
Qed.

(** On the histories the filter was written for, those whose turns carry
    the role user or model, in any arrangement, the normalized history
    starts with a user turn, alternates strictly, and is obtained from the
    input by dropping turns only. *)
Theorem normalizeHistory_repairs (h : list Content) :
  Forall two_role h ->
  well_formed (normalizeHistory h) /\ sublist (normalizeHistory h) h.
Proof.
  intros Hh. destruct h as [|c rest]; [split; [exact I|constructor]|].
  unfold normalizeHistory.
  destruct (String.eqb (role c) "model") eqn:Hm.
  - apply Forall_cons in Hh as [_ Hrest]. split.
    + by apply filteri_alternating.
    + apply sublist_cons, filteri_sublist.
  - split; [by apply filteri_alternating | apply filteri_sublist].
Qed.

Lemma normalizeHistory_repairs_witness :
  let h := [mkContent "model" "hi"; mkContent "user" "a"; mkContent "user" "b";
            mkContent "model" "c"; mkContent "model" "d"; mkContent "user" "e"] in
  Forall two_role h /\
  well_formed (normalizeHistory h) /\ sublist (normalizeHistory h) h.
Proof.
  assert (Hroles : Forall two_role
            [mkContent "model" "hi"; mkContent "user" "a"; mkContent "user" "b";
             mkContent "model" "c"; mkContent "model" "d"; mkContent "user" "e"]).
  { repeat (apply Forall_cons_2; [first [by left | by right]|]). apply Forall_nil_2. }
  cbv zeta. split; [exact Hroles|].
  apply normalizeHistory_repairs. exact Hroles.
Defined.


End HistoryFacts.

Module DatabaseFacts.
Import Js Database Samples.

#[global] Instance desc_transitive {R} (col : R -> Z) : Transitive (desc col).
Proof. unfold desc. intros a b c. lia. Qed.

#[global] Instance desc_total {R} (col : R -> Z) : Total (desc col).
Proof. unfold desc. intros a b. lia. Qed.

Lemma order_desc_perm {R} (col : R -> Z) (rows : list R) :
  order_desc col rows ≡ₚ rows.
Proof. apply merge_sort_Permutation. Qed.

Lemma order_desc_sorted {R} (col : R -> Z) (rows : list R) :
  StronglySorted (desc col) (order_desc col rows).
Proof. apply StronglySorted_merge_sort; apply _. Qed.

Section Keys.
Context {R : Type} (id_of : R -> string).

(** Selecting by the keys of a prefix selects the prefix, when keys are unique. *)
Lemma filter_keys_of_prefix (kept dropped : list R) :
  NoDup (id_of <$> (kept ++ dropped)) ->
  filter (fun r => id_of r ∈ id_of <$> kept) (kept ++ dropped) = kept.
Proof.
  intros Hnd. rewrite fmap_app in Hnd. apply NoDup_app in Hnd as (_ & Hdisj & _).
  rewrite filter_app.
  assert (Hk : forall l : list R, (forall r, r ∈ l -> id_of r ∈ id_of <$> kept) ->
                    filter (fun r => id_of r ∈ id_of <$> kept) l = l).
  { induction l as [|x l IH]; intros Hall; [reflexivity|].
    rewrite filter_cons_True by (apply Hall; left).
    f_equal. apply IH. intros r Hr. apply Hall. by right. }
  assert (Hd : forall l : list R, (forall r, r ∈ l -> id_of r ∉ id_of <$> kept) ->
                    filter (fun r => id_of r ∈ id_of <$> kept) l = []).
  { induction l as [|x l IH]; intros Hall; [reflexivity|].
    rewrite filter_cons_False by (apply Hall; left).
    apply IH. intros r Hr. apply Hall. by right. }
  rewrite Hk, Hd; [by rewrite app_nil_r| |].
  - intros r Hr Hin. apply (Hdisj (id_of r)); [done|]. by apply list_elem_of_fmap_2.
  - intros r Hr. by apply list_elem_of_fmap_2.
Qed.

End Keys.

(** The trim keeps, up to order, the first hundred rows of the ranking. *)
Lemma trim_perm (rows : list ChatMessage) :
  NoDup (cm_id <$> rows) ->
  trim rows ≡ₚ take retention (order_desc cm_timestamp rows).
Proof.
  intros Hnd. unfold trim, newest_ids.
  set (sorted := order_desc cm_timestamp rows).
  assert (Hperm : sorted ≡ₚ rows) by apply order_desc_perm.
  etrans; [apply filter_Permutation; symmetry; exact Hperm|].
  pose proof (filter_keys_of_prefix cm_id (take retention sorted)
                (drop retention sorted)) as Hprefix.
  rewrite take_drop in Hprefix. rewrite Hprefix; [done|]. by rewrite Hperm.
Qed.

Lemma trim_length (rows : list ChatMessage) :
  NoDup (cm_id <$> rows) ->
  length (trim rows) = (length rows `min` retention)%nat.
Proof.
  intros Hnd. rewrite (trim_perm rows Hnd), length_take.
  rewrite (Permutation_length (order_desc_perm cm_timestamp rows)). lia.
Qed.

Lemma trim_NoDup (rows : list ChatMessage) :
  NoDup (cm_id <$> rows) -> NoDup (cm_id <$> trim rows).
Proof.
  intros Hnd. eapply sublist_NoDup; [exact Hnd|].
  apply fmap_sublist. unfold trim. apply sublist_filter.
Qed.

Lemma filter_ext_in {A} (P Q : A -> Prop) `{!forall x, Decision (P x)}
    `{!forall x, Decision (Q x)} (l : list A) :
  (forall x, x ∈ l -> P x <-> Q x) -> filter P l = filter Q l.
Proof.
  induction l as [|a l IH]; intros Hext; [reflexivity|].
  assert (Hl : filter P l = filter Q l).
  { apply IH. intros x Hx. apply Hext. by right. }
  destruct (decide (P a)) as [Hp|Hp].
  - rewrite !filter_cons_True; [by rewrite Hl| |done]. apply Hext; [left|done].
  - rewrite !filter_cons_False; [done| |done]. intros Hq. apply Hp, Hext; [left|done].
Qed.

(** With a hundred rows stored and a strictly newer one inserted, the trim
    deletes one stored row of least timestamp and nothing else. *)
Lemma trim_full (old : list ChatMessage) (new : ChatMessage) :
  length old = retention ->
  NoDup (cm_id <$> (old ++ [new])) ->
  (forall m, m ∈ old -> cm_timestamp m < cm_timestamp new) ->
  exists victim,
    victim ∈ old
    /\ (forall m, m ∈ old -> cm_timestamp victim <= cm_timestamp m)
    /\ trim (old ++ [new]) = filter (fun m => cm_id m <> cm_id victim) old ++ [new].
Proof.
  intros Hlen Hnd Hnew.
  set (rows := old ++ [new]) in *.
  set (sorted := order_desc cm_timestamp rows).
  assert (Hperm : sorted ≡ₚ rows) by apply order_desc_perm.
  assert (Hsorted : StronglySorted (desc cm_timestamp) sorted) by apply order_desc_sorted.
  unfold retention in *.
  assert (Hlen' : length sorted = 101%nat).
  { rewrite (Permutation_length Hperm). unfold rows.
    rewrite length_app, Hlen. reflexivity. }
  set (kept := take 100 sorted).
  assert (Hvictim : exists victim, sorted = kept ++ [victim]).
  { destruct (drop 100 sorted) as [|v [|? ?]] eqn:Hdrop.
    - apply (f_equal length) in Hdrop. rewrite length_drop, Hlen' in Hdrop.
      cbn in Hdrop. lia.
    - exists v. unfold kept. by rewrite <- Hdrop, take_drop.
    - apply (f_equal length) in Hdrop. rewrite length_drop, Hlen' in Hdrop.
      cbn in Hdrop. lia. }
  destruct Hvictim as [victim Hsplit]. exists victim.
  assert (Hnd' : NoDup (cm_id <$> (kept ++ [victim]))) by (by rewrite <- Hsplit, Hperm).
  assert (Hmem : forall r, r ∈ rows <-> r ∈ kept \/ r = victim).
  { intros r. rewrite <- Hperm, Hsplit, elem_of_app, list_elem_of_singleton. done. }
  assert (Hfresh : cm_id victim ∉ cm_id <$> kept).
  { rewrite fmap_app in Hnd'. apply NoDup_app in Hnd' as (_ & Hdisj & _).
    intros Hin. apply (Hdisj _ Hin). cbn. left. }
  assert (Hkept_len : length kept = 100%nat).
  { unfold kept. rewrite length_take, Hlen'. lia. }
  assert (Hleast : forall r, r ∈ kept -> cm_timestamp victim <= cm_timestamp r).
  { intros r Hr. rewrite Hsplit in Hsorted.
    apply (StronglySorted_app_1_elem_of _ _ _ r victim Hsorted Hr). left. }
  assert (Hother : forall r, r ∈ kept -> cm_id r <> cm_id victim).
  { intros r Hr Heq. apply Hfresh. rewrite <- Heq. by apply list_elem_of_fmap_2. }
  assert (Hvold : victim ∈ old).
  { assert (Hv : victim ∈ rows) by (apply Hmem; by right).
    unfold rows in Hv. apply elem_of_app in Hv as [Hv|Hv]; [done|].
    apply list_elem_of_singleton in Hv. exfalso.
    destruct kept as [|k kept'] eqn:Hk; [cbn in Hkept_len; lia|].
    assert (Hkin : k ∈ k :: kept') by left.
    assert (Hkrows : k ∈ rows) by (apply Hmem; by left).
    unfold rows in Hkrows. apply elem_of_app in Hkrows as [Hko|Hkn].
    - specialize (Hnew k Hko). specialize (Hleast k Hkin). subst victim. lia.
    - apply list_elem_of_singleton in Hkn. apply (Hother k Hkin). by subst. }
  split; [exact Hvold|]. split.
  { intros m Hm. assert (Hmr : m ∈ rows) by (unfold rows; apply elem_of_app; by left).
    apply Hmem in Hmr as [Hk| ->]; [by apply Hleast|lia]. }
  unfold trim, newest_ids, retention. fold sorted. fold kept.
  rewrite (filter_ext_in _ (fun m => cm_id m <> cm_id victim)).
  - unfold rows. rewrite filter_app. f_equal.
    rewrite filter_cons_True; [done|].
    intros Heq. unfold rows in Hnd. rewrite fmap_app in Hnd.
    apply NoDup_app in Hnd as (_ & Hdisj & _).
    apply (Hdisj (cm_id victim)); [by apply list_elem_of_fmap_2|].
    rewrite <- Heq. cbn. left.
  - intros r Hr. split.
    + intros Hin Heq. apply Hfresh. by rewrite <- Heq.
    + intros Hne. apply Hmem in Hr as [Hk| ->]; [by apply list_elem_of_fmap_2|done].
Qed.

Lemma chat_row_eta (m : ChatMessage) :
  mkChatMessage (cm_id m) (cm_text m) (cm_isUser m) (cm_timestamp m) (cm_persona m) = m.
Proof. by destruct m. Qed.

(** What a successful [addChatMessage] did. *)
Lemma addChatMessage_success (faults : Faults) (message : ChatMessage)
    (svc svc' : Service) :
  addChatMessage faults message svc = (Return tt, svc') ->
  (cm_id message ∉ cm_id <$> stored_messages svc)
  /\ stored_messages svc' = trim (stored_messages svc ++ [message]).
Proof.
  unfold addChatMessage, stored_messages, insert_row. rewrite chat_row_eta.
  destruct (db svc) as [tb|]; [|discriminate].
  destruct (faults 0%nat); [discriminate|].
  case_bool_decide as Hid; [discriminate|].
  destruct (faults 1%nat); [discriminate|].
  intros [= <-]. cbn. done.
Qed.

(** What a failed [addChatMessage] left behind. *)
Lemma addChatMessage_failure (faults : Faults) (message : ChatMessage)
    (svc svc' : Service) (e : string) :
  addChatMessage faults message svc = (Throw e, svc') ->
  stored_messages svc' = stored_messages svc
  \/ (faults 0%nat = None /\ faults 1%nat = Some e
      /\ stored_messages svc' = stored_messages svc ++ [message]).
Proof.
  unfold addChatMessage, stored_messages, insert_row. rewrite chat_row_eta.
  destruct (db svc) as [tb|] eqn:Hdb; [|intros [= _ <-]; rewrite Hdb; by left].
  destruct (faults 0%nat) eqn:H0; [intros [= _ <-]; rewrite Hdb; by left|].
  case_bool_decide as Hid; [intros [= _ <-]; rewrite Hdb; by left|].
  destruct (faults 1%nat) eqn:H1; [|discriminate].
  intros [= <- <-]. right. cbn. done.
Qed.

(** C4 (as amended): a successful [addChatMessage] never leaves more than
    a hundred messages (identifiers staying unique); on a store of exactly
    a hundred messages, a successful add of a strictly newer one deletes a
    single stored message of least timestamp, keeps every other message as
    it was and in place, holds the new message, and leaves a hundred. The
    insert and the trim are two statements: an add that throws leaves the
    store as it was, unless it is the trim that failed, and then the new
    message is stored beside all the others. *)
Theorem addChatMessage_retention (faults : Faults) (message : ChatMessage)
    (svc : Service) :
  NoDup (cm_id <$> stored_messages svc) ->
  (forall svc',
     addChatMessage faults message svc = (Return tt, svc') ->
     (length (stored_messages svc') <= retention)%nat
     /\ NoDup (cm_id <$> stored_messages svc')
     /\ (length (stored_messages svc) = retention ->
         (forall m, m ∈ stored_messages svc -> cm_timestamp m < cm_timestamp message) ->
         exists victim,
           victim ∈ stored_messages svc
           /\ (forall m, m ∈ stored_messages svc -> cm_timestamp victim <= cm_timestamp m)
           /\ stored_messages svc'
              = filter (fun m => cm_id m <> cm_id victim) (stored_messages svc) ++ [message]
           /\ length (stored_messages svc') = retention))
  /\ (forall e svc',
        addChatMessage faults message svc = (Throw e, svc') ->
        stored_messages svc' = stored_messages svc
        \/ (faults 0%nat = None /\ faults 1%nat = Some e
            /\ stored_messages svc' = stored_messages svc ++ [message]
            /\ length (stored_messages svc') = S (length (stored_messages svc)))).
Proof.
  intros Hnd. split.
  - intros svc' Hadd. apply addChatMessage_success in Hadd as [Hfresh Hstored].
    assert (Hnd' : NoDup (cm_id <$> (stored_messages svc ++ [message]))).
    { rewrite fmap_app. apply NoDup_app. split; [done|]. split; [|apply NoDup_singleton].
      intros x Hx Hin. apply list_elem_of_singleton in Hin. by subst. }
    rewrite Hstored. split; [|split].
    + rewrite trim_length by done. lia.
    + by apply trim_NoDup.
    + intros Hfull Hnewer.
      destruct (trim_full _ _ Hfull Hnd' Hnewer) as (victim & Hin & Hleast & Htrim).
      exists victim. split; [done|]. split; [done|]. split; [done|].
      rewrite trim_length by done. rewrite length_app, Hfull. reflexivity.
  - intros e svc' Hadd.
    destruct (addChatMessage_failure _ _ _ _ _ Hadd) as [Hsame | (H0 & H1 & Hstored)];
      [by left|right].
    repeat split; try done. rewrite Hstored, length_app. cbn. lia.
Qed.

Lemma addChatMessage_retention_witness :
  let svc' := (addChatMessage no_faults newest_message full_store).2 in
  length (stored_messages full_store) = retention
  /\ (length (stored_messages svc') <= retention)%nat
  /\ exists victim,
       victim ∈ stored_messages full_store
       /\ (forall m, m ∈ stored_messages full_store ->
                cm_timestamp victim <= cm_timestamp m)
       /\ stored_messages svc'
          = filter (fun m => cm_id m <> cm_id victim) (stored_messages full_store)
            ++ [newest_message]
       /\ length (stored_messages svc') = retention.
Proof.
  cbv zeta.
  assert (Hnd : NoDup (cm_id <$> stored_messages full_store)).
  { refine (bool_decide_unpack _ _). vm_compute. exact I. }
  assert (Hadd : addChatMessage no_faults newest_message full_store
                 = (Return tt, (addChatMessage no_faults newest_message full_store).2)).
  { vm_compute. reflexivity. }
  assert (Hfull : length (stored_messages full_store) = retention).
  { vm_compute. reflexivity. }
  assert (Hnewer : forall m, m ∈ stored_messages full_store ->
                        cm_timestamp m < cm_timestamp newest_message).
  { apply Forall_forall. refine (bool_decide_unpack _ _). vm_compute. exact I. }
  destruct (addChatMessage_retention no_faults newest_message full_store Hnd) as [Hok _].
  destruct (Hok _ Hadd) as (Hle & _ & Hevict).
  split; [exact Hfull|]. split; [exact Hle|]. exact (Hevict Hfull Hnewer).
Defined.

(** C4 (as stated) fails in its last clause: when the driver accepts the
    insert and rejects the trim, the add throws and the store of a hundred
    messages holds a hundred and one. *)
Lemma addChatMessage_failed_trim :
  (addChatMessage second_fails newest_message full_store).1 = Throw "disk I/O error"
  /\ length (stored_messages full_store) = retention
  /\ length (stored_messages (addChatMessage second_fails newest_message full_store).2)
     = S retention
  /\ ~ (forall faults message svc,
          NoDup (cm_id <$> stored_messages svc) ->
          (length (stored_messages svc) <= retention)%nat ->
          (length (stored_messages (addChatMessage faults message svc).2) <= retention)%nat).
Proof.
  assert (Hlen : length (stored_messages
                           (addChatMessage second_fails newest_message full_store).2)
                 = S retention) by (vm_compute; reflexivity).
  split; [vm_compute; reflexivity|]. split; [vm_compute; reflexivity|].
  split; [exact Hlen|].
  intros H.
  assert (Hnd : NoDup (cm_id <$> stored_messages full_store)).
  { refine (bool_decide_unpack _ _). vm_compute. exact I. }
  assert (Hfull : (length (stored_messages full_store) <= retention)%nat).
  { vm_compute. lia. }
  specialize (H second_fails newest_message full_store Hnd Hfull).
  rewrite Hlen in H. unfold retention in H. lia.
Qed.

(** C8 (as amended): while the database handle is unset every operation
    of the store throws "Database not initialized"; when the driver rejects
    the statement of a create or a delete, or any statement of an add to
    the chat or of a clear, the operation throws to its caller, with the
    driver's failure when it is the first statement; while the four list
    operations report the failure on the console and return the empty
    list. *)
Theorem store_failures (svc : Service) (faults : Faults) :
  (db svc = None ->
     (forall now t, addTransaction faults now t svc = (Throw not_initialized, svc))
     /\ (forall now s, addSchedule faults now s svc = (Throw not_initialized, svc))
     /\ (forall now j, addJournalEntry faults now j svc = (Throw not_initialized, svc))
     /\ (forall m, addChatMessage faults m svc = (Throw not_initialized, svc))
     /\ getTransactions faults svc = Throw not_initialized
     /\ getSchedules faults svc = Throw not_initialized
     /\ getJournalEntries faults svc = Throw not_initialized
     /\ getChatMessages faults svc = Throw not_initialized
     /\ (forall id, deleteTransaction faults id svc = (Throw not_initialized, svc))
     /\ (forall id, deleteSchedule faults id svc = (Throw not_initialized, svc))
     /\ (forall id, deleteJournalEntry faults id svc = (Throw not_initialized, svc))
     /\ clearAllData faults svc = (Throw not_initialized, svc))
  /\ (forall e, db svc <> None -> faults 0%nat = Some e ->
     (forall now t, addTransaction faults now t svc = (Throw e, svc))
     /\ (forall now s, throws (addSchedule faults now s svc).1
                       /\ (addSchedule faults now s svc).2 = svc)
     /\ (forall now j, addJournalEntry faults now j svc = (Throw e, svc))
     /\ (forall m, addChatMessage faults m svc = (Throw e, svc))
     /\ (forall id, deleteTransaction faults id svc = (Throw e, svc))
     /\ (forall id, deleteSchedule faults id svc = (Throw e, svc))
     /\ (forall id, deleteJournalEntry faults id svc = (Throw e, svc))
     /\ clearAllData faults svc = (Throw e, svc)
     /\ getTransactions faults svc = Return []
     /\ getSchedules faults svc = Return []
     /\ getJournalEntries faults svc = Return []
     /\ getChatMessages faults svc = Return [])
  /\ (forall k e, (k < 2)%nat -> faults k = Some e ->
        forall m, throws (addChatMessage faults m svc).1)
  /\ (forall k e, (k < 4)%nat -> faults k = Some e ->
        throws (clearAllData faults svc).1).
Proof.
  split; [|split; [|split]].
  - intros Hdb.
    unfold addTransaction, addSchedule, addJournalEntry, addChatMessage,
      getTransactions, getSchedules, getJournalEntries, getChatMessages,
      deleteTransaction, deleteSchedule, deleteJournalEntry, clearAllData.
    rewrite Hdb. repeat split.
  - intros e Hdb He.
    unfold addTransaction, addSchedule, addJournalEntry, addChatMessage,
      getTransactions, getSchedules, getJournalEntries, getChatMessages,
      deleteTransaction, deleteSchedule, deleteJournalEntry, clearAllData,
      insert_row, delete_row, select_all.
    destruct (db svc) as [tb|]; [|done]. rewrite He.
    repeat split; try done.
    + destruct (ns_date s); exact I.
    + destruct (ns_date s); reflexivity.
  - intros k e Hk He m. unfold addChatMessage, insert_row.
    destruct (db svc) as [tb|]; [|exact I].
    destruct (faults 0%nat) eqn:H0; [exact I|].
    case_bool_decide; [exact I|].
    destruct (faults 1%nat) eqn:H1; [exact I|].
    destruct k as [|[|k]]; [congruence|congruence|lia].
  - intros k e Hk He. unfold clearAllData.
    destruct (db svc) as [tb|]; [|exact I].
    destruct (faults 0%nat) eqn:H0; [exact I|].
    destruct (faults 1%nat) eqn:H1; [exact I|].
    destruct (faults 2%nat) eqn:H2; [exact I|].
    destruct (faults 3%nat) eqn:H3; [exact I|].
    destruct k as [|[|[|[|k]]]]; [congruence..|lia].
Qed.

Lemma store_failures_witness :
  addTransaction no_faults 5
    (mkNewTransaction (Some 1%float) (Some "income") (Some "Salary") None 5) fresh_service
  = (Throw not_initialized, fresh_service)
  /\ deleteTransaction io_error "1" one_transaction
     = (Throw "disk I/O error", one_transaction)
  /\ getTransactions io_error one_transaction = Return []
  /\ throws (clearAllData second_fails one_transaction).1.
Proof.
  split.
  - destruct (store_failures fresh_service no_faults) as [Hnone _].
    destruct (Hnone eq_refl) as (Hadd & _). apply Hadd.
  - destruct (store_failures one_transaction io_error) as (_ & Hio & _).
    assert (Hopen : db one_transaction <> None) by discriminate.
    destruct (Hio "disk I/O error" Hopen eq_refl)
      as (_ & _ & _ & _ & Hdel & _ & _ & _ & Hget & _).
    split; [apply Hdel|]. split; [exact Hget|].
    destruct (store_failures one_transaction second_fails) as (_ & _ & _ & Hclear).
    apply (Hclear 1%nat "disk I/O error"); [lia|reflexivity].
Defined.

(** C8 (as stated) fails twice. Listing a store whose driver rejects the
    query does not surface the failure: the caller receives the empty
    list, although a transaction is stored. And the operations are guarded
    by the handle, not by the completion of [init]: after an [init] that
    opened the file and failed while creating the tables, an add is
    attempted, and succeeds when the driver accepts it. *)
Lemma getTransactions_swallows_failure :
  getTransactions io_error one_transaction = Return []
  /\ getTransactions no_faults one_transaction = Return [lunch]
  /\ ~ (forall faults svc e, db svc <> None -> faults 0%nat = Some e ->
          throws (getTransactions faults svc))
  /\ (let interrupted := init second_fails empty_tables fresh_service in
      interrupted.1 = Throw "disk I/O error"
      /\ initialized interrupted.2 = false
      /\ (addTransaction no_faults 5
            (mkNewTransaction (Some 1%float) (Some "income") (Some "Salary") None 5)
            interrupted.2).1 = Return "5").
Proof.
  split; [reflexivity|]. split; [reflexivity|]. split.
  - intros H.
    assert (Hopen : db one_transaction <> None) by discriminate.
    exact (H io_error one_transaction "disk I/O error" Hopen eq_refl).
  - cbv zeta. repeat split; vm_compute; reflexivity.
Qed.

End DatabaseFacts.

Module GovernorFacts.
Import Js Database Gemini.

(** [waitForRateLimit] for a caller alone, in closed form. *)
Lemma await_waitForRateLimit (g : GeminiService) (t : Z) :
  await_alone (waitForRateLimit g t) t
  = let woken := if quotaResetTime g >? t then quotaResetTime g else t in
    let permit := if t - lastRequestTime g <? minRequestInterval
                  then woken + (minRequestInterval - (t - lastRequestTime g))
                  else woken in
    (mkGemini permit (if quotaResetTime g >? t then 0 else quotaResetTime g)
              (quoteCache g) (searchCache g), tt, permit).
Proof.
  unfold waitForRateLimit, spacing, stamp, set_lastRequestTime, set_quotaResetTime.
  destruct (quotaResetTime g >? t) eqn:Hq; cbn;
    destruct (t - lastRequestTime g <? minRequestInterval) eqn:Hs; cbn;
    repeat f_equal; lia.
Qed.


Lemma acquire_fields (w : World) :
  clock (acquire w) = permit_time (this w) (clock w)
  /\ store (acquire w) = store w
  /\ driver (acquire w) = driver w
  /\ generate_replies (acquire w) = generate_replies w
  /\ requests (acquire w) = requests w
  /\ quoteCache (this (acquire w)) = quoteCache (this w)
  /\ searchCache (this (acquire w)) = searchCache (this w)
  /\ lastRequestTime (this (acquire w)) = permit_time (this w) (clock w).
Proof.
  unfold acquire, permit_time. rewrite await_waitForRateLimit. cbn. repeat split.
Qed.

End GovernorFacts.

Module QuoteFacts.
Import Js Database Gemini Samples GovernorFacts.

Lemma quote_hit (w : World) (c : Cached) :
  quoteCache (this w) = Some c ->
  clock w - cached_timestamp c < quoteCacheDuration ->
  generateDailyQuote w = (cached_text c, w).
Proof.
  intros Hc Hfresh. unfold generateDailyQuote, quote_cached. rewrite Hc.
  destruct (clock w - cached_timestamp c <? quoteCacheDuration) eqn:Hlt; [done|lia].
Qed.

(** A call that misses the cache, unfolded. *)
Lemma quote_miss (w : World) :
  quote_cached (this w) (clock w) = None ->
  generateDailyQuote w
  = match generateContent quote_prompt (acquire w) with
    | (Return quote, w') =>
        (quote, set_this (set_quoteCache (Some (mkCached quote (clock w'))) (this w')) w')
    | (Throw _, w') => (quote_fallback, w')
    end.
Proof. intros Hmiss. unfold generateDailyQuote. by rewrite Hmiss. Qed.

Lemma generateContent_sends (prompt : string) (w : World) :
  requests (generateContent prompt w).2 = requests w ++ [mkRequest (clock w) (Prompt prompt)]
  /\ this (generateContent prompt w).2 = this w
  /\ store (generateContent prompt w).2 = store w.
Proof.
  unfold generateContent, exchange.
  destruct (head (generate_replies w)) as [reply|]; cbn; [|done].
  destruct (body reply); cbn; done.
Qed.

(** C7: a call that finds a cached quote younger than an hour returns its
    text and leaves the world, request log included, as it was; after a
    call that fetched a quote, a later call made within the hour returns
    the same text without a request; a call that finds the cached quote an
    hour old or older sends a request; and the cache changes only when a
    request was sent and answered, to that answer. *)
Theorem quote_cache_contract (w : World) :
  (forall c, quoteCache (this w) = Some c ->
     clock w - cached_timestamp c < quoteCacheDuration ->
     generateDailyQuote w = (cached_text c, w))
  /\ (forall reply response later,
        quote_cached (this w) (clock w) = None ->
        head (generate_replies w) = Some reply ->
        body reply = Return response ->
        quoteCache (this later) = quoteCache (this (generateDailyQuote w).2) ->
        clock later - clock (generateDailyQuote w).2 < quoteCacheDuration ->
        (generateDailyQuote w).1 = response_text response
        /\ generateDailyQuote later = ((generateDailyQuote w).1, later))
  /\ (forall c, quoteCache (this w) = Some c ->
        quoteCacheDuration <= clock w - cached_timestamp c ->
        requests (generateDailyQuote w).2
        = requests w ++ [mkRequest (permit_time (this w) (clock w)) (Prompt quote_prompt)])
  /\ (quoteCache (this (generateDailyQuote w).2) <> quoteCache (this w) ->
      exists reply response,
        head (generate_replies w) = Some reply
        /\ body reply = Return response
        /\ requests (generateDailyQuote w).2
           = requests w ++ [mkRequest (permit_time (this w) (clock w)) (Prompt quote_prompt)]
        /\ quoteCache (this (generateDailyQuote w).2)
           = Some (mkCached (response_text response) (clock (generateDailyQuote w).2))).
Proof.
  destruct (acquire_fields w) as (Hclock & _ & _ & Hreplies & Hreqs & Hcache & _).
  split; [apply quote_hit|]. split; [|split].
  - intros reply response later Hmiss Hhead Hbody Hsame Hsoon.
    rewrite (quote_miss w Hmiss) in *.
    unfold generateContent, exchange in *. rewrite Hreplies, Hhead in *.
    cbn in *. rewrite Hbody in *. cbn in *.
    split; [reflexivity|].
    apply (quote_hit later (mkCached (response_text response)
                              (clock (acquire w) + Z.of_N (latency reply))));
      [exact Hsame|exact Hsoon].
  - intros c Hc Hold.
    assert (Hmiss : quote_cached (this w) (clock w) = None).
    { unfold quote_cached. rewrite Hc.
      destruct (clock w - cached_timestamp c <? quoteCacheDuration) eqn:Hlt; [lia|done]. }
    rewrite (quote_miss w Hmiss).
    destruct (generateContent_sends quote_prompt (acquire w)) as (Hsent & _).
    rewrite Hreqs, Hclock in Hsent.
    destruct (generateContent quote_prompt (acquire w)) as [[quote|e] w']; exact Hsent.
  - intros Hchanged.
    destruct (quote_cached (this w) (clock w)) as [text|] eqn:Hq.
    { exfalso. apply Hchanged. unfold generateDailyQuote. by rewrite Hq. }
    rewrite (quote_miss w Hq) in *.
    unfold generateContent, exchange in *. rewrite Hreplies in *.
    destruct (head (generate_replies w)) as [reply|]; cbn in *;
      [|exfalso; by apply Hchanged].
    destruct (body reply) as [response|e] eqn:Hbody; cbn in *;
      [|exfalso; by apply Hchanged].
    exists reply, response. split; [reflexivity|]. split; [exact Hbody|].
    split; [|reflexivity]. by rewrite Hreqs, Hclock.
Qed.

Lemma quote_cache_contract_witness :
  let w := quiet_world fresh_service [a_quote] in
  let later := advance 1800000 (generateDailyQuote w).2 in
  (generateDailyQuote w).1 = "Rise with the sun."
  /\ generateDailyQuote later = ("Rise with the sun.", later)
  /\ length (requests later) = 1%nat.
Proof.
  cbv zeta.
  destruct (quote_cache_contract (quiet_world fresh_service [a_quote]))
    as (_ & Htwice & _).
  destruct (Htwice a_quote (mkResponse "Rise with the sun." [])
              (advance 1800000 (generateDailyQuote (quiet_world fresh_service [a_quote])).2))
    as [Hfirst Hsecond].
  - reflexivity.
  - reflexivity.
  - reflexivity.
  - reflexivity.
  - vm_compute. reflexivity.
  - split; [exact Hfirst|]. split; [|reflexivity].
    rewrite Hsecond. f_equal.
Defined.

End QuoteFacts.

Module OrchestratorFacts.
Import Js History Database Gemini Samples ServiceSpec GovernorFacts QuoteFacts.

Section WithDates.
Variable Date_parse : string -> option Z.
Variable Number_toString : float -> string.

(** *** The store only grows during a turn *)

Lemma rows_kept_refl (s : Service) : rows_kept s s.
Proof. unfold rows_kept. destruct (db s); done. Qed.

Lemma rows_kept_trans (s1 s2 s3 : Service) :
  rows_kept s1 s2 -> rows_kept s2 s3 -> rows_kept s1 s3.
Proof.
  unfold rows_kept. destruct (db s1), (db s2), (db s3); try done.
  intros (H1 & H2 & H3 & H4) (H1' & H2' & H3' & H4').
  repeat split; try (etrans; eassumption).
Qed.

Lemma addTransaction_rows_kept faults now t s :
  rows_kept s (addTransaction faults now t s).2.
Proof.
  unfold addTransaction, insert_row.
  destruct (db s) as [tb|] eqn:Hdb; [|apply rows_kept_refl].
  destruct (faults 0%nat); [apply rows_kept_refl|].
  destruct (transaction_row _ _); [|apply rows_kept_refl].
  case_bool_decide; [apply rows_kept_refl|].
  unfold rows_kept. rewrite Hdb. cbn. repeat split; try done. by apply prefix_app_r.
Qed.

Lemma addSchedule_rows_kept faults now sch s :
  rows_kept s (addSchedule faults now sch s).2.
Proof.
  unfold addSchedule, insert_row.
  destruct (db s) as [tb|] eqn:Hdb; [|apply rows_kept_refl].
  destruct (ns_date sch); [|apply rows_kept_refl].
  destruct (faults 0%nat); [apply rows_kept_refl|].
  destruct (schedule_row _ _ _); [|apply rows_kept_refl].
  case_bool_decide; [apply rows_kept_refl|].
  unfold rows_kept. rewrite Hdb. cbn. repeat split; try done. by apply prefix_app_r.
Qed.

Lemma addJournalEntry_rows_kept faults now j s :
  rows_kept s (addJournalEntry faults now j s).2.
Proof.
  unfold addJournalEntry, insert_row.
  destruct (db s) as [tb|] eqn:Hdb; [|apply rows_kept_refl].
  destruct (faults 0%nat); [apply rows_kept_refl|].
  destruct (journal_row _ _); [|apply rows_kept_refl].
  case_bool_decide; [apply rows_kept_refl|].
  unfold rows_kept. rewrite Hdb. cbn. repeat split; try done. by apply prefix_app_r.
Qed.

Lemma acquire_store (w : World) : store (acquire w) = store w.
Proof. apply acquire_fields. Qed.

Lemma generateDailyQuote_store (w : World) : store (generateDailyQuote w).2 = store w.
Proof.
  unfold generateDailyQuote. destruct (quote_cached _ _); [done|].
  destruct (generateContent_sends quote_prompt (acquire w)) as (_ & _ & Hstore).
  destruct (generateContent quote_prompt (acquire w)) as [[q|e] w']; cbn in *;
    by rewrite Hstore, acquire_store.
Qed.

Lemma performWebSearch_store (query : option string) (w : World) :
  store (performWebSearch query w).2 = store w.
Proof.
  unfold performWebSearch. destruct query as [q|]; [|done].
  destruct (searchCache (this w) !! toLowerCase q) as [c|].
  - destruct (clock w - cached_timestamp c <? searchCacheDuration); [done|].
    destruct (generateContent_sends (search_prompt q) (acquire w)) as (_ & _ & Hstore).
    destruct (generateContent (search_prompt q) (acquire w)) as [[t|e] w']; cbn in *.
    + by rewrite Hstore, acquire_store.
    + destruct (is_quota_error e); cbn; by rewrite Hstore, acquire_store.
  - destruct (generateContent_sends (search_prompt q) (acquire w)) as (_ & _ & Hstore).
    destruct (generateContent (search_prompt q) (acquire w)) as [[t|e] w']; cbn in *.
    + by rewrite Hstore, acquire_store.
    + destruct (is_quota_error e); cbn; by rewrite Hstore, acquire_store.
Qed.

Lemma handle_grows (call : FunctionCall) (acc : list AgenticAction) (w : World) :
  acc `prefix_of` (handle Date_parse Number_toString call acc w).1.2
  /\ rows_kept (store w) (store (handle Date_parse Number_toString call acc w).2).
Proof.
  unfold handle.
  destruct (String.eqb (call_name call) "logTransaction").
  { pose proof (addTransaction_rows_kept (driver w) (clock w)
      (mkNewTransaction (arg_amount (call_args call)) (arg_type (call_args call))
         (arg_category (call_args call)) (arg_description (call_args call)) (clock w))
      (store w)) as Hk.
    destruct (addTransaction _ _ _ _) as [[id|e] s]; cbn in *;
      (split; [|exact Hk]); [by apply prefix_app_r|done]. }
  destruct (String.eqb (call_name call) "scheduleMeeting").
  { pose proof (addSchedule_rows_kept (driver w) (clock w)
      (mkNewSchedule (arg_title (call_args call))
         (Some (default "" (arg_description (call_args call))))
         (arg_date (call_args call) ≫= Date_parse) (arg_time (call_args call)) (Some 15))
      (store w)) as Hk.
    destruct (addSchedule _ _ _ _) as [[id|e] s]; cbn in *;
      (split; [|exact Hk]); [by apply prefix_app_r|done]. }
  destruct (String.eqb (call_name call) "addJournalEntry").
  { pose proof (addJournalEntry_rows_kept (driver w) (clock w)
      (mkNewJournalEntry (arg_content (call_args call)) (arg_mood (call_args call))
         (clock w)) (store w)) as Hk.
    destruct (addJournalEntry _ _ _ _) as [[id|e] s]; cbn in *;
      (split; [|exact Hk]); [by apply prefix_app_r|done]. }
  destruct (String.eqb (call_name call) "getDailyQuote").
  { pose proof (generateDailyQuote_store w) as Hs.
    destruct (generateDailyQuote w) as [q w']; cbn in *.
    split; [done|]. rewrite Hs. apply rows_kept_refl. }
  destruct (String.eqb (call_name call) "getUserFinances").
  { destruct (getTransactions _ _); cbn; (split; [done|apply rows_kept_refl]). }
  destruct (String.eqb (call_name call) "getUserSchedule").
  { destruct (getSchedules _ _); cbn; (split; [done|apply rows_kept_refl]). }
  destruct (String.eqb (call_name call) "getUserJournals").
  { destruct (getJournalEntries _ _); cbn; (split; [done|apply rows_kept_refl]). }
  destruct (String.eqb (call_name call) "searchWeb").
  { pose proof (performWebSearch_store (arg_query (call_args call)) w) as Hs.
    destruct (performWebSearch _ w) as [r w']; cbn in *.
    split; [done|]. rewrite Hs. apply rows_kept_refl. }
  cbn. split; [done|apply rows_kept_refl].
Qed.

Lemma execute_grows (call : FunctionCall) (acc : list AgenticAction) (w : World) :
  acc `prefix_of` (execute Date_parse Number_toString call acc w).1.2
  /\ rows_kept (store w) (store (execute Date_parse Number_toString call acc w).2).
Proof.
  pose proof (handle_grows call acc w) as H. unfold execute.
  destruct (handle Date_parse Number_toString call acc w) as [[[r|e] acc'] w']; exact H.
Qed.

Lemma round_grows (calls : list FunctionCall) (acc : list AgenticAction) (w : World) :
  acc `prefix_of` (round Date_parse Number_toString calls acc w).1.2
  /\ rows_kept (store w) (store (round Date_parse Number_toString calls acc w).2).
Proof.
  revert acc w. induction calls as [|call rest IH]; intros acc w.
  - cbn. split; [done|apply rows_kept_refl].
  - cbn [round]. pose proof (execute_grows call acc w) as [Ha Hs].
    destruct (execute Date_parse Number_toString call acc w) as [[r acc1] w1]. cbn in Ha, Hs.
    specialize (IH acc1 w1) as [Ha' Hs'].
    destruct (round Date_parse Number_toString rest acc1 w1) as [[rs acc2] w2]. cbn in *.
    split; [by etrans|by eapply rows_kept_trans].
Qed.

Lemma exchange_fields (p : Payload) (r : option Reply) (w : World) :
  store (exchange p r w).2 = store w
  /\ this (exchange p r w).2 = this w
  /\ requests (exchange p r w).2 = requests w ++ [mkRequest (clock w) p].
Proof. unfold exchange. destruct r; done. Qed.

(** One iteration of the loop. *)
Lemma converse_step (reply : Reply) (session : list Reply) (message : Payload)
    (acc : list AgenticAction) (w : World) :
  converse Date_parse Number_toString (reply :: session) message acc w
  = match exchange message (Some reply) w with
    | (Throw e, w1) => (Throw e, acc, w1)
    | (Return response, w1) =>
        match functionCalls response with
        | [] => (Return (response_text response), acc, w1)
        | _ :: _ =>
            let r := round Date_parse Number_toString (functionCalls response) acc w1 in
            converse Date_parse Number_toString session (FunctionResponses r.1.1) r.1.2 r.2
        end
    end.
Proof.
  cbn [converse]. destruct (exchange message (Some reply) w) as [[response|e] w1]; [|done].
  destruct (functionCalls response) as [|call calls]; [done|].
  by destruct (round Date_parse Number_toString (call :: calls) acc w1) as [[rs acc1] w2].
Qed.

Lemma converse_grows (session : list Reply) (message : Payload)
    (acc : list AgenticAction) (w : World) :
  acc `prefix_of` (converse Date_parse Number_toString session message acc w).1.2
  /\ rows_kept (store w) (store (converse Date_parse Number_toString session message acc w).2).
Proof.
  revert message acc w. induction session as [|reply session IH]; intros message acc w.
  - cbn [converse]. destruct (exchange_fields message None w) as (Hs & _).
    destruct (exchange message None w) as [r w']. cbn in *.
    rewrite Hs. split; [done|apply rows_kept_refl].
  - rewrite converse_step. destruct (exchange_fields message (Some reply) w) as (Hs & _).
    destruct (exchange message (Some reply) w) as [[response|e] w1]; cbn [fst snd] in Hs |- *.
    + destruct (functionCalls response) as [|call calls] eqn:Hcalls.
      * cbn [fst snd]. rewrite Hs. split; [done|apply rows_kept_refl].
      * cbv zeta. rewrite <- Hcalls.
        pose proof (round_grows (functionCalls response) acc w1) as [Ha Hk].
        rewrite Hs in Hk.
        set (r := round Date_parse Number_toString (functionCalls response) acc w1) in *.
        specialize (IH (FunctionResponses r.1.1) r.1.2 r.2) as [Ha' Hk'].
        split; [etrans; [exact Ha|exact Ha']|].
        eapply rows_kept_trans; [exact Hk|exact Hk'].
    + rewrite Hs. split; [done|apply rows_kept_refl].
Qed.

(** After a reply that asks for tool calls, the loop sends their results. *)
Lemma converse_round (reply : Reply) (session : list Reply) (message : Payload)
    (acc : list AgenticAction) (w : World) (response : Response) :
  body reply = Return response ->
  functionCalls response <> [] ->
  converse Date_parse Number_toString (reply :: session) message acc w
  = let r := round Date_parse Number_toString (functionCalls response) acc
               (exchange message (Some reply) w).2 in
    converse Date_parse Number_toString session (FunctionResponses r.1.1) r.1.2 r.2.
Proof.
  intros Hbody Hcalls.
  rewrite converse_step. unfold exchange. rewrite Hbody. cbn [fst snd].
  destruct (functionCalls response); [done|reflexivity].
Qed.


End WithDates.

(** *** Tool dispatch *)





(** *** Scheduling a meeting *)

(** C9: whenever the scheduleMeeting handler succeeds, the schedules table
    has gained exactly one row, whose reminder is 15; one action of kind
    schedule, carrying the call's arguments, has been appended to the log;
    and the stored row is the same whatever [duration] the model gave. *)
Theorem scheduleMeeting_reminder (Date_parse : string -> option Z)
    (Number_toString : float -> string) (args : Args)
    (acc : list AgenticAction) (w : World) result acc' w' :
  handle Date_parse Number_toString (mkCall "scheduleMeeting" args) acc w
  = (Return result, acc', w') ->
  exists tb row,
    db (store w) = Some tb
    /\ db (store w')
       = Some (mkTables (transactions tb) (schedules tb ++ [row]) (journal_entries tb)
                        (chat_messages tb))
    /\ sc_reminder row = 15
    /\ acc' = acc ++ [mkAction kind_schedule args true]
    /\ forall d,
         store (handle Date_parse Number_toString
                       (mkCall "scheduleMeeting" (set_duration d args)) acc w).2
         = store w'.
Proof.
  unfold handle. cbn [call_name call_args String.eqb Ascii.eqb Bool.eqb].
  cbn [set_duration arg_title arg_description arg_date arg_time].
  unfold addSchedule, schedule_row, required, insert_row.
  destruct (db (store w)) as [tb|] eqn:Hdb; [|discriminate].
  cbn [ns_date ns_title ns_time ns_description ns_reminder].
  destruct (arg_date args ≫= Date_parse) as [date|]; [|discriminate].
  destruct (driver w 0%nat); [discriminate|].
  destruct (arg_title args) as [title|]; [|discriminate].
  destruct (arg_time args) as [time|]; [|discriminate].
  case_bool_decide; [discriminate|].
  intros [= <- <- <-].
  eexists tb, _. split; [reflexivity|]. split; [reflexivity|].
  split; [reflexivity|]. split; reflexivity.
Qed.

Lemma scheduleMeeting_reminder_witness :
  let w := quiet_world open_store [] in
  let done := handle one_date few_numbers (mkCall "scheduleMeeting" standup_args) [] w in
  done.1.2 = [mkAction kind_schedule standup_args true]
  /\ exists tb row,
       db (store w) = Some tb
       /\ db (store done.2)
          = Some (mkTables (transactions tb) (schedules tb ++ [row]) (journal_entries tb)
                           (chat_messages tb))
       /\ sc_reminder row = 15.
Proof.
  cbv zeta.
  destruct (scheduleMeeting_reminder one_date few_numbers standup_args []
              (quiet_world open_store [])
              (Text "Meeting scheduled: Standup on 2025-03-14 at 09:30")
              [mkAction kind_schedule standup_args true]
              (handle one_date few_numbers (mkCall "scheduleMeeting" standup_args) []
                 (quiet_world open_store [])).2)
    as (tb & row & Hdb & Hdb' & Hrem & _).
  - vm_compute. reflexivity.
  - split; [vm_compute; reflexivity|]. exists tb, row. done.
Defined.

(** *** Summaries *)

(** C5 fails on the code: the three summary handlers never read [period].
    Their outcome is the same for every period, and a request for the
    finances of today, made in 2023, counts a transaction of 1970. *)
Theorem period_argument_ignored (Date_parse : string -> option Z)
    (Number_toString : float -> string) (args : Args)
    (p : option string) (acc : list AgenticAction) (w : World) :
  handle Date_parse Number_toString (mkCall "getUserFinances" (set_period p args)) acc w
  = handle Date_parse Number_toString (mkCall "getUserFinances" args) acc w
  /\ handle Date_parse Number_toString (mkCall "getUserSchedule" (set_period p args)) acc w
     = handle Date_parse Number_toString (mkCall "getUserSchedule" args) acc w
  /\ handle Date_parse Number_toString (mkCall "getUserJournals" (set_period p args)) acc w
     = handle Date_parse Number_toString (mkCall "getUserJournals" args) acc w
  /\ handle Date_parse Number_toString
            (mkCall "getUserFinances" (set_period (Some "today") no_args)) []
            old_lunch_world
     = (Return (Finances 0 250 (-250) 1), [], old_lunch_world)
  /\ tx_date lunch + 86400000 < clock old_lunch_world.
Proof.
  split; [reflexivity|]. split; [reflexivity|]. split; [reflexivity|].
  split; [vm_compute; reflexivity|]. vm_compute. reflexivity.
Qed.

(** *** Failures of the transport *)

Lemma on_error_fields (e : string) (w : World) :
  actions (on_error e w).1 = []
  /\ answer_text (on_error e w).1 ∈ [quota_text; key_text; apology e]
  /\ store (on_error e w).2 = store w
  /\ requests (on_error e w).2 = requests w
  /\ clock (on_error e w).2 = clock w.
Proof.
  unfold on_error. destruct (is_quota_error e); [|destruct (is_auth_error e)]; cbn;
    repeat split; repeat constructor.
Qed.

(** The body of the [try], once [startChat] has accepted the history. *)
Lemma attempt_started (Date_parse : string -> option Z)
    (Number_toString : float -> string)
    (startChat : list History.Content -> outcome unit) (session : list Reply)
    (userMessage : string) (history : list History.Content) (w : World) :
  startChat (History.normalizeHistory history) = Return tt ->
  attempt Date_parse Number_toString startChat session userMessage history w
  = converse Date_parse Number_toString session
      (UserMessage (History.normalizeHistory history) userMessage) [] (acquire w).
Proof. intros H. unfold attempt. by rewrite H. Qed.

(** [sendMessage], once the body of its [try] has ended in an error. *)
Lemma sendMessage_caught (Date_parse : string -> option Z)
    (Number_toString : float -> string)
    (startChat : list History.Content -> outcome unit) (session : list Reply)
    (userMessage persona : string) (history : list History.Content) (w : World) e acc w3 :
  attempt Date_parse Number_toString startChat session userMessage history w
  = (Throw e, acc, w3) ->
  sendMessage Date_parse Number_toString startChat session userMessage persona history w
  = on_error e w3.
Proof. intros H. unfold sendMessage. by rewrite H. Qed.

(** [sendMessage], once the loop has ended in an error. *)
Lemma sendMessage_failed (Date_parse : string -> option Z)
    (Number_toString : float -> string)
    (startChat : list History.Content -> outcome unit) (session : list Reply)
    (userMessage persona : string) (history : list History.Content) (w : World) e acc w3 :
  startChat (History.normalizeHistory history) = Return tt ->
  converse Date_parse Number_toString session
           (UserMessage (History.normalizeHistory history) userMessage)
           [] (acquire w) = (Throw e, acc, w3) ->
  sendMessage Date_parse Number_toString startChat session userMessage persona history w
  = on_error e w3.
Proof.
  intros Hchat H. apply (sendMessage_caught _ _ _ _ _ _ _ _ _ acc).
  rewrite attempt_started by done. exact H.
Qed.





(** C10: when the first reply asks for tool calls and a later request of
    the same turn fails, the answer carries an apology and no action,
    although the actions recorded by the first round were in the log when
    the failure came; every row the first round stored is still stored
    when the call returns, and the store is as the failure left it. The
    chat is one that [startChat] has opened. *)
Theorem failed_turn_discards_actions (Date_parse : string -> option Z)
    (Number_toString : float -> string)
    (startChat : list History.Content -> outcome unit)
    (reply : Reply) (session : list Reply) (userMessage persona : string)
    (history : list History.Content) (w : World) response e acc w3 :
  startChat (History.normalizeHistory history) = Return tt ->
  body reply = Return response ->
  functionCalls response <> [] ->
  let first := round Date_parse Number_toString (functionCalls response) []
                 (exchange (UserMessage (History.normalizeHistory history) userMessage)
                           (Some reply) (acquire w)).2 in
  converse Date_parse Number_toString session (FunctionResponses first.1.1) first.1.2 first.2
  = (Throw e, acc, w3) ->
  let result := sendMessage Date_parse Number_toString startChat (reply :: session)
                  userMessage persona history w in
  actions result.1 = []
  /\ answer_text result.1 ∈ [quota_text; key_text; apology e]
  /\ first.1.2 `prefix_of` acc
  /\ rows_kept (store first.2) (store result.2)
  /\ store result.2 = store w3.
Proof.
  intros Hchat Hbody Hcalls first Hlater result.
  assert (Hloop : converse Date_parse Number_toString (reply :: session)
                    (UserMessage (History.normalizeHistory history) userMessage) []
                    (acquire w) = (Throw e, acc, w3)).
  { rewrite (converse_round Date_parse Number_toString reply session _ [] (acquire w) response
               Hbody Hcalls).
    exact Hlater. }
  subst result. rewrite (sendMessage_failed _ _ _ _ _ _ _ _ _ _ _ Hchat Hloop).
  destruct (on_error_fields e w3) as (Hactions & Htext & Hstore & _).
  pose proof (converse_grows Date_parse Number_toString session (FunctionResponses first.1.1)
                first.1.2 first.2) as [Hacc Hrows].
  rewrite Hlater in Hacc, Hrows. cbn in Hacc, Hrows.
  rewrite Hstore. done.
Qed.

Lemma failed_turn_discards_actions_witness :
  let w := quiet_world open_store [] in
  let result := sendMessage one_date few_numbers user_first [asks_to_log; connection_lost]
                  "I paid 250 for lunch" "FINANCIAL" [] w in
  actions result.1 = []
  /\ answer_text result.1 = apology "socket hang up"
  /\ (transactions <$> db (store result.2))
     = Some [mkTransaction "1700000000300" 250 "expense" "Food" "lunch" 1700000000300].
Proof.
  cbv zeta.
  destruct (failed_turn_discards_actions one_date few_numbers user_first asks_to_log
              [connection_lost]
              "I paid 250 for lunch" "FINANCIAL" [] (quiet_world open_store [])
              (mkResponse "" [mkCall "logTransaction" lunch_args]) "socket hang up"
              [mkAction kind_transaction lunch_args true]
              (sendMessage one_date few_numbers user_first [asks_to_log; connection_lost]
                 "I paid 250 for lunch" "FINANCIAL" [] (quiet_world open_store [])).2)
    as (Hactions & _ & _ & _ & Hstore).
  - reflexivity.
  - reflexivity.
  - discriminate.
  - vm_compute. reflexivity.
  - split; [exact Hactions|]. split; vm_compute; reflexivity.
Defined.

End OrchestratorFacts.

Module EventLoopFacts.
Import Js Gemini EventLoop Samples GovernorFacts.

(** On a single call the event loop agrees with the caller running alone. *)
Lemma issue_order_single (g : GeminiService) (t : Z) :
  issue_order g [t] = [(0%nat, permit_time g t)].
Proof.
  unfold permit_time. rewrite await_waitForRateLimit.
  unfold issue_order, minRequestInterval.
  destruct (quotaResetTime g >? t) eqn:Hq;
    destruct (t - lastRequestTime g <? 3000) eqn:Hs;
    repeat first
      [ progress unfold arrive, fire, settle, waitForRateLimit, spacing, stamp,
          minRequestInterval
      | progress cbn [run pop_earliest timers service permits due caller resume
                      length Nat.mul Nat.add app fst snd lastRequestTime
                      quotaResetTime set_quotaResetTime set_lastRequestTime]
      | rewrite Hq | rewrite Hs ];
    repeat f_equal; lia.
Qed.

(** C2 fails on the code. Three calls one millisecond apart on a fresh
    service: the second and the third both read the stamp of the first
    while it is the latest, sleep to the same instant and send together.
    With a cooldown pending, a call that arrives later can send first.
    And one call alone sends the results of its tools without waiting:
    its two requests are as far apart as the first reply took. *)
Theorem rapid_calls_share_an_instant :
  issue_order new_GeminiService [morning; morning + 1; morning + 2]
  = [(0%nat, morning); (1%nat, morning + 3000); (2%nat, morning + 3000)]
  /\ spaced (snd <$> issue_order new_GeminiService [morning; morning + 1; morning + 2])
     = false
  /\ issue_order (mkGemini morning (morning + 60500) None ∅)
                 [morning + 1000; morning + 5000]
     = [(1%nat, morning + 60500); (0%nat, morning + 62500)]
  /\ fifo (issue_order (mkGemini morning (morning + 60500) None ∅)
                       [morning + 1000; morning + 5000])
     = false
  /\ issued_at <$> requests (sendMessage one_date few_numbers user_first [asks_to_log; confirms]
                               "I paid 250 for lunch" "FINANCIAL" []
                               (quiet_world open_store [])).2
     = [morning; morning + 300].
Proof. repeat split; vm_compute; reflexivity. Qed.

End EventLoopFacts.

(** * Further properties of the record store *)

Module StoreFacts.
Import Js Database Samples StoreSpec DatabaseFacts.

#[global] Instance asc_transitive {R} (col : R -> Z) : Transitive (asc col).
Proof. unfold asc. intros a b c. lia. Qed.

#[global] Instance asc_total {R} (col : R -> Z) : Total (asc col).
Proof. unfold asc. intros a b. lia. Qed.

Section Rows.
Context {R : Type} (id_of : R -> string).

Lemma filter_other_keys_absent (id : string) (rows : list R) :
  (id ∉ id_of <$> rows) -> filter (fun r => id_of r <> id) rows = rows.
Proof.
  induction rows as [|r rows IH]; intros Hnot; [reflexivity|].
  rewrite fmap_cons, not_elem_of_cons in Hnot. destruct Hnot as [Hne Hrest].
  rewrite filter_cons_True by done. by rewrite IH.
Qed.

Lemma filter_other_keys_present (id : string) (rows : list R) :
  NoDup (id_of <$> rows) -> id ∈ id_of <$> rows ->
  S (length (filter (fun r => id_of r <> id) rows)) = length rows.
Proof.
  induction rows as [|r rows IH]; intros Hnd Hin; [by apply elem_of_nil in Hin|].
  rewrite fmap_cons in Hnd, Hin. apply NoDup_cons in Hnd as [Hfresh Hnd].
  destruct (decide (id_of r = id)) as [Heq|Hne].
  - rewrite filter_cons_False by (intros H; by apply H).
    rewrite filter_other_keys_absent; [reflexivity|]. by rewrite <- Heq.
  - rewrite filter_cons_True by done. cbn. f_equal. apply IH; [done|].
    apply elem_of_cons in Hin as [Hin|Hin]; [by subst|done].
Qed.

Lemma filter_other_keys_NoDup (id : string) (rows : list R) :
  NoDup (id_of <$> rows) -> NoDup (id_of <$> filter (fun r => id_of r <> id) rows).
Proof.
  intros Hnd. eapply sublist_NoDup; [exact Hnd|].
  apply fmap_sublist, sublist_filter.
Qed.

Lemma insert_row_spec (table : string) (fault : option string) (row : R)
    (rows rows' : list R) :
  insert_row table id_of fault row rows = Return rows' ->
  fault = None /\ (id_of row ∉ id_of <$> rows) /\ rows' = rows ++ [row].
Proof.
  unfold insert_row. destruct fault; [discriminate|].
  case_bool_decide; [discriminate|]. by intros [= <-].
Qed.

Lemma insert_row_NoDup (table : string) (fault : option string) (row : R)
    (rows rows' : list R) :
  NoDup (id_of <$> rows) ->
  insert_row table id_of fault row rows = Return rows' ->
  NoDup (id_of <$> rows').
Proof.
  intros Hnd Hins. apply insert_row_spec in Hins as (_ & Hfresh & ->).
  rewrite fmap_app. apply NoDup_app. split; [done|]. split; [|apply NoDup_singleton].
  intros x Hx Hin. apply list_elem_of_singleton in Hin. by subst.
Qed.

End Rows.

(** X1: deleting by id, when the driver accepts the statement, succeeds
    and leaves in each table exactly the rows with another id, in their
    order; an id that is not stored changes nothing, and with unique ids a
    stored id removes exactly one row. Shown for transactions, schedules
    and journal entries. *)
Theorem delete_removes_exactly_that_row (faults : Faults) (id : string)
    (svc : Service) (tb : Tables) :
  db svc = Some tb ->
  faults 0%nat = None ->
  (deleteTransaction faults id svc
   = (Return tt,
      mkService (Some (mkTables (filter (fun r => tx_id r <> id) (transactions tb))
                                (schedules tb) (journal_entries tb) (chat_messages tb)))
                (initialized svc))
   /\ ((id ∉ tx_id <$> transactions tb) ->
       filter (fun r => tx_id r <> id) (transactions tb) = transactions tb)
   /\ (NoDup (tx_id <$> transactions tb) -> id ∈ tx_id <$> transactions tb ->
       S (length (filter (fun r => tx_id r <> id) (transactions tb)))
       = length (transactions tb)))
  /\ (deleteSchedule faults id svc
      = (Return tt,
         mkService (Some (mkTables (transactions tb)
                                   (filter (fun r => sc_id r <> id) (schedules tb))
                                   (journal_entries tb) (chat_messages tb)))
                   (initialized svc))
      /\ ((id ∉ sc_id <$> schedules tb) ->
          filter (fun r => sc_id r <> id) (schedules tb) = schedules tb)
      /\ (NoDup (sc_id <$> schedules tb) -> id ∈ sc_id <$> schedules tb ->
          S (length (filter (fun r => sc_id r <> id) (schedules tb)))
          = length (schedules tb)))
  /\ (deleteJournalEntry faults id svc
      = (Return tt,
         mkService (Some (mkTables (transactions tb) (schedules tb)
                                   (filter (fun r => je_id r <> id) (journal_entries tb))
                                   (chat_messages tb)))
                   (initialized svc))
      /\ ((id ∉ je_id <$> journal_entries tb) ->
          filter (fun r => je_id r <> id) (journal_entries tb) = journal_entries tb)
      /\ (NoDup (je_id <$> journal_entries tb) -> id ∈ je_id <$> journal_entries tb ->
          S (length (filter (fun r => je_id r <> id) (journal_entries tb)))
          = length (journal_entries tb))).
Proof.
  intros Hdb Hok.
  unfold deleteTransaction, deleteSchedule, deleteJournalEntry, delete_row.
  rewrite Hdb, Hok.
  repeat split;
    first [ apply filter_other_keys_absent | apply filter_other_keys_present ].
Qed.

Lemma delete_removes_exactly_that_row_witness :
  deleteTransaction no_faults "1" two_transactions
  = (Return tt, mkService (Some (mkTables [salary] [] [] [])) true)
  /\ deleteTransaction no_faults "7" two_transactions
     = (Return tt, two_transactions).
Proof.
  destruct (delete_removes_exactly_that_row no_faults "1" two_transactions
              (mkTables [lunch; salary] [] [] []) eq_refl eq_refl) as ((Hdel & _) & _).
  destruct (delete_removes_exactly_that_row no_faults "7" two_transactions
              (mkTables [lunch; salary] [] [] []) eq_refl eq_refl) as ((Hdel' & _) & _).
  split; [exact Hdel|exact Hdel'].
Defined.

Lemma order_asc_perm {R} (col : R -> Z) (rows : list R) :
  order_asc col rows ≡ₚ rows.
Proof. apply merge_sort_Permutation. Qed.

Lemma order_asc_sorted {R} (col : R -> Z) (rows : list R) :
  StronglySorted (asc col) (order_asc col rows).
Proof. apply StronglySorted_merge_sort; apply _. Qed.

Lemma StronglySorted_take {A} (rel : relation A) (n : nat) (l : list A) :
  StronglySorted rel l -> StronglySorted rel (take n l).
Proof.
  intros Hs. rewrite <- (take_drop n l) in Hs. by apply StronglySorted_app_1_l in Hs.
Qed.

(** X2: when the driver answers, the list operations return every stored
    row exactly once, transactions and journal entries newest first,
    schedules oldest first; the chat list is newest first, holds at most a
    hundred stored messages, every message left out is no newer than any
    listed one, and nothing is left out of a table of at most a hundred. *)
Theorem lists_are_complete_and_ordered (faults : Faults) (svc : Service) (tb : Tables) :
  db svc = Some tb ->
  faults 0%nat = None ->
  (exists l, getTransactions faults svc = Return l
             /\ l ≡ₚ transactions tb /\ StronglySorted (desc tx_date) l)
  /\ (exists l, getSchedules faults svc = Return l
                /\ l ≡ₚ schedules tb /\ StronglySorted (asc sc_date) l)
  /\ (exists l, getJournalEntries faults svc = Return l
                /\ l ≡ₚ journal_entries tb /\ StronglySorted (desc je_date) l)
  /\ (exists l rest, getChatMessages faults svc = Return l
                /\ (length l <= retention)%nat
                /\ StronglySorted (desc cm_timestamp) l
                /\ l ++ rest ≡ₚ chat_messages tb
                /\ (forall m k, m ∈ rest -> k ∈ l -> cm_timestamp m <= cm_timestamp k)
                /\ ((length (chat_messages tb) <= retention)%nat -> rest = [])).
Proof.
  intros Hdb Hok.
  unfold getTransactions, getSchedules, getJournalEntries, getChatMessages, select_all.
  rewrite Hdb, Hok. split; [|split; [|split]].
  - eexists. split; [reflexivity|]. split; [apply order_desc_perm|apply order_desc_sorted].
  - eexists. split; [reflexivity|]. split; [apply order_asc_perm|apply order_asc_sorted].
  - eexists. split; [reflexivity|]. split; [apply order_desc_perm|apply order_desc_sorted].
  - exists (take retention (order_desc cm_timestamp (chat_messages tb))),
           (drop retention (order_desc cm_timestamp (chat_messages tb))).
    split; [reflexivity|].
    pose proof (order_desc_sorted cm_timestamp (chat_messages tb)) as Hsorted.
    pose proof (order_desc_perm cm_timestamp (chat_messages tb)) as Hperm.
    split; [rewrite length_take; lia|].
    split; [by apply StronglySorted_take|].
    split; [by rewrite take_drop|].
    split.
    + intros m k Hm Hk. rewrite <- (take_drop retention) in Hsorted.
      apply (StronglySorted_app_1_elem_of _ _ _ k m Hsorted Hk Hm).
    + intros Hsmall. apply drop_ge. rewrite (Permutation_length Hperm). exact Hsmall.
Qed.

Lemma lists_are_complete_and_ordered_witness :
  getTransactions no_faults two_transactions = Return [salary; lunch]
  /\ exists l, getTransactions no_faults two_transactions = Return l
               /\ l ≡ₚ [lunch; salary] /\ StronglySorted (desc tx_date) l.
Proof.
  split; [vm_compute; reflexivity|].
  destruct (lists_are_complete_and_ordered no_faults two_transactions
              (mkTables [lunch; salary] [] [] []) eq_refl eq_refl) as (Htx & _).
  exact Htx.
Defined.

(** X3: an accepted [addTransaction] returns the decimal text of the
    clock as the id and stores one row carrying that id, the given amount
    (any number but NaN), type, category and date, and the description or
    the empty text; the row is then in the list [getTransactions] returns,
    which has grown by one. *)
Theorem addTransaction_then_list (faults : Faults) (now : Z) (svc : Service)
    (tb : Tables) (amount : float) (type category : string) (description : option string)
    (date : Z) :
  db svc = Some tb ->
  faults 0%nat = None ->
  (pretty now ∉ tx_id <$> transactions tb) ->
  is_nan amount = false ->
  let row := mkTransaction (pretty now) amount type category (default "" description) date in
  let added := addTransaction faults now
                 (mkNewTransaction (Some amount) (Some type) (Some category) description date)
                 svc in
  added.1 = Return (pretty now)
  /\ db added.2 = Some (mkTables (transactions tb ++ [row]) (schedules tb)
                                 (journal_entries tb) (chat_messages tb))
  /\ exists l, getTransactions faults added.2 = Return l
               /\ row ∈ l /\ length l = S (length (transactions tb)).
Proof.
  intros Hdb Hok Hfresh Hnumber row added. subst row added.
  unfold addTransaction, insert_row, transaction_row, required, bound_real.
  cbn [nt_amount nt_type nt_category nt_description nt_date].
  rewrite Hdb, Hok, Hnumber. cbn.
  rewrite bool_decide_eq_false_2 by done. cbn.
  split; [reflexivity|]. split; [reflexivity|].
  unfold getTransactions, select_all. cbn [db transactions snd]. rewrite Hok.
  eexists. split; [reflexivity|].
  pose proof (order_desc_perm tx_date
                (transactions tb ++ [mkTransaction (pretty now) amount type category
                                       (default "" description) date])) as Hperm.
  split.
  - rewrite Hperm. apply elem_of_app. right. left.
  - unfold order_desc in Hperm. rewrite (Permutation_length Hperm), length_app. cbn. lia.
Qed.

Lemma addTransaction_then_list_witness :
  let added := addTransaction no_faults 1700000000000 new_lunch two_transactions in
  added.1 = Return "1700000000000"
  /\ getTransactions no_faults added.2
     = Return [mkTransaction "1700000000000" 250 "expense" "Food" "" 1700000000000;
               salary; lunch].
Proof.
  cbv zeta.
  destruct (addTransaction_then_list no_faults 1700000000000 two_transactions
              (mkTables [lunch; salary] [] [] []) 250%float "expense" "Food" None
              1700000000000 eq_refl eq_refl) as (Hid & _).
  - refine (bool_decide_unpack _ _). vm_compute. exact I.
  - reflexivity.
  - split; [exact Hid|]. vm_compute. reflexivity.
Defined.

(** X4: the id of a new transaction, schedule or journal entry is the
    clock in milliseconds, so after an accepted add a second add made at
    the same [Date.now()] is rejected, whatever it carries, and stores
    nothing. *)
Theorem add_twice_in_one_millisecond (faults faults' : Faults) (now : Z) (svc : Service) :
  (forall t t' id svc1,
     addTransaction faults now t svc = (Return id, svc1) ->
     throws (addTransaction faults' now t' svc1).1
     /\ (addTransaction faults' now t' svc1).2 = svc1)
  /\ (forall s s' id svc1,
        addSchedule faults now s svc = (Return id, svc1) ->
        throws (addSchedule faults' now s' svc1).1
        /\ (addSchedule faults' now s' svc1).2 = svc1)
  /\ (forall j j' id svc1,
        addJournalEntry faults now j svc = (Return id, svc1) ->
        throws (addJournalEntry faults' now j' svc1).1
        /\ (addJournalEntry faults' now j' svc1).2 = svc1).
Proof.
  split; [|split].
  - intros t t' id svc1. unfold addTransaction at 1.
    destruct (db svc) as [tb|]; [|discriminate].
    destruct (faults 0%nat); [discriminate|].
    destruct (transaction_row (pretty now) t) as [row|] eqn:Hrow; [|discriminate].
    destruct (insert_row _ _ _ _ _) as [rows|] eqn:Hins; [|discriminate].
    intros [= <- <-]. apply insert_row_spec in Hins as (_ & _ & ->).
    assert (Hid : tx_id row = pretty now).
    { unfold transaction_row, required in Hrow.
      destruct (bound_real (nt_amount t)), (nt_type t), (nt_category t); try discriminate.
      by injection Hrow as <-. }
    unfold addTransaction, insert_row. cbn [db].
    destruct (faults' 0%nat); [done|].
    destruct (transaction_row (pretty now) t') as [row'|] eqn:Hrow'; [|done].
    assert (Hid' : tx_id row' = pretty now).
    { unfold transaction_row, required in Hrow'.
      destruct (bound_real (nt_amount t')), (nt_type t'), (nt_category t');
        try discriminate.
      by injection Hrow' as <-. }
    cbn [transactions]. rewrite bool_decide_eq_true_2; [done|].
    rewrite Hid', fmap_app, <- Hid. apply elem_of_app. right. left.
  - intros s s' id svc1. unfold addSchedule at 1.
    destruct (db svc) as [tb|]; [|discriminate].
    destruct (ns_date s) as [date|]; [|discriminate].
    destruct (faults 0%nat); [discriminate|].
    destruct (schedule_row (pretty now) date s) as [row|] eqn:Hrow; [|discriminate].
    destruct (insert_row _ _ _ _ _) as [rows|] eqn:Hins; [|discriminate].
    intros [= <- <-]. apply insert_row_spec in Hins as (_ & _ & ->).
    assert (Hid : sc_id row = pretty now).
    { unfold schedule_row, required in Hrow.
      destruct (ns_title s), (ns_time s); try discriminate.
      by injection Hrow as <-. }
    unfold addSchedule, insert_row. cbn [db].
    destruct (ns_date s') as [date'|]; [|done].
    destruct (faults' 0%nat); [done|].
    destruct (schedule_row (pretty now) date' s') as [row'|] eqn:Hrow'; [|done].
    assert (Hid' : sc_id row' = pretty now).
    { unfold schedule_row, required in Hrow'.
      destruct (ns_title s'), (ns_time s'); try discriminate.
      by injection Hrow' as <-. }
    cbn [schedules]. rewrite bool_decide_eq_true_2; [done|].
    rewrite Hid', fmap_app, <- Hid. apply elem_of_app. right. left.
  - intros j j' id svc1. unfold addJournalEntry at 1.
    destruct (db svc) as [tb|]; [|discriminate].
    destruct (faults 0%nat); [discriminate|].
    destruct (journal_row (pretty now) j) as [row|] eqn:Hrow; [|discriminate].
    destruct (insert_row _ _ _ _ _) as [rows|] eqn:Hins; [|discriminate].
    intros [= <- <-]. apply insert_row_spec in Hins as (_ & _ & ->).
    assert (Hid : je_id row = pretty now).
    { unfold journal_row, required in Hrow.
      destruct (nj_content j), (nj_mood j); try discriminate.
      by injection Hrow as <-. }
    unfold addJournalEntry, insert_row. cbn [db].
    destruct (faults' 0%nat); [done|].
    destruct (journal_row (pretty now) j') as [row'|] eqn:Hrow'; [|done].
    assert (Hid' : je_id row' = pretty now).
    { unfold journal_row, required in Hrow'.
      destruct (nj_content j'), (nj_mood j'); try discriminate.
      by injection Hrow' as <-. }
    cbn [journal_entries]. rewrite bool_decide_eq_true_2; [done|].
    rewrite Hid', fmap_app, <- Hid. apply elem_of_app. right. left.
Qed.

Lemma add_twice_in_one_millisecond_witness :
  let first := addTransaction no_faults 1700000000000 new_lunch two_transactions in
  first.1 = Return "1700000000000"
  /\ throws (addTransaction no_faults 1700000000000
               (mkNewTransaction (Some 90%float) (Some "expense") (Some "Transport") None
                                 1700000000000) first.2).1
  /\ (addTransaction no_faults 1700000000000
        (mkNewTransaction (Some 90%float) (Some "expense") (Some "Transport") None
                          1700000000000) first.2).2 = first.2.
Proof.
  cbv zeta.
  destruct (add_twice_in_one_millisecond no_faults no_faults 1700000000000 two_transactions)
    as (Htx & _).
  split; [vm_compute; reflexivity|].
  apply (Htx new_lunch _ "1700000000000"). vm_compute. reflexivity.
Defined.

(** X5: every operation that writes keeps the ids of each table unique,
    whether it succeeds or fails. *)
Theorem writes_keep_ids_unique (faults : Faults) (svc : Service) :
  service_keys_unique svc ->
  (forall now t, service_keys_unique (addTransaction faults now t svc).2)
  /\ (forall now s, service_keys_unique (addSchedule faults now s svc).2)
  /\ (forall now j, service_keys_unique (addJournalEntry faults now j svc).2)
  /\ (forall m, service_keys_unique (addChatMessage faults m svc).2)
  /\ (forall id, service_keys_unique (deleteTransaction faults id svc).2)
  /\ (forall id, service_keys_unique (deleteSchedule faults id svc).2)
  /\ (forall id, service_keys_unique (deleteJournalEntry faults id svc).2)
  /\ service_keys_unique (clearAllData faults svc).2.
Proof.
  unfold service_keys_unique. intros Hu.
  destruct (db svc) as [tb|] eqn:Hdb.
  2:{ unfold addTransaction, addSchedule, addJournalEntry, addChatMessage,
        deleteTransaction, deleteSchedule, deleteJournalEntry, clearAllData.
      rewrite Hdb. cbn. rewrite Hdb. done. }
  destruct Hu as (Htx & Hsc & Hje & Hcm).
  assert (Hsame : match db svc with Some tb => keys_unique tb | None => True end).
  { rewrite Hdb. done. }
  repeat split.
  - intros now t. unfold addTransaction. rewrite Hdb.
    destruct (faults 0%nat); [exact Hsame|].
    destruct (transaction_row _ _) as [row|]; [|exact Hsame].
    destruct (insert_row _ _ _ _ _) as [rows|] eqn:Hins; [|exact Hsame].
    cbn. repeat split; try done. by eapply insert_row_NoDup.
  - intros now s. unfold addSchedule. rewrite Hdb.
    destruct (ns_date s); [|exact Hsame].
    destruct (faults 0%nat); [exact Hsame|].
    destruct (schedule_row _ _ _) as [row|]; [|exact Hsame].
    destruct (insert_row _ _ _ _ _) as [rows|] eqn:Hins; [|exact Hsame].
    cbn. repeat split; try done. by eapply insert_row_NoDup.
  - intros now j. unfold addJournalEntry. rewrite Hdb.
    destruct (faults 0%nat); [exact Hsame|].
    destruct (journal_row _ _) as [row|]; [|exact Hsame].
    destruct (insert_row _ _ _ _ _) as [rows|] eqn:Hins; [|exact Hsame].
    cbn. repeat split; try done. by eapply insert_row_NoDup.
  - intros m. unfold addChatMessage. rewrite Hdb.
    destruct (insert_row _ _ _ _ _) as [rows|] eqn:Hins; [|exact Hsame].
    pose proof (insert_row_NoDup cm_id _ _ _ _ _ Hcm Hins) as Hrows.
    destruct (faults 1%nat); cbn; repeat split; try done. by apply trim_NoDup.
  - intros id. unfold deleteTransaction, delete_row. rewrite Hdb.
    destruct (faults 0%nat); [exact Hsame|].
    cbn. repeat split; try done. by apply filter_other_keys_NoDup.
  - intros id. unfold deleteSchedule, delete_row. rewrite Hdb.
    destruct (faults 0%nat); [exact Hsame|].
    cbn. repeat split; try done. by apply filter_other_keys_NoDup.
  - intros id. unfold deleteJournalEntry, delete_row. rewrite Hdb.
    destruct (faults 0%nat); [exact Hsame|].
    cbn. repeat split; try done. by apply filter_other_keys_NoDup.
  - unfold clearAllData. rewrite Hdb. cbv zeta.
    destruct (faults 0%nat); [exact Hsame|].
    destruct (faults 1%nat); [|destruct (faults 2%nat); [|destruct (faults 3%nat)]];
      cbn; repeat split; try done; apply NoDup_nil_2.
Qed.

Lemma writes_keep_ids_unique_witness :
  service_keys_unique two_transactions
  /\ service_keys_unique
       (addTransaction no_faults 1700000000000 new_lunch two_transactions).2.
Proof.
  assert (Hu : service_keys_unique two_transactions).
  { repeat split; refine (bool_decide_unpack _ _); vm_compute; exact I. }
  split; [exact Hu|].
  destruct (writes_keep_ids_unique no_faults two_transactions Hu) as (Hadd & _).
  apply Hadd.
Defined.

(** The trim leaves a table of at most a hundred rows alone. *)
Lemma trim_small (rows : list ChatMessage) :
  (length rows <= retention)%nat -> trim rows = rows.
Proof.
  intros Hlen. unfold trim, newest_ids.
  pose proof (order_desc_perm cm_timestamp rows) as Hperm.
  rewrite take_ge by (rewrite (Permutation_length Hperm); exact Hlen).
  induction rows as [|r rows IH] in Hperm |- *; [reflexivity|].
  assert (Hall : forall l : list ChatMessage,
            (forall x, x ∈ l -> cm_id x ∈ cm_id <$> order_desc cm_timestamp (r :: rows)) ->
            filter (fun x => cm_id x ∈ cm_id <$> order_desc cm_timestamp (r :: rows)) l = l).
  { induction l as [|x l IHl]; intros Hin; [reflexivity|].
    rewrite filter_cons_True by (apply Hin; left).
    f_equal. apply IHl. intros y Hy. apply Hin. by right. }
  apply Hall. intros x Hx. apply list_elem_of_fmap_2. by rewrite Hperm.
Qed.

(** X6: while fewer than a hundred messages are stored, an accepted
    [addChatMessage] appends the message and deletes nothing. *)
Theorem addChatMessage_below_capacity (faults : Faults) (message : ChatMessage)
    (svc svc' : Service) :
  (length (stored_messages svc) < retention)%nat ->
  addChatMessage faults message svc = (Return tt, svc') ->
  stored_messages svc' = stored_messages svc ++ [message].
Proof.
  intros Hlen Hadd. apply addChatMessage_success in Hadd as [_ ->].
  apply trim_small. rewrite length_app. cbn. lia.
Qed.

Lemma addChatMessage_below_capacity_witness :
  stored_messages (addChatMessage no_faults newest_message partial_store).2
  = stored_messages partial_store ++ [newest_message].
Proof.
  apply (addChatMessage_below_capacity no_faults).
  - vm_compute. lia.
  - vm_compute. reflexivity.
Defined.

(** Of a hundred and one rows with unique ids the trim deletes one row of
    least timestamp. *)
Lemma trim_overfull (rows : list ChatMessage) :
  length rows = S retention ->
  NoDup (cm_id <$> rows) ->
  exists victim,
    victim ∈ rows
    /\ (forall m, m ∈ rows -> cm_timestamp victim <= cm_timestamp m)
    /\ trim rows = filter (fun m => cm_id m <> cm_id victim) rows.
Proof.
  intros Hlen Hnd. unfold retention in *.
  set (sorted := order_desc cm_timestamp rows).
  assert (Hperm : sorted ≡ₚ rows) by apply order_desc_perm.
  assert (Hsorted : StronglySorted (desc cm_timestamp) sorted) by apply order_desc_sorted.
  assert (Hlen' : length sorted = 101%nat) by (by rewrite (Permutation_length Hperm)).
  set (kept := take 100 sorted).
  assert (Hvictim : exists victim, sorted = kept ++ [victim]).
  { destruct (drop 100 sorted) as [|v [|? ?]] eqn:Hdrop.
    - apply (f_equal length) in Hdrop. rewrite length_drop, Hlen' in Hdrop.
      cbn in Hdrop. lia.
    - exists v. unfold kept. by rewrite <- Hdrop, take_drop.
    - apply (f_equal length) in Hdrop. rewrite length_drop, Hlen' in Hdrop.
      cbn in Hdrop. lia. }
  destruct Hvictim as [victim Hsplit]. exists victim.
  assert (Hnd' : NoDup (cm_id <$> (kept ++ [victim]))) by (by rewrite <- Hsplit, Hperm).
  assert (Hmem : forall r, r ∈ rows <-> r ∈ kept \/ r = victim).
  { intros r. rewrite <- Hperm, Hsplit, elem_of_app, list_elem_of_singleton. done. }
  assert (Hfresh : cm_id victim ∉ cm_id <$> kept).
  { rewrite fmap_app in Hnd'. apply NoDup_app in Hnd' as (_ & Hdisj & _).
    intros Hin. apply (Hdisj _ Hin). cbn. left. }
  split; [apply Hmem; by right|]. split.
  { intros m Hm. apply Hmem in Hm as [Hk| ->]; [|lia].
    rewrite Hsplit in Hsorted.
    apply (StronglySorted_app_1_elem_of _ _ _ m victim Hsorted Hk). left. }
  unfold trim, newest_ids, retention. fold sorted. fold kept.
  apply filter_ext_in. intros r Hr. split.
  - intros Hin Heq. apply Hfresh. by rewrite <- Heq.
  - intros Hne. apply Hmem in Hr as [Hk| ->]; [by apply list_elem_of_fmap_2|done].
Qed.

(** X7: on a store of exactly a hundred messages, an accepted
    [addChatMessage] of a message strictly older than all of them leaves
    the store as it was: the message itself is the one deleted. *)
Theorem addChatMessage_older_than_all (faults : Faults) (message : ChatMessage)
    (svc svc' : Service) :
  NoDup (cm_id <$> stored_messages svc) ->
  length (stored_messages svc) = retention ->
  (forall m, m ∈ stored_messages svc -> cm_timestamp message < cm_timestamp m) ->
  addChatMessage faults message svc = (Return tt, svc') ->
  stored_messages svc' = stored_messages svc.
Proof.
  intros Hnd Hfull Holder Hadd.
  apply addChatMessage_success in Hadd as [Hfresh ->].
  set (old := stored_messages svc) in *.
  assert (Hnd' : NoDup (cm_id <$> (old ++ [message]))).
  { rewrite fmap_app. apply NoDup_app. split; [done|]. split; [|apply NoDup_singleton].
    intros x Hx Hin. apply list_elem_of_singleton in Hin. by subst. }
  destruct (trim_overfull (old ++ [message])) as (victim & Hin & Hleast & ->);
    [rewrite length_app, Hfull; unfold retention; reflexivity|done|].
  assert (Hv : victim = message).
  { apply elem_of_app in Hin as [Hin|Hin]; [|by apply list_elem_of_singleton in Hin].
    specialize (Holder victim Hin).
    specialize (Hleast message). ospecialize (Hleast _);
      [apply elem_of_app; right; left|]. lia. }
  subst victim. rewrite filter_app.
  rewrite (filter_other_keys_absent cm_id) by done.
  rewrite filter_cons_False by (intros H; by apply H).
  by rewrite filter_nil, app_nil_r.
Qed.

Lemma addChatMessage_older_than_all_witness :
  (addChatMessage no_faults ancient_message full_store).1 = Return tt
  /\ stored_messages (addChatMessage no_faults ancient_message full_store).2
     = stored_messages full_store.
Proof.
  split; [vm_compute; reflexivity|].
  apply (addChatMessage_older_than_all no_faults ancient_message).
  - refine (bool_decide_unpack _ _). vm_compute. exact I.
  - vm_compute. reflexivity.
  - apply Forall_forall. refine (bool_decide_unpack _ _). vm_compute. exact I.
  - vm_compute. reflexivity.
Defined.

(** X8: [init] does nothing once the service is initialized, whatever the
    file holds by then; a first [init] that succeeds makes the rows of the
    file visible to the list operations; and an [init] that opened the
    file but failed to create the tables leaves the handle set, so that
    operations are attempted instead of being refused, while a later
    [init] opens the file again. *)
Theorem init_outcomes (disk : Tables) (svc : Service) :
  (forall faults, initialized svc = true -> init faults disk svc = (Return tt, svc))
  /\ (forall faults, initialized svc = false ->
        faults 0%nat = None -> faults 1%nat = None ->
        init faults disk svc = (Return tt, mkService (Some disk) true)
        /\ exists l, getTransactions no_faults (init faults disk svc).2 = Return l
                     /\ l ≡ₚ transactions disk)
  /\ (forall faults e, initialized svc = false ->
        faults 0%nat = None -> faults 1%nat = Some e ->
        init faults disk svc = (Throw e, mkService (Some disk) false)
        /\ ~ throws (getTransactions no_faults (init faults disk svc).2)
        /\ forall disk', init no_faults disk' (init faults disk svc).2
                         = (Return tt, mkService (Some disk') true)).
Proof.
  unfold init. split; [|split].
  - intros faults ->. reflexivity.
  - intros faults -> -> ->. cbn. split; [reflexivity|].
    eexists. split; [reflexivity|]. apply order_desc_perm.
  - intros faults e -> -> ->. cbn. split; [reflexivity|]. split; [|reflexivity].
    intros H. exact H.
Qed.

Lemma init_outcomes_witness :
  init no_faults (mkTables [lunch] [] [] []) fresh_service
  = (Return tt, one_transaction)
  /\ init no_faults empty_tables one_transaction = (Return tt, one_transaction).
Proof.
  destruct (init_outcomes (mkTables [lunch] [] [] []) fresh_service) as (_ & Hfirst & _).
  destruct (init_outcomes empty_tables one_transaction) as (Hagain & _).
  split.
  - destruct (Hfirst no_faults eq_refl eq_refl eq_refl) as [Hinit _]. exact Hinit.
  - apply Hagain. reflexivity.
Defined.

End StoreFacts.

(** * Further properties of the governor *)

Module PermitFacts.
Import Js Gemini Samples GovernorFacts.

(** X9: a caller that runs alone leaves [waitForRateLimit] at least 3000 ms
    after the stamp it found, and stamps its own leaving time; so two
    acquisitions that do not overlap are at least 3000 ms apart, whenever
    the second one is entered. *)
Theorem permits_in_sequence_are_spaced (g : GeminiService) (t1 t2 : Z) :
  let g1 := (await_alone (waitForRateLimit g t1) t1).1.1 in
  lastRequestTime g + minRequestInterval <= permit_time g t1
  /\ lastRequestTime g1 = permit_time g t1
  /\ permit_time g t1 + minRequestInterval <= permit_time g1 t2.
Proof.
  unfold permit_time. rewrite !await_waitForRateLimit. cbn.
  unfold minRequestInterval.
  repeat match goal with
  | |- context [?a >? ?b] => destruct (Z.gtb_spec a b)
  | |- context [?a <? ?b] => destruct (Z.ltb_spec a b)
  end; cbn; repeat split; try lia.
Qed.

(** X10: with a clock that has not run back past the last stamp, a caller
    alone waits at most the rest of the cooldown plus 3000 ms; it does not
    wait at all when no cooldown is pending and the last stamp is 3000 ms
    old; and a cooldown that was pending is cleared by the caller that
    waited for it. *)
Theorem permit_wait_is_bounded (g : GeminiService) (t : Z) :
  lastRequestTime g <= t ->
  let after := await_alone (waitForRateLimit g t) t in
  permit_time g t <= Z.max t (quotaResetTime g) + minRequestInterval
  /\ (quotaResetTime g <= t -> lastRequestTime g + minRequestInterval <= t ->
      after = (set_lastRequestTime t g, tt, t))
  /\ (t < quotaResetTime g -> quotaResetTime after.1.1 = 0).
Proof.
  intros Hclock after. subst after.
  unfold permit_time. rewrite !await_waitForRateLimit. cbn.
  unfold minRequestInterval, set_lastRequestTime.
  repeat match goal with
  | |- context [?a >? ?b] => destruct (Z.gtb_spec a b)
  | |- context [?a <? ?b] => destruct (Z.ltb_spec a b)
  end; cbn; repeat split; intros; try lia; try (repeat f_equal; lia).
Qed.

Lemma permit_wait_is_bounded_witness :
  await_alone (waitForRateLimit (mkGemini morning 0 None ∅) (morning + 4000)) (morning + 4000)
  = (mkGemini (morning + 4000) 0 None ∅, tt, morning + 4000)
  /\ permit_time (mkGemini morning (morning + 9000) None ∅) (morning + 1000)
     <= morning + 9000 + 3000.
Proof.
  assert (H1 : lastRequestTime (mkGemini morning 0 None ∅) <= morning + 4000)
    by (vm_compute; discriminate).
  assert (H2 : lastRequestTime (mkGemini morning (morning + 9000) None ∅) <= morning + 1000)
    by (vm_compute; discriminate).
  destruct (permit_wait_is_bounded _ _ H1) as (_ & Hidle & _).
  destruct (permit_wait_is_bounded _ _ H2) as (Hbound & _).
  split.
  - apply Hidle; vm_compute; discriminate.
  - exact Hbound.
Defined.

End PermitFacts.

(** * Further properties of the tools and of [sendMessage] *)

Module ToolFacts.
Import Js History Database Gemini Samples ServiceSpec GovernorFacts QuoteFacts
  OrchestratorFacts.

(** *** Web search *)

Lemma performWebSearch_miss (query : string) (w : World) :
  search_misses query w ->
  performWebSearch (Some query) w
  = match generateContent (search_prompt query) (acquire w) with
    | (Return text, w') =>
        (if String.eqb text "" then "No information found." else text,
         set_this (set_searchCache
                     (<[toLowerCase query := mkCached text (clock w')]>
                        (searchCache (this w'))) (this w')) w')
    | (Throw errorMsg, w') =>
        if is_quota_error errorMsg
        then (search_quota_text,
              set_this (set_quotaResetTime (clock w' + 120000) (this w')) w')
        else (search_failed_text, w')
    end.
Proof.
  intros Hmiss. unfold performWebSearch.
  destruct (searchCache (this w) !! toLowerCase query) as [c|] eqn:Hc; [|reflexivity].
  specialize (Hmiss c Hc).
  destruct (clock w - cached_timestamp c <? searchCacheDuration) eqn:Hlt; [lia|reflexivity].
Qed.

Lemma performWebSearch_hit (query : string) (w : World) (c : Cached) :
  searchCache (this w) !! toLowerCase query = Some c ->
  clock w - cached_timestamp c < searchCacheDuration ->
  performWebSearch (Some query) w = (cached_text c, w).
Proof.
  intros Hc Hfresh. unfold performWebSearch. rewrite Hc.
  destruct (clock w - cached_timestamp c <? searchCacheDuration) eqn:Hlt; [done|lia].
Qed.

(** X11: a search that misses the cache and is answered sends one request
    and returns the answer, or "No information found." when the answer is
    empty; the answer is cached as received under the lower-cased query,
    so that for thirty minutes any query equal up to the case of its ASCII
    letters returns the cached answer (the empty text, if the answer was
    empty) and sends nothing. *)
Theorem search_answers_are_cached (query : string) (w : World) (reply : Reply)
    (response : Response) :
  search_misses query w ->
  head (generate_replies w) = Some reply ->
  body reply = Return response ->
  let first := performWebSearch (Some query) w in
  first.1 = (if String.eqb (response_text response) "" then "No information found."
             else response_text response)
  /\ requests first.2
     = requests w ++ [mkRequest (permit_time (this w) (clock w)) (Prompt (search_prompt query))]
  /\ forall query' later,
       toLowerCase query' = toLowerCase query ->
       searchCache (this later) = searchCache (this first.2) ->
       clock later - clock first.2 < searchCacheDuration ->
       performWebSearch (Some query') later = (response_text response, later).
Proof.
  intros Hmiss Hhead Hbody first. subst first.
  destruct (acquire_fields w) as (Hclock & _ & _ & Hreplies & Hreqs & _).
  rewrite (performWebSearch_miss query w Hmiss).
  unfold generateContent, exchange. rewrite Hreplies, Hhead. cbn. rewrite Hbody. cbn.
  split; [reflexivity|]. split; [by rewrite Hreqs, Hclock|].
  intros query' later Hkey Hcache Hsoon.
  apply (performWebSearch_hit query' later
           (mkCached (response_text response)
                     (clock (acquire w) + Z.of_N (latency reply)))).
  - rewrite Hcache, Hkey. apply lookup_insert_eq.
  - exact Hsoon.
Qed.

Lemma search_answers_are_cached_witness :
  let w := quiet_world fresh_service [gold_answer] in
  let first := performWebSearch (Some "Gold Price") w in
  first.1 = "Gold is steady today."
  /\ performWebSearch (Some "GOLD price") (advance 60000 first.2)
     = ("Gold is steady today.", advance 60000 first.2)
  /\ let blank := performWebSearch (Some "Gold Price")
                    (quiet_world fresh_service [empty_answer]) in
     blank.1 = "No information found."
     /\ (performWebSearch (Some "Gold Price") (advance 60000 blank.2)).1 = "".
Proof.
  cbv zeta.
  assert (Hmiss : forall replies, search_misses "Gold Price" (quiet_world fresh_service replies)).
  { intros replies c Hc. vm_compute in Hc. discriminate. }
  destruct (search_answers_are_cached "Gold Price" (quiet_world fresh_service [gold_answer])
              gold_answer (mkResponse "Gold is steady today." []) (Hmiss _) eq_refl eq_refl)
    as (Hfirst & _ & Hlater).
  destruct (search_answers_are_cached "Gold Price" (quiet_world fresh_service [empty_answer])
              empty_answer (mkResponse "" []) (Hmiss _) eq_refl eq_refl)
    as (Hblank & _ & Hblank_later).
  split; [exact Hfirst|]. split.
  - apply Hlater; [reflexivity|reflexivity|vm_compute; reflexivity].
  - split; [exact Hblank|].
    rewrite Hblank_later; [reflexivity|reflexivity|reflexivity|vm_compute; reflexivity].
Defined.

(** X12: a search without a query sends nothing and returns the fixed
    failure text. A search whose request fails never changes the cache or
    the store: on a quota text it returns the search-quota text and sets
    the cooldown 120000 ms after the failure; on any other failure it
    returns the fixed failure text and leaves the service as the
    acquisition left it. *)
Theorem search_failures (w : World) :
  performWebSearch None w = (search_failed_text, w)
  /\ forall query e,
       search_misses query w ->
       (generateContent (search_prompt query) (acquire w)).1 = Throw e ->
       let r := performWebSearch (Some query) w in
       searchCache (this r.2) = searchCache (this w)
       /\ store r.2 = store w
       /\ (is_quota_error e = true ->
           r.1 = search_quota_text
           /\ quotaResetTime (this r.2) = clock r.2 + 120000)
       /\ (is_quota_error e = false ->
           r.1 = search_failed_text /\ this r.2 = this (acquire w)).
Proof.
  split; [reflexivity|].
  intros query e Hmiss Hfail r. subst r.
  destruct (acquire_fields w) as (_ & Hstore & _ & _ & _ & _ & Hcache & _).
  rewrite (performWebSearch_miss query w Hmiss).
  destruct (generateContent_sends (search_prompt query) (acquire w)) as (_ & Hthis & Hst).
  destruct (generateContent (search_prompt query) (acquire w)) as [[text|e'] w'];
    cbn in Hfail, Hthis, Hst; [discriminate|].
  injection Hfail as ->.
  destruct (is_quota_error e) eqn:Hq; cbn; rewrite ?Hthis, ?Hst.
  - repeat split; try done.
  - repeat split; try done.
Qed.

Lemma search_failures_witness :
  let w := quiet_world fresh_service [quota_exceeded] in
  (performWebSearch (Some "nifty today") w).1 = search_quota_text
  /\ quotaResetTime (this (performWebSearch (Some "nifty today") w).2)
     = morning + 120 + 120000.
Proof.
  cbv zeta.
  destruct (search_failures (quiet_world fresh_service [quota_exceeded])) as [_ Hfail].
  destruct (Hfail "nifty today" "[429 Too Many Requests] You exceeded your current quota")
    as (_ & _ & Hquota & _).
  - intros c Hc. vm_compute in Hc. discriminate.
  - vm_compute. reflexivity.
  - destruct (Hquota eq_refl) as [Htext Hcool].
    split; [exact Htext|]. rewrite Hcool. vm_compute. reflexivity.
Defined.

(** *** Answers without tool calls *)

(** X13: when [startChat] accepts the normalized history and the first
    reply asks for no tool, [sendMessage] returns its text with an empty
    action list, having sent exactly one request, which carried the
    normalized history and the user's message and left when the rate limit
    let it; the store and both caches are untouched. *)
Theorem sendMessage_plain_answer (Date_parse : string -> option Z)
    (Number_toString : float -> string)
    (startChat : list History.Content -> outcome unit) (reply : Reply)
    (session : list Reply) (userMessage persona : string)
    (history : list History.Content) (w : World) (response : Response) :
  startChat (History.normalizeHistory history) = Return tt ->
  body reply = Return response ->
  functionCalls response = [] ->
  let r := sendMessage Date_parse Number_toString startChat (reply :: session) userMessage
             persona history w in
  r.1 = mkAnswer (response_text response) []
  /\ requests r.2
     = requests w ++ [mkRequest (permit_time (this w) (clock w))
                                (UserMessage (History.normalizeHistory history) userMessage)]
  /\ clock r.2 = permit_time (this w) (clock w) + Z.of_N (latency reply)
  /\ store r.2 = store w
  /\ quoteCache (this r.2) = quoteCache (this w)
  /\ searchCache (this r.2) = searchCache (this w).
Proof.
  intros Hchat Hbody Hcalls r. subst r.
  destruct (acquire_fields w) as (Hclock & Hstore & _ & _ & Hreqs & Hqc & Hsc & _).
  unfold sendMessage. rewrite attempt_started by done. rewrite converse_step.
  unfold exchange.
  rewrite Hbody. cbn [fst snd]. rewrite Hcalls. cbn.
  rewrite Hreqs, Hclock, Hstore, Hqc, Hsc. repeat split.
Qed.

Lemma sendMessage_plain_answer_witness :
  let r := sendMessage one_date few_numbers user_first [plain_answer] "hello" "GENERAL" []
             (quiet_world open_store []) in
  r.1 = mkAnswer "Namaste! How can I help?" []
  /\ length (requests r.2) = 1%nat.
Proof.
  cbv zeta.
  destruct (sendMessage_plain_answer one_date few_numbers user_first plain_answer []
              "hello" "GENERAL" []
              (quiet_world open_store []) (mkResponse "Namaste! How can I help?" [])
              eq_refl eq_refl eq_refl) as (Hanswer & Hreqs & _).
  split; [exact Hanswer|]. rewrite Hreqs. reflexivity.
Defined.

(** *** The writing handlers *)

(** X14: whenever the logTransaction handler succeeds, the call carried an
    amount that is a number, a type and a category; the transactions table
    has gained exactly one row holding them, the description or the empty
    text, and the clock as date and (in decimal) as id; one action of kind
    transaction carrying the call's arguments has been appended; and the
    result names the amount and the category. *)
Theorem logTransaction_stores_the_call (Date_parse : string -> option Z)
    (Number_toString : float -> string) (args : Args)
    (acc : list AgenticAction) (w : World) result acc' w' :
  handle Date_parse Number_toString (mkCall "logTransaction" args) acc w
  = (Return result, acc', w') ->
  exists tb amount type category,
    db (store w) = Some tb
    /\ arg_amount args = Some amount
    /\ is_nan amount = false
    /\ arg_type args = Some type
    /\ arg_category args = Some category
    /\ db (store w')
       = Some (mkTables
                 (transactions tb
                  ++ [mkTransaction (pretty (clock w)) amount type category
                                    (default "" (arg_description args)) (clock w)])
                 (schedules tb) (journal_entries tb) (chat_messages tb))
    /\ acc' = acc ++ [mkAction kind_transaction args true]
    /\ result = Text ("Transaction logged: ‚Çπ" ++ Number_toString amount
                       ++ " for " ++ category)%string.
Proof.
  unfold handle. cbn [call_name call_args String.eqb Ascii.eqb Bool.eqb].
  unfold addTransaction, transaction_row, required, insert_row, bound_real.
  destruct (db (store w)) as [tb|] eqn:Hdb; [|discriminate].
  cbn [nt_amount nt_type nt_category nt_description nt_date].
  destruct (driver w 0%nat); [discriminate|].
  destruct (arg_amount args) as [amount|]; [|discriminate].
  destruct (is_nan amount) eqn:Hnumber; [discriminate|].
  destruct (arg_type args) as [type|]; [|discriminate].
  destruct (arg_category args) as [category|]; [|discriminate].
  case_bool_decide; [discriminate|].
  intros [= <- <- <-].
  exists tb, amount, type, category. repeat split. exact Hnumber.
Qed.

Lemma logTransaction_stores_the_call_witness :
  let done := handle one_date few_numbers (mkCall "logTransaction" lunch_args) []
                (quiet_world open_store []) in
  done.1.2 = [mkAction kind_transaction lunch_args true]
  /\ (transactions <$> db (store done.2))
     = Some [mkTransaction "1700000000000" 250 "expense" "Food" "lunch" 1700000000000].
Proof.
  cbv zeta.
  destruct (logTransaction_stores_the_call one_date few_numbers lunch_args []
              (quiet_world open_store [])
              (Text "Transaction logged: ‚Çπ250 for Food")
              [mkAction kind_transaction lunch_args true]
              (handle one_date few_numbers (mkCall "logTransaction" lunch_args) []
                 (quiet_world open_store [])).2)
    as (tb & amount & type & category & Hdb & Ha & _ & Ht & Hc & Hdb' & _).
  - vm_compute. reflexivity.
  - split; [vm_compute; reflexivity|]. rewrite Hdb'. cbn.
    injection Hdb as <-. injection Ha as <-. injection Ht as <-. injection Hc as <-.
    reflexivity.
Defined.

(** X15: whenever the addJournalEntry handler succeeds, the call carried a
    content and a mood, the journal table has gained exactly one row
    holding them with the clock as date and id, and one action of kind
    journal carrying the call's arguments has been appended. *)
Theorem addJournalEntry_stores_the_call (Date_parse : string -> option Z)
    (Number_toString : float -> string) (args : Args)
    (acc : list AgenticAction) (w : World) result acc' w' :
  handle Date_parse Number_toString (mkCall "addJournalEntry" args) acc w
  = (Return result, acc', w') ->
  exists tb content mood,
    db (store w) = Some tb
    /\ arg_content args = Some content
    /\ arg_mood args = Some mood
    /\ db (store w')
       = Some (mkTables (transactions tb) (schedules tb)
                 (journal_entries tb
                  ++ [mkJournalEntry (pretty (clock w)) content mood (clock w)])
                 (chat_messages tb))
    /\ acc' = acc ++ [mkAction kind_journal args true]
    /\ result = Text ("Journal entry saved with " ++ mood ++ " mood")%string.
Proof.
  unfold handle. cbn [call_name call_args String.eqb Ascii.eqb Bool.eqb].
  unfold addJournalEntry, journal_row, required, insert_row.
  destruct (db (store w)) as [tb|] eqn:Hdb; [|discriminate].
  cbn [nj_content nj_mood nj_date].
  destruct (driver w 0%nat); [discriminate|].
  destruct (arg_content args) as [content|]; [|discriminate].
  destruct (arg_mood args) as [mood|]; [|discriminate].
  case_bool_decide; [discriminate|].
  intros [= <- <- <-].
  exists tb, content, mood. repeat split.
Qed.

Lemma addJournalEntry_stores_the_call_witness :
  let done := handle one_date few_numbers (mkCall "addJournalEntry" journal_args) []
                (quiet_world open_store []) in
  done.1.2 = [mkAction kind_journal journal_args true]
  /\ (journal_entries <$> db (store done.2))
     = Some [mkJournalEntry "1700000000000" "Long walk by the lake" "calm" 1700000000000].
Proof.
  cbv zeta.
  destruct (addJournalEntry_stores_the_call one_date few_numbers journal_args []
              (quiet_world open_store [])
              (Text "Journal entry saved with calm mood")
              [mkAction kind_journal journal_args true]
              (handle one_date few_numbers (mkCall "addJournalEntry" journal_args) []
                 (quiet_world open_store [])).2)
    as (tb & content & mood & Hdb & Hc & Hm & Hdb' & _).
  - vm_compute. reflexivity.
  - split; [vm_compute; reflexivity|]. rewrite Hdb'.
    injection Hdb as <-. injection Hc as <-. injection Hm as <-.
    vm_compute. reflexivity.
Defined.

(** *** What the action log can hold *)

Lemma handle_log (Date_parse : string -> option Z)
    (Number_toString : float -> string) (call : FunctionCall)
    (acc : list AgenticAction) (w : World) :
  (handle Date_parse Number_toString call acc w).1.2 = acc
  \/ exists a, recorded_write a /\ action_data a = call_args call
               /\ (handle Date_parse Number_toString call acc w).1.2 = acc ++ [a]
               /\ call_name call ∈ writers.
Proof.
  unfold handle.
  destruct (String.eqb_spec (call_name call) "logTransaction") as [Hn|_].
  { destruct (addTransaction _ _ _ _) as [[id|e] s]; cbn; [right|by left].
    exists (mkAction kind_transaction (call_args call) true).
    split; [split; [reflexivity|by left]|].
    split; [reflexivity|]. split; [reflexivity|rewrite Hn; left]. }
  destruct (String.eqb_spec (call_name call) "scheduleMeeting") as [Hn|_].
  { destruct (addSchedule _ _ _ _) as [[id|e] s]; cbn; [right|by left].
    exists (mkAction kind_schedule (call_args call) true).
    split; [split; [reflexivity|right; by left]|].
    split; [reflexivity|]. split; [reflexivity|rewrite Hn; right; left]. }
  destruct (String.eqb_spec (call_name call) "addJournalEntry") as [Hn|_].
  { destruct (addJournalEntry _ _ _ _) as [[id|e] s]; cbn; [right|by left].
    exists (mkAction kind_journal (call_args call) true).
    split; [split; [reflexivity|right; by right]|].
    split; [reflexivity|]. split; [reflexivity|rewrite Hn; right; right; left]. }
  left.
  destruct (String.eqb (call_name call) "getDailyQuote").
  { by destruct (generateDailyQuote w). }
  destruct (String.eqb (call_name call) "getUserFinances").
  { by destruct (getTransactions _ _). }
  destruct (String.eqb (call_name call) "getUserSchedule").
  { by destruct (getSchedules _ _). }
  destruct (String.eqb (call_name call) "getUserJournals").
  { by destruct (getJournalEntries _ _). }
  destruct (String.eqb (call_name call) "searchWeb").
  { by destruct (performWebSearch _ w). }
  reflexivity.
Qed.

Lemma round_log (Date_parse : string -> option Z)
    (Number_toString : float -> string) (calls : list FunctionCall)
    (acc : list AgenticAction) (w : World) :
  Forall recorded_write acc ->
  Forall recorded_write (round Date_parse Number_toString calls acc w).1.2.
Proof.
  revert acc w. induction calls as [|call rest IH]; intros acc w Hacc; [exact Hacc|].
  cbn [round].
  assert (Hone : Forall recorded_write (execute Date_parse Number_toString call acc w).1.2).
  { unfold execute. pose proof (handle_log Date_parse Number_toString call acc w) as Hlog.
    destruct (handle Date_parse Number_toString call acc w) as [[[r|e] acc1] w1]; cbn in *;
      (destruct Hlog as [->|(a & Ha & _ & -> & _)];
       [exact Hacc|apply Forall_app; split; [exact Hacc|by apply Forall_singleton]]). }
  destruct (execute Date_parse Number_toString call acc w) as [[r acc1] w1]. cbn in Hone.
  specialize (IH acc1 w1 Hone).
  by destruct (round Date_parse Number_toString rest acc1 w1) as [[rs acc2] w2].
Qed.

Lemma converse_log (Date_parse : string -> option Z)
    (Number_toString : float -> string) (session : list Reply)
    (message : Payload) (acc : list AgenticAction) (w : World) :
  Forall recorded_write acc ->
  Forall recorded_write (converse Date_parse Number_toString session message acc w).1.2.
Proof.
  revert message acc w. induction session as [|reply session IH]; intros message acc w Hacc.
  - cbn [converse]. by destruct (exchange message None w).
  - rewrite converse_step.
    destruct (exchange message (Some reply) w) as [[response|e] w1]; [|exact Hacc].
    destruct (functionCalls response) as [|call calls] eqn:Hcalls; [exact Hacc|].
    cbv zeta. apply IH. rewrite <- Hcalls. by apply round_log.
Qed.

Lemma sendMessage_log (Date_parse : string -> option Z)
    (Number_toString : float -> string)
    (startChat : list History.Content -> outcome unit)
    (session : list Reply) (userMessage persona : string)
    (history : list History.Content) (w : World) :
  Forall recorded_write
    (actions (sendMessage Date_parse Number_toString startChat session userMessage
                persona history w).1).
Proof.
  unfold sendMessage, attempt. cbv zeta.
  destruct (startChat (History.normalizeHistory history)) as [[]|e0].
  - pose proof (converse_log Date_parse Number_toString session
                  (UserMessage (History.normalizeHistory history) userMessage) []
                  (acquire w) (Forall_nil_2 _)) as Hlog.
    destruct (converse _ _ _ _ _ _) as [[[text|e] acc] w']; cbn in *; [exact Hlog|].
    destruct (on_error_fields e w') as (-> & _). constructor.
  - destruct (on_error_fields e0 (acquire w)) as (-> & _). constructor.
Qed.

(** X16: every action [sendMessage] returns was pushed by one of the three
    writing handlers after its write succeeded: it is marked executed and
    its kind is transaction, schedule or journal, never quote, search or
    none. *)
Theorem actions_are_recorded_writes (Date_parse : string -> option Z)
    (Number_toString : float -> string)
    (startChat : list History.Content -> outcome unit)
    (session : list Reply) (userMessage persona : string)
    (history : list History.Content) (w : World) :
  Forall recorded_write
    (actions (sendMessage Date_parse Number_toString startChat session userMessage
                persona history w).1).
Proof. apply sendMessage_log. Qed.

(** X17: a call whose name is not one of the three writing tools leaves
    the store and the action log as they were, whatever its arguments and
    whatever the transport and the driver do. *)
Theorem other_tools_write_nothing (Date_parse : string -> option Z)
    (Number_toString : float -> string)
    (call : FunctionCall) (acc : list AgenticAction) (w : World) :
  (call_name call ∉ writers) ->
  (execute Date_parse Number_toString call acc w).1.2 = acc
  /\ store (execute Date_parse Number_toString call acc w).2 = store w.
Proof.
  intros Hnot.
  assert (Hhandle : (handle Date_parse Number_toString call acc w).1.2 = acc
                    /\ store (handle Date_parse Number_toString call acc w).2 = store w).
  { split.
    - destruct (handle_log Date_parse Number_toString call acc w)
        as [H|(a & _ & _ & _ & Hin)]; [done|].
      by destruct Hnot.
    - unfold handle.
      repeat match goal with
      | |- context [String.eqb (call_name call) ?n] =>
          lazymatch n with
          | "logTransaction" => idtac | "scheduleMeeting" => idtac
          | "addJournalEntry" => idtac
          end;
          destruct (String.eqb_spec (call_name call) n) as [Heq|_];
          [exfalso; apply Hnot; rewrite Heq; unfold writers; repeat constructor|]
      end.
      destruct (String.eqb (call_name call) "getDailyQuote").
      { pose proof (generateDailyQuote_store w). by destruct (generateDailyQuote w). }
      destruct (String.eqb (call_name call) "getUserFinances").
      { by destruct (getTransactions _ _). }
      destruct (String.eqb (call_name call) "getUserSchedule").
      { by destruct (getSchedules _ _). }
      destruct (String.eqb (call_name call) "getUserJournals").
      { by destruct (getJournalEntries _ _). }
      destruct (String.eqb (call_name call) "searchWeb").
      { pose proof (performWebSearch_store (arg_query (call_args call)) w).
        by destruct (performWebSearch _ w). }
      reflexivity. }
  unfold execute.
  destruct (handle Date_parse Number_toString call acc w) as [[[r|e] acc1] w1]; exact Hhandle.
Qed.

Lemma other_tools_write_nothing_witness :
  let w := quiet_world one_transaction [a_quote] in
  (execute one_date few_numbers (mkCall "getDailyQuote" no_args) [] w).1.2 = []
  /\ store (execute one_date few_numbers (mkCall "getDailyQuote" no_args) [] w).2 = store w.
Proof.
  cbv zeta. apply other_tools_write_nothing.
  refine (bool_decide_unpack _ _). vm_compute. exact I.
Defined.

(** *** Failures that are not quota signals *)

Lemma substring0_length (n : nat) (s : string) :
  (String.length (substring0 n s) <= n)%nat.
Proof.
  revert s. induction n as [|n IH]; intros s; [cbn; lia|].
  destruct s as [|a s]; cbn; [lia|]. specialize (IH s). lia.
Qed.

Lemma substring0_prefix (n : nat) (s : string) :
  startsWith (substring0 n s) s = true.
Proof.
  revert s. induction n as [|n IH]; intros s; [reflexivity|].
  destruct s as [|a s]; cbn; [reflexivity|]. by rewrite Ascii.eqb_refl.
Qed.

(** X18: when the body of the [try] of [sendMessage] ends on an error, of
    [startChat] or of a request, whose text is not a quota signal, no
    cooldown is installed: the service is left as the failure found it.
    The answer has no action; its text is the API-key text if the error
    names PERMISSION_DENIED or UNAUTHENTICATED, and otherwise the apology
    around the first hundred characters, at most, of the error text. *)
Theorem other_failures_install_no_cooldown (Date_parse : string -> option Z)
    (Number_toString : float -> string)
    (startChat : list History.Content -> outcome unit)
    (session : list Reply) (userMessage persona : string)
    (history : list History.Content) (w : World) e acc w3 :
  attempt Date_parse Number_toString startChat session userMessage history w
  = (Throw e, acc, w3) ->
  is_quota_error e = false ->
  let r := sendMessage Date_parse Number_toString startChat session userMessage
             persona history w in
  r.2 = w3
  /\ actions r.1 = []
  /\ (is_auth_error e = true -> answer_text r.1 = key_text)
  /\ (is_auth_error e = false ->
      exists shown,
        answer_text r.1
        = ("I apologize, but I encountered an error: " ++ shown
           ++ ". Please try again.")%string
        /\ (String.length shown <= 100)%nat
        /\ startsWith shown e = true).
Proof.
  intros Hloop Hquota r. subst r.
  rewrite (sendMessage_caught _ _ _ _ _ _ _ _ _ _ _ Hloop).
  unfold on_error. rewrite Hquota.
  destruct (is_auth_error e); cbn; repeat split; try done.
  intros _. exists (substring0 100 e).
  split; [reflexivity|]. split; [apply substring0_length|apply substring0_prefix].
Qed.

Lemma other_failures_install_no_cooldown_witness :
  let r := sendMessage one_date few_numbers user_first [access_denied] "hello" "GENERAL" []
             (quiet_world open_store []) in
  answer_text r.1 = key_text /\ quotaResetTime (this r.2) = 0.
Proof.
  cbv zeta.
  destruct (other_failures_install_no_cooldown one_date few_numbers user_first
              [access_denied] "hello" "GENERAL" []
              (quiet_world open_store [])
              "[403 Forbidden] PERMISSION_DENIED: API key not valid" []
              (converse one_date few_numbers [access_denied] (UserMessage [] "hello") []
                 (acquire (quiet_world open_store []))).2)
    as (Hworld & _ & Hkey & _).
  - vm_compute. reflexivity.
  - vm_compute. reflexivity.
  - split; [apply Hkey; vm_compute; reflexivity|]. rewrite Hworld. vm_compute. reflexivity.
Defined.

(** *** A history that [startChat] rejects *)

(** X30: when [startChat] rejects the normalized history, [sendMessage]
    has waited for the rate limit and moved the stamp of the last request,
    yet sends no request; the store is untouched, the answer has no
    action, and its text is the one the [catch] gives to the error of
    [startChat]. *)
Theorem rejected_history_sends_nothing (Date_parse : string -> option Z)
    (Number_toString : float -> string)
    (startChat : list History.Content -> outcome unit)
    (session : list Reply) (userMessage persona : string)
    (history : list History.Content) (w : World) (e : string) :
  startChat (History.normalizeHistory history) = Throw e ->
  let r := sendMessage Date_parse Number_toString startChat session userMessage
             persona history w in
  r = on_error e (acquire w)
  /\ actions r.1 = []
  /\ answer_text r.1 ∈ [quota_text; key_text; apology e]
  /\ requests r.2 = requests w
  /\ store r.2 = store w
  /\ clock r.2 = permit_time (this w) (clock w)
  /\ lastRequestTime (this r.2) = permit_time (this w) (clock w).
Proof.
  intros Hchat r.
  assert (Hr : r = on_error e (acquire w)).
  { subst r. apply (sendMessage_caught _ _ _ _ _ _ _ _ _ []).
    unfold attempt. cbv zeta. by rewrite Hchat. }
  rewrite Hr.
  destruct (on_error_fields e (acquire w)) as (Hactions & Htext & Hstore & Hreqs & Hclock).
  destruct (acquire_fields w) as (Hclock' & Hstore' & _ & _ & Hreqs' & _ & _ & Hstamp).
  split; [reflexivity|]. split; [exact Hactions|]. split; [exact Htext|].
  split; [by rewrite Hreqs|]. split; [by rewrite Hstore|]. split; [by rewrite Hclock|].
  unfold on_error.
  destruct (is_quota_error e); [|destruct (is_auth_error e)]; cbn; exact Hstamp.
Qed.

Lemma rejected_history_sends_nothing_witness :
  let history := [History.mkContent "function" "r"; History.mkContent "user" "a";
                  History.mkContent "model" "b"] in
  let r := sendMessage one_date few_numbers user_first [plain_answer] "hello" "GENERAL"
             history (quiet_world open_store []) in
  History.normalizeHistory history = [History.mkContent "model" "b"]
  /\ actions r.1 = []
  /\ answer_text r.1
     = apology "[GoogleGenerativeAI Error]: First content should be with role 'user', got model"
  /\ requests r.2 = []
  /\ lastRequestTime (this r.2) = morning.
Proof.
  cbv zeta.
  destruct (rejected_history_sends_nothing one_date few_numbers user_first [plain_answer]
              "hello" "GENERAL"
              [History.mkContent "function" "r"; History.mkContent "user" "a";
               History.mkContent "model" "b"]
              (quiet_world open_store [])
              "[GoogleGenerativeAI Error]: First content should be with role 'user', got model"
              eq_refl)
    as (Hr & Hactions & _ & Hreqs & _ & _ & Hstamp).
  split; [reflexivity|]. split; [exact Hactions|].
  split; [rewrite Hr; vm_compute; reflexivity|].
  split; [exact Hreqs|]. rewrite Hstamp. vm_compute. reflexivity.
Defined.

(** *** The store as the tools see it *)

Lemma set_store_same (w : World) : set_store (store w) w = w.
Proof. by destruct w. Qed.

(** X19: while the database handle is unset, each of the six tools that
    open the store answers the model "Error: Database not initialized",
    records no action and changes nothing. *)
Theorem tools_before_initialization (Date_parse : string -> option Z)
    (Number_toString : float -> string) (name : string)
    (args : Args) (acc : list AgenticAction) (w : World) :
  db (store w) = None ->
  name ∈ store_tools ->
  execute Date_parse Number_toString (mkCall name args) acc w
  = (mkFunctionResponse name (Text "Error: Database not initialized"), acc, w).
Proof.
  intros Hdb Hname. unfold store_tools in Hname.
  repeat (apply elem_of_cons in Hname as [->|Hname]);
    [| | | | | |by apply elem_of_nil in Hname];
    unfold execute, handle; cbn [call_name call_args String.eqb Ascii.eqb Bool.eqb];
    unfold addTransaction, addSchedule, addJournalEntry, getTransactions, getSchedules,
      getJournalEntries;
    rewrite Hdb; cbn; rewrite ?set_store_same; reflexivity.
Qed.

Lemma tools_before_initialization_witness :
  execute one_date few_numbers (mkCall "getUserFinances" no_args) []
          (quiet_world fresh_service [])
  = (mkFunctionResponse "getUserFinances" (Text "Error: Database not initialized"), [],
     quiet_world fresh_service []).
Proof.
  apply tools_before_initialization; [reflexivity|].
  refine (bool_decide_unpack _ _). vm_compute. exact I.
Defined.

(** X20: when the driver rejects the query of a summary tool, the model is
    not told of a failure: the tool reports an empty store (zero totals
    and counts, no samples), whatever the store holds. *)
Theorem summaries_hide_a_failed_query (Date_parse : string -> option Z)
    (Number_toString : float -> string) (args : Args)
    (acc : list AgenticAction) (w : World) (tb : Tables) (e : string) :
  db (store w) = Some tb ->
  driver w 0%nat = Some e ->
  execute Date_parse Number_toString (mkCall "getUserFinances" args) acc w
  = (mkFunctionResponse "getUserFinances" (Finances 0 0 0 0), acc, w)
  /\ execute Date_parse Number_toString (mkCall "getUserSchedule" args) acc w
     = (mkFunctionResponse "getUserSchedule" (ScheduleSummary 0 0 []), acc, w)
  /\ execute Date_parse Number_toString (mkCall "getUserJournals" args) acc w
     = (mkFunctionResponse "getUserJournals" (JournalSummary 0 [] []), acc, w).
Proof.
  intros Hdb He.
  unfold execute, handle; cbn [call_name call_args String.eqb Ascii.eqb Bool.eqb].
  unfold getTransactions, getSchedules, getJournalEntries, select_all.
  rewrite Hdb, He. repeat split.
Qed.

Lemma summaries_hide_a_failed_query_witness :
  execute one_date few_numbers (mkCall "getUserFinances" no_args) [] broken_store_world
  = (mkFunctionResponse "getUserFinances" (Finances 0 0 0 0), [], broken_store_world)
  /\ transactions <$> db (store broken_store_world) = Some [lunch].
Proof.
  destruct (summaries_hide_a_failed_query one_date few_numbers no_args [] broken_store_world
              (mkTables [lunch] [] [] []) "disk I/O error" eq_refl eq_refl) as (Hfin & _).
  split; [exact Hfin|reflexivity].
Defined.

End ToolFacts.

(** * Properties of the summaries *)

Module SummaryFacts.
Import Js Database Gemini Insights Samples StoreSpec ServiceSpec DatabaseFacts StoreFacts.

(** *** Sums *)

Lemma total_in_order (kind : string) (rows : list Transaction) :
  total kind rows = sum_in_order (amounts_of kind rows).
Proof.
  unfold total, sum_in_order, amounts_of. generalize 0%float.
  induction (filter (fun t => tx_type t = kind) rows) as [|t l IH]; intros start;
    [reflexivity|].
  cbn. apply IH.
Qed.

(** X21: with the store open and the driver answering, the finance tool
    reports the number of stored transactions and, as totals, the amounts
    of the incomes and of the expenses added as JavaScript numbers, from 0
    and in the order of the listing, newest first; rows of any other type
    are counted but enter no total, and the balance is the floating-point
    difference of the two totals. The totals are rounded sums, not exact
    ones: three expenses of 0.1, 0.2 and 0.3 give one total in this order
    and another in the opposite order. *)
Theorem finance_summary_adds_in_order (Date_parse : string -> option Z)
    (Number_toString : float -> string) (args : Args)
    (acc : list AgenticAction) (w : World) (tb : Tables) :
  db (store w) = Some tb ->
  driver w 0%nat = None ->
  (exists listing,
     listing ≡ₚ transactions tb
     /\ StronglySorted (desc tx_date) listing
     /\ handle Date_parse Number_toString (mkCall "getUserFinances" args) acc w
        = (Return (Finances (sum_in_order (amounts_of "income" listing))
                            (sum_in_order (amounts_of "expense" listing))
                            (sum_in_order (amounts_of "income" listing)
                             - sum_in_order (amounts_of "expense" listing))%float
                            (length (transactions tb))), acc, w))
  /\ sum_in_order [0.1; 0.2; 0.3]%float <> sum_in_order [0.3; 0.2; 0.1]%float.
Proof.
  intros Hdb Hok. split.
  - exists (order_desc tx_date (transactions tb)).
    pose proof (order_desc_perm tx_date (transactions tb)) as Hperm.
    split; [exact Hperm|]. split; [apply order_desc_sorted|].
    unfold handle. cbn [call_name call_args String.eqb Ascii.eqb Bool.eqb].
    unfold getTransactions, select_all. rewrite Hdb, Hok.
    rewrite !total_in_order. by rewrite (Permutation_length Hperm).
  - intros H. apply (f_equal (fun x => PrimFloat.eqb x 0.6%float)) in H.
    vm_compute in H. discriminate.
Qed.

Lemma finance_summary_adds_in_order_witness :
  handle one_date few_numbers (mkCall "getUserFinances" no_args) []
         (quiet_world two_transactions [])
  = (Return (Finances 50000 250 49750 2), [], quiet_world two_transactions [])
  /\ exists listing,
       listing ≡ₚ [lunch; salary]
       /\ handle one_date few_numbers (mkCall "getUserFinances" no_args) []
                 (quiet_world two_transactions [])
          = (Return (Finances (sum_in_order (amounts_of "income" listing))
                              (sum_in_order (amounts_of "expense" listing))
                              (sum_in_order (amounts_of "income" listing)
                               - sum_in_order (amounts_of "expense" listing))%float
                              2), [], quiet_world two_transactions []).
Proof.
  split; [vm_compute; reflexivity|].
  destruct (finance_summary_adds_in_order one_date few_numbers no_args []
              (quiet_world two_transactions [])
              (mkTables [lunch; salary] [] [] []) eq_refl eq_refl)
    as [(listing & Hperm & _ & Hfin) _].
  exists listing. split; [exact Hperm|exact Hfin].
Defined.

(** X22: with the store open and the driver answering, the schedule tool
    reports the number of stored schedules, the number of those dated
    after now, and as its sample the five earliest stored schedules: every
    schedule left out of the sample is dated no earlier than any schedule
    in it, upcoming or not. *)
Theorem schedule_summary_lists_the_earliest (Date_parse : string -> option Z)
    (Number_toString : float -> string)
    (args : Args) (acc : list AgenticAction) (w : World) (tb : Tables) :
  db (store w) = Some tb ->
  driver w 0%nat = None ->
  exists sample rest,
    handle Date_parse Number_toString (mkCall "getUserSchedule" args) acc w
    = (Return (ScheduleSummary
                 (length (filter (fun s => clock w < sc_date s) (schedules tb)))
                 (length (schedules tb)) sample), acc, w)
    /\ sample ++ rest ≡ₚ schedules tb
    /\ length sample = (length (schedules tb) `min` 5)%nat
    /\ forall s r, s ∈ sample -> r ∈ rest -> sc_date s <= sc_date r.
Proof.
  intros Hdb Hok.
  pose proof (order_asc_perm sc_date (schedules tb)) as Hperm.
  pose proof (order_asc_sorted sc_date (schedules tb)) as Hsorted.
  exists (take 5 (order_asc sc_date (schedules tb))),
         (drop 5 (order_asc sc_date (schedules tb))).
  split; [|split; [|split]].
  - unfold handle. cbn [call_name call_args String.eqb Ascii.eqb Bool.eqb].
    unfold getSchedules, select_all. rewrite Hdb, Hok.
    rewrite (Permutation_length
               (filter_Permutation (fun s => clock w < sc_date s) _ _ Hperm)).
    by rewrite (Permutation_length Hperm).
  - by rewrite take_drop.
  - rewrite length_take, (Permutation_length Hperm). lia.
  - intros s r Hs Hr. rewrite <- (take_drop 5) in Hsorted.
    apply (StronglySorted_app_1_elem_of _ _ _ s r Hsorted Hs Hr).
Qed.

Lemma schedule_summary_lists_the_earliest_witness :
  let past := mkSchedule "1" "Dentist" "" 1000 "10:00" 15 in
  let soon := mkSchedule "2" "Review" "" (morning + 5000) "11:00" 15 in
  let w := quiet_world (mkService (Some (mkTables [] [soon; past] [] [])) true) [] in
  handle one_date few_numbers (mkCall "getUserSchedule" no_args) [] w
  = (Return (ScheduleSummary 1 2 [past; soon]), [], w)
  /\ exists sample rest,
       handle one_date few_numbers (mkCall "getUserSchedule" no_args) [] w
       = (Return (ScheduleSummary 1 2 sample), [], w)
       /\ sample ++ rest ≡ₚ [soon; past]
       /\ length sample = 2%nat.
Proof.
  cbv zeta. split; [vm_compute; reflexivity|].
  destruct (schedule_summary_lists_the_earliest one_date few_numbers no_args []
              (quiet_world (mkService (Some (mkTables []
                 [mkSchedule "2" "Review" "" (morning + 5000) "11:00" 15;
                  mkSchedule "1" "Dentist" "" 1000 "10:00" 15] [] [])) true) [])
              _ eq_refl eq_refl) as (sample & rest & Hsum & Hperm & Hlen & _).
  exists sample, rest. split; [exact Hsum|]. split; [exact Hperm|exact Hlen].
Defined.

(** *** Counting by key *)

Lemma count_mood_lookup (mood key : string) (acc : list (string * nat)) :
  count_of 0%nat key (count_mood mood acc)
  = if String.eqb mood key then S (count_of 0%nat key acc) else count_of 0%nat key acc.
Proof.
  induction acc as [|[k n] rest IH]; cbn.
  - destruct (String.eqb mood key); reflexivity.
  - destruct (String.eqb_spec k mood) as [->|Hkm]; cbn.
    + destruct (String.eqb mood key); reflexivity.
    + rewrite IH. destruct (String.eqb_spec k key) as [->|Hkk]; [|reflexivity].
      destruct (String.eqb_spec mood key) as [->|_]; [done|reflexivity].
Qed.

Lemma count_mood_sum (mood : string) (acc : list (string * nat)) :
  sum_list (snd <$> count_mood mood acc) = S (sum_list (snd <$> acc)).
Proof.
  induction acc as [|[k n] rest IH]; cbn; [reflexivity|].
  destruct (String.eqb k mood); cbn; [reflexivity|]. rewrite IH. lia.
Qed.

Lemma count_mood_keys (mood : string) (acc : list (string * nat)) :
  NoDup (fst <$> acc) -> NoDup (fst <$> count_mood mood acc).
Proof.
  assert (Hin : forall l x, x ∈ fst <$> count_mood mood l -> x = mood \/ x ∈ fst <$> l).
  { induction l as [|[k n] rest IH]; cbn; intros x Hx.
    - apply list_elem_of_singleton in Hx. by left.
    - destruct (String.eqb k mood); cbn in Hx; [by right|].
      apply elem_of_cons in Hx as [->|Hx]; [right; left|].
      destruct (IH x Hx) as [->|Hr]; [by left|right; by right]. }
  induction acc as [|[k n] rest IH]; cbn; intros Hnd.
  - apply NoDup_singleton.
  - apply NoDup_cons in Hnd as [Hfresh Hnd].
    destruct (String.eqb_spec k mood) as [->|Hkm]; cbn.
    + by apply NoDup_cons.
    + apply NoDup_cons. split; [|by apply IH].
      intros Hx. destruct (Hin rest k Hx) as [->|Hr]; done.
Qed.

Lemma moodCounts_fold (journals : list JournalEntry) (acc : list (string * nat)) :
  NoDup (fst <$> acc) ->
  let counts := fold_left (fun acc entry => count_mood (je_mood entry) acc) journals acc in
  NoDup (fst <$> counts)
  /\ sum_list (snd <$> counts) = (sum_list (snd <$> acc) + length journals)%nat
  /\ forall mood, count_of 0%nat mood counts
                  = (count_of 0%nat mood acc
                     + length (filter (fun e => je_mood e = mood) journals))%nat.
Proof.
  revert acc. induction journals as [|e journals IH]; intros acc Hnd; cbn [fold_left].
  - cbn. repeat split; [done|lia|intros; lia].
  - cbv zeta in IH |- *.
    destruct (IH (count_mood (je_mood e) acc) (count_mood_keys _ _ Hnd))
      as (Hkeys & Hsum & Hcount).
    split; [exact Hkeys|]. split.
    + rewrite Hsum, count_mood_sum. cbn [length]. lia.
    + intros mood. rewrite Hcount, count_mood_lookup.
      destruct (String.eqb_spec (je_mood e) mood) as [Heq|Hne].
      * rewrite filter_cons_True by done. cbn. lia.
      * rewrite filter_cons_False by done. lia.
Qed.

(** X23: the mood counts built by the journal tool, by the mood analysis
    and by the journal screen hold each mood once, give each mood the
    number of entries that carry it (and zero to a mood no entry carries),
    and add up to the number of entries. *)
Theorem mood_counts_are_exact (journals : list JournalEntry) :
  NoDup (fst <$> moodCounts_of journals)
  /\ sum_list (snd <$> moodCounts_of journals) = length journals
  /\ forall mood,
       count_of 0%nat mood (moodCounts_of journals)
       = length (filter (fun e => je_mood e = mood) journals).
Proof.
  destruct (moodCounts_fold journals [] (@NoDup_nil_2 string)) as (Hkeys & Hsum & Hcount).
  split; [exact Hkeys|]. split; [exact Hsum|]. intros mood. by rewrite Hcount.
Qed.

(** X24: with the store open and the driver answering, the journal tool
    reports the number of stored entries, for every mood the number of
    stored entries that carry it, and as recent entries the three newest:
    every entry left out is dated no later than any entry listed. *)
Theorem journal_summary_is_exact (Date_parse : string -> option Z)
    (Number_toString : float -> string) (args : Args)
    (acc : list AgenticAction) (w : World) (tb : Tables) :
  db (store w) = Some tb ->
  driver w 0%nat = None ->
  exists counts recent rest,
    handle Date_parse Number_toString (mkCall "getUserJournals" args) acc w
    = (Return (JournalSummary (length (journal_entries tb)) counts recent), acc, w)
    /\ (forall mood, count_of 0%nat mood counts
                     = length (filter (fun e => je_mood e = mood) (journal_entries tb)))
    /\ recent ++ rest ≡ₚ journal_entries tb
    /\ length recent = (length (journal_entries tb) `min` 3)%nat
    /\ forall r o, r ∈ recent -> o ∈ rest -> je_date o <= je_date r.
Proof.
  intros Hdb Hok.
  pose proof (order_desc_perm je_date (journal_entries tb)) as Hperm.
  pose proof (order_desc_sorted je_date (journal_entries tb)) as Hsorted.
  exists (moodCounts_of (order_desc je_date (journal_entries tb))),
         (take 3 (order_desc je_date (journal_entries tb))),
         (drop 3 (order_desc je_date (journal_entries tb))).
  split; [|split; [|split; [|split]]].
  - unfold handle. cbn [call_name call_args String.eqb Ascii.eqb Bool.eqb].
    unfold getJournalEntries, select_all. rewrite Hdb, Hok.
    by rewrite (Permutation_length Hperm).
  - intros mood.
    destruct (moodCounts_fold (order_desc je_date (journal_entries tb)) []
                (@NoDup_nil_2 string)) as (_ & _ & Hcount).
    unfold moodCounts_of. rewrite Hcount. cbn.
    apply Permutation_length, filter_Permutation, Hperm.
  - by rewrite take_drop.
  - rewrite length_take, (Permutation_length Hperm). lia.
  - intros r o Hr Ho. rewrite <- (take_drop 3) in Hsorted.
    apply (StronglySorted_app_1_elem_of _ _ _ r o Hsorted Hr Ho).
Qed.

Lemma journal_summary_is_exact_witness :
  let calm := mkJournalEntry "1" "tea" "calm" 100 in
  let glad := mkJournalEntry "2" "sun" "happy" 300 in
  let still := mkJournalEntry "3" "rain" "calm" 200 in
  let w := quiet_world (mkService (Some (mkTables [] [] [calm; glad; still] [])) true) [] in
  handle one_date few_numbers (mkCall "getUserJournals" no_args) [] w
  = (Return (JournalSummary 3 [("happy", 1%nat); ("calm", 2%nat)] [glad; still; calm]),
     [], w)
  /\ exists counts recent rest,
       handle one_date few_numbers (mkCall "getUserJournals" no_args) [] w
       = (Return (JournalSummary 3 counts recent), [], w)
       /\ count_of 0%nat "calm" counts = 2%nat
       /\ recent ++ rest ≡ₚ [calm; glad; still].
Proof.
  cbv zeta. split; [vm_compute; reflexivity|].
  destruct (journal_summary_is_exact one_date few_numbers no_args []
              (quiet_world (mkService (Some (mkTables [] []
                 [mkJournalEntry "1" "tea" "calm" 100; mkJournalEntry "2" "sun" "happy" 300;
                  mkJournalEntry "3" "rain" "calm" 200] [])) true) [])
              _ eq_refl eq_refl) as (counts & recent & rest & Hsum & Hcount & Hperm & _).
  exists counts, recent, rest. split; [exact Hsum|]. split; [|exact Hperm].
  rewrite Hcount. reflexivity.
Defined.

End SummaryFacts.

(** * Properties of the insight generators and of the chat screen *)

Module InsightFacts.
Import Js History Database Gemini Insights ChatScreen Samples StoreSpec ServiceSpec
  GovernorFacts QuoteFacts HistoryFacts ToolFacts SummaryFacts.

(** The shape the three generators share. *)
Lemma answer_or_fallback (prompt fallback : string) (w : World) :
  let r := match generateContent prompt (acquire w) with
           | (Return text, w') => (text, w')
           | (Throw _, w') => (fallback, w')
           end in
  requests r.2 = requests w ++ [mkRequest (permit_time (this w) (clock w)) (Prompt prompt)]
  /\ store r.2 = store w
  /\ this r.2 = this (acquire w)
  /\ (forall reply response,
        head (generate_replies w) = Some reply -> body reply = Return response ->
        r.1 = response_text response)
  /\ (throws (generateContent prompt (acquire w)).1 -> r.1 = fallback).
Proof.
  cbv zeta.
  destruct (acquire_fields w) as (Hclock & Hstore & _ & Hreplies & Hreqs & _).
  destruct (generateContent_sends prompt (acquire w)) as (Hsent & Hthis & Hst).
  rewrite Hreqs, Hclock in Hsent. rewrite Hstore in Hst.
  split; [|split; [|split; [|split]]].
  - by destruct (generateContent prompt (acquire w)) as [[text|e] w'].
  - by destruct (generateContent prompt (acquire w)) as [[text|e] w'].
  - by destruct (generateContent prompt (acquire w)) as [[text|e] w'].
  - intros reply response Hhead Hbody.
    unfold generateContent, exchange. rewrite Hreplies, Hhead. cbn. by rewrite Hbody.
  - destruct (generateContent prompt (acquire w)) as [[text|e] w']; cbn; [done|reflexivity].
Qed.

(** X25: each insight generator first acquires the rate limit and then
    sends exactly one request; it returns the reply's text when the
    request is answered and its fixed fallback text when the request
    fails; it never changes the store, and even on a quota error it
    installs no cooldown: the service is left as the acquisition left
    it. *)
Theorem insights_answer_or_fall_back (Number_toString : float -> string) (w : World)
    (transactions : list Transaction)
    (journalEntries : list JournalEntry) (schedules : list Schedule) :
  let contract (prompt fallback : string) (r : string * World) :=
    requests r.2 = requests w ++ [mkRequest (permit_time (this w) (clock w)) (Prompt prompt)]
    /\ store r.2 = store w
    /\ this r.2 = this (acquire w)
    /\ (forall reply response,
          head (generate_replies w) = Some reply -> body reply = Return response ->
          r.1 = response_text response)
    /\ (throws (generateContent prompt (acquire w)).1 -> r.1 = fallback) in
  contract (financial_prompt Number_toString transactions) financial_fallback
           (analyzeFinancialHealth Number_toString transactions w)
  /\ contract (mood_prompt journalEntries) mood_fallback
              (analyzeMoodTrends journalEntries w)
  /\ contract (schedule_prompt (permit_time (this w) (clock w)) schedules) schedule_fallback
              (getScheduleInsights schedules w).
Proof.
  cbv zeta. split; [|split].
  - apply (answer_or_fallback (financial_prompt Number_toString transactions)
             financial_fallback w).
  - apply (answer_or_fallback (mood_prompt journalEntries) mood_fallback w).
  - unfold getScheduleInsights.
    destruct (acquire_fields w) as [Hclock _]. cbv zeta. rewrite Hclock.
    apply (answer_or_fallback _ schedule_fallback w).
Qed.

Lemma insights_answer_or_fall_back_witness :
  (analyzeFinancialHealth few_numbers [lunch; salary]
     (quiet_world fresh_service [quota_exceeded])).1
  = financial_fallback
  /\ quotaResetTime
       (this (analyzeFinancialHealth few_numbers [lunch; salary]
                (quiet_world fresh_service [quota_exceeded])).2) = 0
  /\ (analyzeMoodTrends [] (quiet_world fresh_service [a_quote])).1 = "Rise with the sun.".
Proof.
  destruct (insights_answer_or_fall_back few_numbers
              (quiet_world fresh_service [quota_exceeded])
              [lunch; salary] [] []) as ((_ & _ & Hthis & _ & Hfail) & _).
  destruct (insights_answer_or_fall_back few_numbers (quiet_world fresh_service [a_quote])
              [] [] []) as (_ & (_ & _ & _ & Hok & _) & _).
  split; [apply Hfail; exact I|]. split; [rewrite Hthis; reflexivity|].
  apply (Hok a_quote (mkResponse "Rise with the sun." [])); reflexivity.
Defined.

(** *** The category breakdown *)

Lemma slot_cons (start : option float) (a : float) (l : list float) :
  slot start (a :: l) = slot (Some (or_zero (default 0%float start) + a)%float) l.
Proof. by destruct l. Qed.

Lemma add_amount_field (category key : string) (amount : float)
    (acc : list (string * float)) :
  field key (add_amount category amount acc)
  = if String.eqb category key
    then Some (or_zero (default 0%float (field key acc)) + amount)%float
    else field key acc.
Proof.
  induction acc as [|[k v] rest IH]; cbn.
  - destruct (String.eqb category key); reflexivity.
  - destruct (String.eqb_spec k category) as [->|Hkc]; cbn.
    + destruct (String.eqb category key); reflexivity.
    + rewrite IH. destruct (String.eqb_spec k key) as [->|Hkk]; [|reflexivity].
      destruct (String.eqb_spec category key) as [->|_]; [done|reflexivity].
Qed.

Lemma add_amount_keys (category : string) (amount : float) (acc : list (string * float)) :
  NoDup (fst <$> acc) -> NoDup (fst <$> add_amount category amount acc).
Proof.
  assert (Hin : forall l x, x ∈ fst <$> add_amount category amount l ->
                            x = category \/ x ∈ fst <$> l).
  { induction l as [|[k v] rest IH]; cbn; intros x Hx.
    - apply list_elem_of_singleton in Hx. by left.
    - destruct (String.eqb k category); cbn in Hx; [by right|].
      apply elem_of_cons in Hx as [->|Hx]; [right; left|].
      destruct (IH x Hx) as [->|Hr]; [by left|right; by right]. }
  induction acc as [|[k v] rest IH]; cbn; intros Hnd.
  - apply NoDup_singleton.
  - apply NoDup_cons in Hnd as [Hfresh Hnd].
    destruct (String.eqb_spec k category) as [->|Hkc]; cbn.
    + by apply NoDup_cons.
    + apply NoDup_cons. split; [|by apply IH].
      intros Hx. destruct (Hin rest k Hx) as [->|Hr]; done.
Qed.

Lemma breakdown_fold (rows : list Transaction) (acc : list (string * float)) :
  NoDup (fst <$> acc) ->
  let b := fold_left (fun acc t => add_amount (tx_category t) (tx_amount t) acc) rows acc in
  NoDup (fst <$> b)
  /\ forall c, field c b
               = slot (field c acc)
                      (tx_amount <$> filter (fun t => tx_category t = c) rows).
Proof.
  revert acc. induction rows as [|t rows IH]; intros acc Hnd; cbn [fold_left].
  - cbn. split; [done|reflexivity].
  - cbv zeta in IH |- *.
    destruct (IH (add_amount (tx_category t) (tx_amount t) acc) (add_amount_keys _ _ _ Hnd))
      as (Hkeys & Hfield).
    split; [exact Hkeys|].
    intros c. rewrite Hfield, add_amount_field.
    destruct (String.eqb_spec (tx_category t) c) as [Heq|Hne].
    + rewrite filter_cons_True by done. rewrite fmap_cons, slot_cons. reflexivity.
    + rewrite filter_cons_False by done. reflexivity.
Qed.

(** X26: the category breakdown sent with the financial analysis holds
    each category of an expense once and no other key (incomes do not
    enter); the value of a category is what its expenses give when added
    as JavaScript numbers in the order of the list, with [(acc || 0)] read
    before each addition. *)
Theorem category_breakdown_by_category (transactions : list Transaction) :
  NoDup (fst <$> categoryBreakdown_of transactions)
  /\ forall c,
       (expenses_of c transactions = [] ->
        field c (categoryBreakdown_of transactions) = None)
       /\ (expenses_of c transactions <> [] ->
           field c (categoryBreakdown_of transactions)
           = Some (sum_or_zero (expenses_of c transactions))).
Proof.
  destruct (breakdown_fold (filter (fun t => tx_type t = "expense") transactions) []
              (@NoDup_nil_2 string)) as (Hkeys & Hfield).
  split; [exact Hkeys|].
  intros c. unfold categoryBreakdown_of, expenses_of. rewrite Hfield.
  destruct (tx_amount <$> filter (fun t => tx_category t = c)
                            (filter (fun t => tx_type t = "expense") transactions))
    as [|a l]; split; try done.
Qed.

(** *** The chat screen *)

(** X27: the history the chat screen hands to [sendMessage] holds at most
    the ten newest messages, oldest first, each as a user or a model turn
    with its text; so the history [sendMessage] normalizes from it always
    starts with a user turn and alternates, and is obtained by dropping
    turns only. *)
Theorem chat_history_is_repaired (messages : list ChatMessage) :
  let h := conversationHistory messages in
  (length h <= 10)%nat
  /\ Forall two_role h
  /\ History.text <$> h = cm_text <$> reverse (take 10 messages)
  /\ well_formed (normalizeHistory h)
  /\ sublist (normalizeHistory h) h.
Proof.
  cbv zeta.
  assert (Hroles : Forall two_role (conversationHistory messages)).
  { unfold conversationHistory. apply Forall_forall. intros c Hc.
    apply list_elem_of_In, in_map_iff in Hc as (m & <- & _).
    unfold two_role. cbn. destruct (cm_isUser m); [by left|by right]. }
  split; [|split; [exact Hroles|split]].
  - unfold conversationHistory. rewrite length_map, length_reverse, length_take. lia.
  - unfold conversationHistory. induction (reverse (take 10 messages)) as [|m l IH];
      [reflexivity|]. cbn. by rewrite <- IH.
  - destruct (conversationHistory messages) as [|c rest]; [split; [exact I|constructor]|].
    unfold normalizeHistory.
    destruct (String.eqb (History.role c) "model") eqn:Hm.
    + apply Forall_cons in Hroles as [_ Hrest]. split.
      * by apply filteri_alternating.
      * apply sublist_cons, filteri_sublist.
    + split; [by apply filteri_alternating | apply filteri_sublist].
Qed.

Lemma confirmations_of_writes (Number_toString : float -> string)
    (actions : list AgenticAction) :
  Forall recorded_write actions ->
  length (confirmations Number_toString actions) = length actions.
Proof.
  induction 1 as [|a l [Hexec Hkind] _ IH]; [reflexivity|].
  unfold confirmations in *. cbn. unfold confirmation at 1. rewrite Hexec.
  destruct Hkind as [Hk | [Hk | Hk]]; rewrite Hk; cbn; by rewrite IH.
Qed.

(** X28: the chat screen appends one confirmation line for every action
    [sendMessage] returned, and shows the answer alone when there is
    none. *)
Theorem every_action_is_confirmed (Date_parse : string -> option Z)
    (Number_toString : float -> string)
    (startChat : list History.Content -> outcome unit)
    (session : list Reply) (userMessage persona : string)
    (history : list History.Content) (w : World) :
  let r := sendMessage Date_parse Number_toString startChat session userMessage
             persona history w in
  length (confirmations Number_toString (actions r.1)) = length (actions r.1)
  /\ (actions r.1 = [] ->
      responseText Number_toString (answer_text r.1) (actions r.1) = answer_text r.1).
Proof.
  cbv zeta. split.
  - apply confirmations_of_writes, sendMessage_log.
  - intros ->. reflexivity.
Qed.

End InsightFacts.

(** * Two overlapping callers *)

Module OverlapFacts.
Import Js Gemini EventLoop Samples.

Ltac decide_comparisons :=
  repeat match goal with
  | |- context [?a <=? ?b] =>
      first [ replace (a <=? b) with true by (symmetry; apply Z.leb_le; lia)
            | replace (a <=? b) with false by (symmetry; apply Z.leb_gt; lia) ]
  | |- context [?a <? ?b] =>
      first [ replace (a <? b) with true by (symmetry; apply Z.ltb_lt; lia)
            | replace (a <? b) with false by (symmetry; apply Z.ltb_ge; lia) ]
  | |- context [?a >? ?b] =>
      first [ replace (a >? b) with true by (symmetry; rewrite Z.gtb_ltb; apply Z.ltb_lt; lia)
            | replace (a >? b) with false by (symmetry; rewrite Z.gtb_ltb; apply Z.ltb_ge; lia) ]
  end.

Lemma arrive_within_window (who : nat) (t : Z) (l : Loop) :
  quotaResetTime (service l) <= t ->
  t < lastRequestTime (service l) + minRequestInterval ->
  arrive who t l
  = mkLoop (service l)
      (timers l
       ++ [mkTimer (lastRequestTime (service l) + minRequestInterval) who stamp])
      (permits l).
Proof.
  intros Hquota Hwindow.
  unfold arrive, waitForRateLimit, spacing, minRequestInterval in *.
  replace (quotaResetTime (service l) >? t) with false
    by (symmetry; rewrite Z.gtb_ltb; apply Z.ltb_ge; lia).
  cbv zeta.
  replace (t - lastRequestTime (service l) <? 3000) with true
    by (symmetry; apply Z.ltb_lt; lia).
  unfold settle.
  replace (t + (3000 - (t - lastRequestTime (service l))))
    with (lastRequestTime (service l) + 3000) by lia.
  reflexivity.
Qed.

Lemma fire_stamp (at_ : Z) (who : nat) (rest : list Timer) (l : Loop) :
  fire (mkTimer at_ who stamp) rest l
  = mkLoop (set_lastRequestTime at_ (service l)) rest (permits l ++ [(who, at_)]).
Proof. reflexivity. Qed.

(** X29: when no cooldown is pending and two calls enter
    [waitForRateLimit] one after the other within 3000 ms of the last
    stamp, the second reads the stamp the first has not yet replaced:
    both leave at the same instant, 3000 ms after that stamp, the first
    caller first. *)
Theorem overlapping_calls_leave_together (g : GeminiService) (t1 t2 : Z) :
  quotaResetTime g <= t1 ->
  t1 <= t2 ->
  t2 < lastRequestTime g + minRequestInterval ->
  issue_order g [t1; t2]
  = [(0%nat, lastRequestTime g + minRequestInterval);
     (1%nat, lastRequestTime g + minRequestInterval)].
Proof.
  intros Hquota Horder Hwindow. unfold issue_order.
  cbn [length Nat.mul Nat.add].
  cbn [run pop_earliest timers].
  rewrite (arrive_within_window 0 t1) by (cbn [service]; lia).
  cbn [run pop_earliest timers service permits app due].
  replace (lastRequestTime g + minRequestInterval <=? t2) with false
    by (symmetry; apply Z.leb_gt; lia).
  rewrite (arrive_within_window 1 t2) by (cbn [service]; lia).
  cbn [run pop_earliest timers service permits app due].
  rewrite Z.leb_refl.
  rewrite !fire_stamp.
  reflexivity.
Qed.

Lemma overlapping_calls_leave_together_witness :
  issue_order (mkGemini morning 0 None ∅) [morning + 400; morning + 900]
  = [(0%nat, morning + 3000); (1%nat, morning + 3000)].
Proof.
  apply (overlapping_calls_leave_together (mkGemini morning 0 None ∅));
    vm_compute; first [discriminate | reflexivity].
Defined.

End OverlapFacts.
